(** * securefs: encrypted overlay filesystem -- operations layer and
      Windows platform helpers

    A shallow embedding of [sources/win.cpp] (FILETIME conversion, the
    Win32 error table, stat of a handle, the file stream's transfers in
    pieces, path normalisation, directory traversal) and of
    [sources/operations.cpp] (path resolution, object creation and removal,
    and the driver callbacks).

    The callbacks are state-and-exception computations over the mounted
    filesystem.  [FileBase*] is the id of a live object, a [FileGuard] the
    obligation to close it, and C++ scopes are made explicit: a guard that
    dies with its scope is a [finally], one that is moved out on success an
    [on_throw].  What [generate_random] produces is an argument.

    FileBase, its variants, Directory and FileTable are declared outside
    these sources; their definitions below follow the design document and
    say so.  Header and stream of an object are kept in one place (the
    table guarantees one live instance per id), so [flush] has nothing to
    do, and [faults] records which host streams fail and how. *)

From Stdlib Require Import ZArith Lia List String Ascii.
From stdpp Require Import base gmap strings list fin_maps.

Local Open Scope Z_scope.

(** ** Machine integers *)

(** [long long]: 64 bits, two's complement.  C++ leaves signed overflow
    undefined; it is given the wrapped value here, and the statements
    keep to arguments where nothing overflows or name the overflow. *)
Definition wrap_ll (z : Z) : Z := (z + 2 ^ 63) mod 2 ^ 64 - 2 ^ 63.

(** [(DWORD)x]: the low 32 bits. *)
Definition DWORD (z : Z) : Z := z mod 2 ^ 32.

(** [static_cast<int>(x)]: 32 bits, two's complement. *)
Definition to_int (z : Z) : Z := (z + 2 ^ 31) mod 2 ^ 32 - 2 ^ 31.

(** ** win.cpp: FILETIME <-> timespec *)

Record FILETIME := mkFILETIME { dwLowDateTime : Z; dwHighDateTime : Z }.

Record fuse_timespec := mkTimespec { tv_sec : Z; tv_nsec : Z }.

Definition FACTOR : Z := 10000000.
Definition EPOCH_DIFF : Z := 116444736000000000.

(** [filetime_to_unix_time]: C++ [/] and [%] truncate toward zero
    ([Z.quot], [Z.rem]). *)
Definition filetime_to_unix_time (ft : FILETIME) : fuse_timespec :=
  let ll :=
    wrap_ll (wrap_ll (wrap_ll (Z.shiftl (dwHighDateTime ft) 32)
                      + dwLowDateTime ft) - EPOCH_DIFF) in
  {| tv_sec := Z.quot ll FACTOR;
     tv_nsec := wrap_ll (Z.rem ll FACTOR * 100) |}.

Definition unix_time_to_filetime (t : fuse_timespec) : FILETIME :=
  let ll :=
    wrap_ll (wrap_ll (wrap_ll (tv_sec t * 10000000) + Z.quot (tv_nsec t) 100)
             + EPOCH_DIFF) in
  {| dwLowDateTime := DWORD ll;
     dwHighDateTime := DWORD (Z.shiftr ll 32) |}.

(** The last second whose 100ns tick count still fits a signed 64-bit
    FILETIME for every sub-second value. *)
Definition MAX_FILETIME_SEC : Z := 910692730084.

(** ** Constants of the C headers *)

(** <cerrno>. [ENOTEMPTY] is 41 in the MSVC runtime (39 on Linux). *)
Definition EPERM : Z := 1.
Definition ENOENT : Z := 2.
Definition EIO : Z := 5.
Definition EEXIST : Z := 17.
Definition ENOTDIR : Z := 20.
Definition EINVAL : Z := 22.
Definition ENOSPC : Z := 28.
Definition EROFS : Z := 30.
Definition ENOTEMPTY : Z := 41.

(** <sys/stat.h> (octal 0170000, 0100000, 0040000, 0120000). *)
Definition S_IFMT : Z := 61440.
Definition S_IFREG : Z := 32768.
Definition S_IFDIR : Z := 16384.
Definition S_IFLNK : Z := 40960.

(** <fcntl.h>, MSVC runtime values. *)
Definition O_RDONLY : Z := 0.
Definition O_WRONLY : Z := 1.
Definition O_RDWR : Z := 2.
Definition O_APPEND : Z := 8.
Definition O_TRUNC : Z := 512.

(** [~static_cast<uint32_t>(x)] *)
Definition uint32_not (x : Z) : Z := 2 ^ 32 - 1 - x.

(** ** Exceptions

    The three classes told apart by the catch clauses at the operation
    boundary.  [ExceptionBase] stands for a securefs exception that is not
    an [OSException]; [std_exception] for any other [std::exception]. *)
Inductive exception :=
| OSException (error_number : Z)
| ExceptionBase (type_name message : string) (error_number : Z)
| std_exception (what : string).

(** What a [throw] can carry: an object of a class derived from
    [std::exception], or a value of any other type. *)
Inductive thrown :=
| exception_object (e : exception)
| other_value.

(** ** Objects *)

(** Modelled from the spec: [id_type] (declared outside these sources) is
    the 32-byte object identifier, read here as a number. *)
Definition id_type := N.

(** Modelled from the spec: the three FileBase flavours
    ([FileBase::REGULAR_FILE], [SYMLINK], [DIRECTORY]). *)
Inductive file_type := REGULAR_FILE | SYMLINK | DIRECTORY.

#[global] Instance file_type_eq_dec : EqDecision file_type.
Proof. solve_decision. Defined.

(** Modelled from the spec: [FileBase::mode_for_type], the type nibble of
    a mode. *)
Definition mode_for_type (t : file_type) : Z :=
  match t with
  | REGULAR_FILE => S_IFREG
  | SYMLINK => S_IFLNK
  | DIRECTORY => S_IFDIR
  end.

(** Modelled from the spec: persistent state of the three variants -- a
    byte stream, a name -> (id, type) index, a link target. *)
Inductive Payload :=
| RegularFile (data : list ascii)
| Directory (entries : gmap string (id_type * file_type))
| Symlink (target : string).

(** Modelled from the spec: the common header of every object and its
    variant-specific stream. *)
Record FileBase := mkFileBase {
  fb_uid : Z;
  fb_gid : Z;
  fb_mode : Z;
  fb_nlink : Z;
  fb_payload : Payload
}.

Definition payload_type (p : Payload) : file_type :=
  match p with
  | RegularFile _ => REGULAR_FILE
  | Directory _ => DIRECTORY
  | Symlink _ => SYMLINK
  end.

(** Modelled from the spec: failures of the host streams of an object
    (section 7 of the design: AUTH_FAIL, IO, CORRUPT, NO_SPACE), and an
    exception from outside the securefs hierarchy. *)
Inductive host_fault := AUTH_FAIL | IO | CORRUPT | NO_SPACE | UNKNOWN (what : string).

Definition exception_of_fault (f : host_fault) : exception :=
  match f with
  | AUTH_FAIL => ExceptionBase "MessageVerificationException" "authentication failed" EIO
  | IO => ExceptionBase "SystemException" "host i/o failure" EIO
  | CORRUPT => ExceptionBase "CorruptedDirectoryException" "structure violated" EIO
  | NO_SPACE => ExceptionBase "SystemException" "no space left" ENOSPC
  | UNKNOWN what => std_exception what
  end.

(** ** The mounted filesystem

    [operations::FileSystem] holds the FileTable and the root id.  The
    table is modelled from the spec: [files] are the objects whose host
    files exist, [opened] the live instances with their reference counts
    (one per id), [readonly] its flag.  [faults] is the condition of the
    host streams, [stderr] what has been printed. *)
Record FileSystem := mkFileSystem {
  files : gmap id_type FileBase;
  faults : gmap id_type host_fault;
  opened : gmap id_type positive;
  readonly : bool;
  root_id : id_type;
  stderr : list string
}.

Definition with_files (f : gmap id_type FileBase) (s : FileSystem) : FileSystem :=
  {| files := f; faults := faults s; opened := opened s;
     readonly := readonly s; root_id := root_id s; stderr := stderr s |}.

Definition with_opened (o : gmap id_type positive) (s : FileSystem) : FileSystem :=
  {| files := files s; faults := faults s; opened := o;
     readonly := readonly s; root_id := root_id s; stderr := stderr s |}.

Definition with_stderr (l : list string) (s : FileSystem) : FileSystem :=
  {| files := files s; faults := faults s; opened := opened s;
     readonly := readonly s; root_id := root_id s; stderr := l |}.

(** [struct fuse_context]: the calling user; [private_data] is the
    [FileSystem] threaded through the monad below. *)
Record fuse_context := mkContext { ctx_uid : Z; ctx_gid : Z }.

(** ** Computations that read and change the filesystem and may throw *)

Inductive result (A : Type) :=
| Return (a : A)
| Throw (e : exception).
Arguments Return {A} a.
Arguments Throw {A} e.

Definition M (A : Type) : Type := FileSystem -> result A * FileSystem.

Definition ret {A} (a : A) : M A := fun s => (Return a, s).

Definition bind {A B} (m : M A) (k : A -> M B) : M B :=
  fun s => match m s with
           | (Return a, s') => k a s'
           | (Throw e, s') => (Throw e, s')
           end.

Definition throw {A} (e : exception) : M A := fun s => (Throw e, s).

Definition gets {A} (f : FileSystem -> A) : M A := fun s => (Return (f s), s).

Definition modify (f : FileSystem -> FileSystem) : M unit :=
  fun s => (Return tt, f s).

#[global] Instance M_ret : MRet M := @ret.
#[global] Instance M_bind : MBind M := fun A B k m => bind m k.

(** [try { m } catch (...) { h }] *)
Definition try_catch {A} (m : M A) (h : exception -> M A) : M A :=
  fun s => match m s with
           | (Throw e, s') => h e s'
           | r => r
           end.

(** A destructor that runs when [m] is left by an exception. *)
Definition on_throw {A} (m : M A) (dtor : FileSystem -> FileSystem) : M A :=
  fun s => match m s with
           | (Throw e, s') => (Throw e, dtor s')
           | r => r
           end.

(** A destructor that runs however [m] is left. *)
Definition finally {A} (m : M A) (dtor : FileSystem -> FileSystem) : M A :=
  fun s => match m s with
           | (r, s') => (r, dtor s')
           end.

(** How a block is left when its body may throw a value of any type,
    and a computation of [M] seen as such a body. *)
Inductive completion (A : Type) :=
| Normal (a : A)
| Abrupt (t : thrown).
Arguments Normal {A} a.
Arguments Abrupt {A} t.

Definition as_body {A} (m : M A) (s : FileSystem) : completion A * FileSystem :=
  match m s with
  | (Return a, s') => (Normal a, s')
  | (Throw e, s') => (Abrupt (exception_object e), s')
  end.

(** ** Strings and buffers *)

Definition NUL : ascii := Ascii.zero.
Definition newline : string := String (ascii_of_nat 10) EmptyString.

Definition is_empty (s : string) : bool :=
  match s with
  | EmptyString => true
  | String _ _ => false
  end.

(** The segments of [s] between occurrences of [sep]. *)
Fixpoint segments (sep : ascii) (s : string) : list string :=
  match s with
  | EmptyString => [EmptyString]
  | String c rest =>
      if Ascii.eqb c sep then EmptyString :: segments sep rest
      else match segments sep rest with
           | seg :: more => String c seg :: more
           | [] => [String c EmptyString]
           end
  end.

Fixpoint drop_empty (l : list string) : list string :=
  match l with
  | seg :: more => if is_empty seg then drop_empty more else l
  | [] => []
  end.

(** Modelled from the spec: [split] (declared outside these sources)
    cuts the path at the separator and discards the empty segments that
    leading and trailing separators produce. *)
Definition split (path : string) (sep : ascii) : list string :=
  rev (drop_empty (rev (drop_empty (segments sep path)))).

(** [memset(buf, 0, size)] *)
Definition memset_zero (buf : list ascii) (size : nat) : list ascii :=
  replicate (Nat.min size (length buf)) NUL ++ drop size buf.

(** [memcpy(buf, src, n)] *)
Definition memcpy (buf src : list ascii) (n : nat) : list ascii :=
  take n src ++ drop (length (take n src)) buf.

(** The C string held by a buffer: the bytes before the first NUL. *)
Fixpoint c_str (buf : list ascii) : string :=
  match buf with
  | [] => EmptyString
  | c :: rest => if Ascii.eqb c NUL then EmptyString else String c (c_str rest)
  end.

(** ** FileBase and its variants *)

(** Modelled from the spec: [FileBase::stat] reports the header. *)
Record stat := mkStat { st_mode : Z; st_nlink : Z; st_uid : Z; st_gid : Z }.

(** [FileBase*] is the id of a live object; dereferencing a pointer to an
    object that is gone has no defined behaviour in the source and throws
    here. *)
Definition deref (fb : id_type) : M FileBase :=
  fun s => match files s !! fb with
           | Some o => (Return o, s)
           | None => (Throw (std_exception "dangling FileBase"), s)
           end.

Definition update (fb : id_type) (f : FileBase -> FileBase) : M unit :=
  modify (fun s => with_files (alter f fb (files s)) s).

(** Access to the stream of an object: fails as the host streams do. *)
Definition stream (fb : id_type) : M Payload :=
  fun s => match faults s !! fb with
           | Some f => (Throw (exception_of_fault f), s)
           | None => bind (deref fb) (fun o => ret (fb_payload o)) s
           end.

Definition put_stream (fb : id_type) (p : Payload) : M unit :=
  update fb (fun o => {| fb_uid := fb_uid o; fb_gid := fb_gid o; fb_mode := fb_mode o;
                         fb_nlink := fb_nlink o; fb_payload := p |}).

(** Modelled from the spec: [FileBase::type], the variant of the object. *)
Definition FileBase_type (fb : id_type) : M file_type :=
  o ← deref fb; mret (payload_type (fb_payload o)).

Definition FileBase_stat (fb : id_type) : M stat :=
  o ← deref fb;
  mret {| st_mode := fb_mode o; st_nlink := fb_nlink o;
          st_uid := fb_uid o; st_gid := fb_gid o |}.

Definition FileBase_get_mode (fb : id_type) : M Z :=
  o ← deref fb; mret (fb_mode o).

Definition FileBase_set_uid (fb : id_type) (u : Z) : M unit :=
  update fb (fun o => {| fb_uid := u; fb_gid := fb_gid o; fb_mode := fb_mode o;
                         fb_nlink := fb_nlink o; fb_payload := fb_payload o |}).

Definition FileBase_set_gid (fb : id_type) (g : Z) : M unit :=
  update fb (fun o => {| fb_uid := fb_uid o; fb_gid := g; fb_mode := fb_mode o;
                         fb_nlink := fb_nlink o; fb_payload := fb_payload o |}).

Definition FileBase_set_mode (fb : id_type) (m : Z) : M unit :=
  update fb (fun o => {| fb_uid := fb_uid o; fb_gid := fb_gid o; fb_mode := m;
                         fb_nlink := fb_nlink o; fb_payload := fb_payload o |}).

Definition FileBase_set_nlink (fb : id_type) (n : Z) : M unit :=
  update fb (fun o => {| fb_uid := fb_uid o; fb_gid := fb_gid o; fb_mode := fb_mode o;
                         fb_nlink := n; fb_payload := fb_payload o |}).

(** Modelled from the spec: [FileBase::unlink] marks the object for
    deletion at last close by setting nlink to 0. *)
Definition FileBase_unlink (fb : id_type) : M unit := FileBase_set_nlink fb 0.

(** Modelled from the spec: [FileBase::flush]; header and stream are kept
    in one place here, so there is nothing left to write back. *)
Definition FileBase_flush (fb : id_type) : M unit := mret tt.

Definition bad_cast {A} : M A := throw (std_exception "object of another variant").

(** Modelled from the spec: [Directory::get_entry], lookup by name. *)
Definition Directory_get_entry (dir : id_type) (name : string)
  : M (option (id_type * file_type)) :=
  p ← stream dir;
  match p with
  | Directory entries => mret (entries !! name)
  | _ => bad_cast
  end.

(** Modelled from the spec: [Directory::add_entry] returns false if the
    name already exists and makes no change in that case. *)
Definition Directory_add_entry (dir : id_type) (name : string)
    (id : id_type) (type : file_type) : M bool :=
  p ← stream dir;
  match p with
  | Directory entries =>
      match entries !! name with
      | Some _ => mret false
      | None => put_stream dir (Directory (<[name := (id, type)]> entries));; mret true
      end
  | _ => bad_cast
  end.

(** Whether the object [id] is a directory that holds entries. *)
Definition holds_entries (s : FileSystem) (id : id_type) : bool :=
  match files s !! id with
  | Some o =>
      match fb_payload o with
      | Directory inside => negb (bool_decide (inside = ∅))
      | _ => false
      end
  | None => false
  end.

(** Modelled from the spec: [Directory::remove_entry] returns the removed
    (id, type), or reports that the name is not there.  Its structural
    precondition is that a directory named by the entry holds no entries:
    a directory that is not empty is signalled (section 8, scenario 3,
    which allows ENOTEMPTY or EEXIST; ENOTEMPTY here) and nothing is
    removed. *)
Definition Directory_remove_entry (dir : id_type) (name : string)
  : M (option (id_type * file_type)) :=
  p ← stream dir;
  match p with
  | Directory entries =>
      match entries !! name with
      | Some (id, type) =>
          not_empty ← gets (fun s => holds_entries s id);
          if not_empty : bool then throw (OSException ENOTEMPTY)
          else put_stream dir (Directory (delete name entries));; mret (Some (id, type))
      | None => mret None
      end
  | _ => bad_cast
  end.

(** Modelled from the spec: [Symlink::set] and [Symlink::get] store and
    return the target. *)
Definition Symlink_set (fb : id_type) (target : string) : M unit :=
  p ← stream fb;
  match p with
  | Symlink _ => put_stream fb (Symlink target)
  | _ => bad_cast
  end.

Definition Symlink_get (fb : id_type) : M string :=
  p ← stream fb;
  match p with
  | Symlink target => mret target
  | _ => bad_cast
  end.

Definition write_at (data : list ascii) (off : nat) (buf : list ascii) : list ascii :=
  match buf with
  | [] => data
  | _ => take off (data ++ replicate (off - length data) NUL) ++ buf
         ++ drop (off + length buf) data
  end.

Definition resize (data : list ascii) (n : nat) : list ascii :=
  take n data ++ replicate (n - length data) NUL.

(** Modelled from the spec: [RegularFile::read], [write] and [truncate]
    on the byte stream: reads past the end return nothing, writes past the
    end extend, a zero length is a no-op. *)
Definition RegularFile_read (fb : id_type) (off : Z) (len : Z) : M (list ascii) :=
  p ← stream fb;
  match p with
  | RegularFile data => mret (take (Z.to_nat len) (drop (Z.to_nat off) data))
  | _ => bad_cast
  end.

Definition RegularFile_write (fb : id_type) (buffer : list ascii) (off : Z) (len : Z)
  : M unit :=
  p ← stream fb;
  match p with
  | RegularFile data =>
      put_stream fb (RegularFile (write_at data (Z.to_nat off) (take (Z.to_nat len) buffer)))
  | _ => bad_cast
  end.

Definition RegularFile_truncate (fb : id_type) (size : Z) : M unit :=
  p ← stream fb;
  match p with
  | RegularFile data => put_stream fb (RegularFile (resize data (Z.to_nat size)))
  | _ => bad_cast
  end.

(** Modelled from the spec: [Directory::iterate_over_entries] hands every
    entry to the callback once, in no promised order (here the order of
    the index), and stops early when the callback returns false.  [B] is
    what the callback changes. *)
Fixpoint iterate_entries {B} (callback : B -> string -> id_type -> file_type -> bool * B)
    (l : list (string * (id_type * file_type))) (b : B) : B :=
  match l with
  | [] => b
  | (name, (id, type)) :: rest =>
      let '(continue, b') := callback b name id type in
      if continue : bool then iterate_entries callback rest b' else b'
  end.

Definition Directory_iterate_over_entries {B} (dir : id_type)
    (callback : B -> string -> id_type -> file_type -> bool * B) (b : B) : M B :=
  p ← stream dir;
  match p with
  | Directory entries => mret (iterate_entries callback (map_to_list entries) b)
  | _ => bad_cast
  end.

(** ** FileTable *)

Definition incref (id : id_type) (s : FileSystem) : FileSystem :=
  with_opened (<[id := match opened s !! id with
                       | Some n => Pos.succ n
                       | None => 1%positive
                       end]> (opened s)) s.

Definition empty_payload (type : file_type) : Payload :=
  match type with
  | REGULAR_FILE => RegularFile []
  | DIRECTORY => Directory ∅
  | SYMLINK => Symlink EmptyString
  end.

(** Modelled from the spec: [FileTable::open_as] hands out the one live
    instance of an id, counting the reference; NOT_FOUND if the host files
    are absent, TYPE_MISMATCH if the object is not of the requested type. *)
Definition FileTable_open_as (id : id_type) (type : file_type) : M id_type :=
  fun s => match files s !! id with
           | None => (Throw (OSException ENOENT), s)
           | Some o =>
               if decide (payload_type (fb_payload o) = type)
               then (Return id, incref id s)
               else (Throw (OSException EINVAL), s)
           end.

(** Modelled from the spec: [FileTable::create_as] creates the host files
    (which must not exist) of an object with empty streams, uid and gid of
    the calling context, nlink 0 and the type bit as mode, with one
    reference. *)
Definition FileTable_create_as (ctx : fuse_context) (id : id_type) (type : file_type)
  : M id_type :=
  fun s => match files s !! id with
           | Some _ => (Throw (OSException EEXIST), s)
           | None =>
               (Return id,
                with_opened (<[id := 1%positive]> (opened s))
                  (with_files
                     (<[id := {| fb_uid := ctx_uid ctx; fb_gid := ctx_gid ctx;
                                 fb_mode := mode_for_type type; fb_nlink := 0;
                                 fb_payload := empty_payload type |}]> (files s)) s))
           end.

(** Modelled from the spec: [FileTable::close] drops one reference; at
    zero the entry is removed and, if nlink is 0, the host files are
    deleted. *)
Definition close (fb : id_type) (s : FileSystem) : FileSystem :=
  match opened s !! fb with
  | None => s
  | Some n =>
      if decide (n = 1%positive) then
        let s' := with_opened (delete fb (opened s)) s in
        match files s !! fb with
        | Some o =>
            if decide (fb_nlink o = 0) then with_files (delete fb (files s)) s' else s'
        | None => s'
        end
      else with_opened (<[fb := Pos.pred n]> (opened s)) s
  end.

Definition FileTable_close (fb : id_type) : M unit := modify (close fb).

Definition FileTable_is_readonly : M bool := gets readonly.

(** ** operations.cpp, namespace internal *)

Module internal.

(** [FileGuard]: owns one reference to a live object.  [reset] closes
    it through the table; the destructor does the same and swallows
    whatever that throws. *)
Definition FileGuard_reset (m_fb : id_type) : M unit := FileTable_close m_fb.

Definition FileGuard_dtor (m_fb : id_type) (s : FileSystem) : FileSystem :=
  snd (FileGuard_reset m_fb s).

Definition table_open_as (id : id_type) (type : file_type) : M id_type :=
  FileTable_open_as id type.

(** The calling context reaches [create_as] through [ctx] here. *)
Definition table_create_as (ctx : fuse_context) (id : id_type) (type : file_type)
  : M id_type :=
  FileTable_create_as ctx id type.

Definition dir_get_entry (dir : id_type) (name : string)
  : M (option (id_type * file_type)) :=
  Directory_get_entry dir name.

Definition dir_add_entry (dir : id_type) (name : string) (id : id_type)
    (type : file_type) : M bool :=
  result ← Directory_add_entry dir name id type;
  FileBase_flush dir;;
  mret result.

(** The loop of [open_base_dir] over the components before the last;
    [result] is the guard it carries along. *)
Fixpoint open_base_dir_loop (result : id_type) (components : list string)
  : M id_type :=
  match components with
  | [] => mret result
  | c :: rest =>
      child ← on_throw
        (e ← dir_get_entry result c;
         match e with
         | None => throw (OSException ENOENT)
         | Some (id, type) =>
             if decide (type ≠ DIRECTORY) then throw (OSException ENOTDIR)
             else table_open_as id type
         end)
        (FileGuard_dtor result);
      FileGuard_reset result;;
      open_base_dir_loop child rest
  end.

Definition open_base_dir (ctx : fuse_context) (path : string)
  : M (id_type * string) :=
  let components := split path "/" in
  root ← gets root_id;
  result ← table_open_as root DIRECTORY;
  match components with
  | [] => mret (result, EmptyString)
  | _ =>
      result ← open_base_dir_loop result (removelast components);
      mret (result, List.last components EmptyString)
  end.

Definition open_all (ctx : fuse_context) (path : string) : M id_type :=
  '(fg, last_component) ← open_base_dir ctx path;
  if is_empty last_component then mret fg
  else
    target ← on_throw
      (e ← dir_get_entry fg last_component;
       match e with
       | None => throw (OSException ENOENT)
       | Some (id, type) => table_open_as id type
       end)
      (FileGuard_dtor fg);
    FileGuard_reset fg;;
    mret target.

(** [create]; [id] is what [generate_random] produced.  The function is
    written once with [FileBase::unlink] (declared outside these sources)
    left open, [unlink result] being the call [result->unlink()], and
    then taken with [FileBase_unlink]. *)
Definition create_calling (unlink : id_type -> M unit) (ctx : fuse_context)
    (path : string) (type : file_type) (id : id_type) : M id_type :=
  '(dir, last_component) ← open_base_dir ctx path;
  finally
    (result ← table_create_as ctx id type;
     on_throw
       (success ← try_catch
          (dir_add_entry dir last_component id type)
          (fun e => unlink result;; throw e);
        if negb success then unlink result;; throw (OSException EEXIST)
        else mret result)
       (FileGuard_dtor result))
    (FileGuard_dtor dir).

Definition create (ctx : fuse_context) (path : string) (type : file_type)
    (id : id_type) : M id_type :=
  create_calling FileBase_unlink ctx path type id.

Definition remove (ctx : fuse_context) (path : string) : M unit :=
  '(dir, last_component) ← open_base_dir ctx path;
  finally
    (if is_empty last_component then throw (OSException EPERM)
     else
       e ← Directory_remove_entry dir last_component;
       match e with
       | None => throw (OSException ENOENT)
       | Some (id, type) =>
           FileBase_flush dir;;
           to_be_removed ← table_open_as id type;
           finally (FileBase_unlink to_be_removed) (FileGuard_dtor to_be_removed)
       end)
    (FileGuard_dtor dir).

Definition is_readonly (ctx : fuse_context) : M bool := FileTable_is_readonly.

Definition fprintf_stderr (line : string) (s : FileSystem) : FileSystem :=
  with_stderr (stderr s ++ [line]) s.

Definition log_error (ctx : fuse_context) (e_type_name e_message : string)
    (e_error_number : Z) (s : FileSystem) : Z * FileSystem :=
  (- e_error_number,
   fprintf_stderr (e_type_name +:+ ": " +:+ e_message +:+ newline) s).

Definition log_general_error (ctx : fuse_context) (e_what : string)
    (s : FileSystem) : Z * FileSystem :=
  (- EPERM,
   fprintf_stderr ("An unexpected exception occured: " +:+ e_what +:+ newline) s).

End internal.

(** ** operations.cpp, namespace operations

    Every callback returns its [int] together with what it wrote through
    the pointers it was given ([st], [info], [buf]), and the filesystem
    after it. *)

Record fuse_file_info := mkInfo { flags : Z; fh : option id_type }.

Definition set_fh (fb : id_type) (info : fuse_file_info) : fuse_file_info :=
  {| flags := flags info; fh := Some fb |}.

Module operations.

Import internal.

(** [try { body } COMMON_CATCH_BLOCK] for a body of [M], which throws
    objects of the three classes only. *)
Definition COMMON_CATCH_BLOCK {O} (ctx : fuse_context) (out : O)
    (body : M (Z * O)) (s : FileSystem) : (Z * O) * FileSystem :=
  match body s with
  | (Return r, s') => (r, s')
  | (Throw (OSException error_number), s') => ((- error_number, out), s')
  | (Throw (ExceptionBase type_name message error_number), s') =>
      let '(rc, s'') := log_error ctx type_name message error_number s' in
      ((rc, out), s'')
  | (Throw (std_exception what), s') =>
      let '(rc, s'') := log_general_error ctx what s' in
      ((rc, out), s'')
  end.

(** The same clauses around a body that may throw a value of any type.
    The macro has no [catch (...)]: a value whose type does not derive
    from [std::exception] matches none of the three clauses and leaves
    the operation as it left the body. *)
Definition try_COMMON_CATCH_BLOCK {O} (ctx : fuse_context) (out : O)
    (body : FileSystem -> completion (Z * O) * FileSystem) (s : FileSystem)
  : completion (Z * O) * FileSystem :=
  match body s with
  | (Normal r, s') => (Normal r, s')
  | (Abrupt (exception_object (OSException error_number)), s') =>
      (Normal (- error_number, out), s')
  | (Abrupt (exception_object (ExceptionBase type_name message error_number)), s') =>
      let '(rc, s'') := log_error ctx type_name message error_number s' in
      (Normal (rc, out), s'')
  | (Abrupt (exception_object (std_exception what)), s') =>
      let '(rc, s'') := log_general_error ctx what s' in
      (Normal (rc, out), s'')
  | (Abrupt other_value, s') => (Abrupt other_value, s')
  end.

Definition getattr (ctx : fuse_context) (path : string) (st : stat) :=
  COMMON_CATCH_BLOCK ctx st
    (fg ← open_all ctx path;
     finally
       (st' ← FileBase_stat fg;
        FileBase_flush fg;;
        mret (0, st'))
       (FileGuard_dtor fg)).

Definition opendir (ctx : fuse_context) (path : string) (info : fuse_file_info) :=
  COMMON_CATCH_BLOCK ctx info
    (fg ← open_all ctx path;
     on_throw
       (t ← FileBase_type fg;
        if decide (t ≠ DIRECTORY)
        then FileGuard_reset fg;; mret (- ENOTDIR, info)
        else mret (0, set_fh fg info))
       (FileGuard_dtor fg)).

Definition create (ctx : fuse_context) (path : string) (mode : Z)
    (info : fuse_file_info) (random : id_type) :=
  let mode := Z.lor (Z.land mode (uint32_not S_IFMT)) S_IFREG in
  COMMON_CATCH_BLOCK ctx info
    (ro ← is_readonly ctx;
     if ro : bool then mret (- EROFS, info)
     else
       fg ← internal.create ctx path REGULAR_FILE random;
       on_throw
         (t ← FileBase_type fg;
          if decide (t ≠ REGULAR_FILE)
          then FileGuard_reset fg;; mret (- EPERM, info)
          else
            FileBase_set_uid fg (ctx_uid ctx);;
            FileBase_set_gid fg (ctx_gid ctx);;
            FileBase_set_nlink fg 1;;
            FileBase_set_mode fg mode;;
            FileBase_flush fg;;
            mret (0, set_fh fg info))
         (FileGuard_dtor fg)).

Definition open (ctx : fuse_context) (path : string) (info : fuse_file_info) :=
  let rdwr := negb (Z.land (flags info) O_RDWR =? 0) in
  let wronly := negb (Z.land (flags info) O_WRONLY =? 0) in
  let append := negb (Z.land (flags info) O_APPEND =? 0) in
  let require_write := wronly || append || rdwr in
  COMMON_CATCH_BLOCK ctx info
    (denied ← (if require_write then is_readonly ctx else mret false);
     if denied : bool then mret (- EROFS, info)
     else
       fg ← open_all ctx path;
       on_throw
         (t ← FileBase_type fg;
          if decide (t ≠ REGULAR_FILE)
          then FileGuard_reset fg;; mret (- EPERM, info)
          else
            (if negb (Z.land (flags info) O_TRUNC =? 0)
             then RegularFile_truncate fg 0
             else mret tt);;
            mret (0, set_fh fg info))
         (FileGuard_dtor fg)).

Definition release (ctx : fuse_context) (info : fuse_file_info) :=
  COMMON_CATCH_BLOCK ctx tt
    (match fh info with
     | None => mret (- EINVAL, tt)
     | Some fb =>
         FileBase_flush fb;;
         FileGuard_reset fb;;
         mret (0, tt)
     end).

Definition releasedir (ctx : fuse_context) (info : fuse_file_info) :=
  release ctx info.

Definition read (ctx : fuse_context) (buffer : list ascii) (len : Z) (off : Z)
    (info : fuse_file_info) :=
  COMMON_CATCH_BLOCK ctx buffer
    (match fh info with
     | None => mret (- EINVAL, buffer)
     | Some fb =>
         t ← FileBase_type fb;
         if decide (t ≠ REGULAR_FILE) then mret (- EPERM, buffer)
         else
           got ← RegularFile_read fb off len;
           mret (to_int (Z.of_nat (length got)), got ++ drop (length got) buffer)
     end).

Definition write (ctx : fuse_context) (buffer : list ascii) (len : Z) (off : Z)
    (info : fuse_file_info) :=
  COMMON_CATCH_BLOCK ctx tt
    (match fh info with
     | None => mret (- EINVAL, tt)
     | Some fb =>
         t ← FileBase_type fb;
         if decide (t ≠ REGULAR_FILE) then mret (- EPERM, tt)
         else
           RegularFile_write fb buffer off len;;
           mret (to_int len, tt)
     end).

Definition flush (ctx : fuse_context) (info : fuse_file_info) :=
  COMMON_CATCH_BLOCK ctx tt
    (match fh info with
     | None => mret (- EINVAL, tt)
     | Some fb =>
         t ← FileBase_type fb;
         if decide (t ≠ REGULAR_FILE) then mret (- EPERM, tt)
         else FileBase_flush fb;; mret (0, tt)
     end).

Definition truncate (ctx : fuse_context) (path : string) (size : Z) :=
  COMMON_CATCH_BLOCK ctx tt
    (fg ← open_all ctx path;
     finally
       (t ← FileBase_type fg;
        if decide (t ≠ REGULAR_FILE) then mret (- EINVAL, tt)
        else
          RegularFile_truncate fg size;;
          FileBase_flush fg;;
          mret (0, tt))
       (FileGuard_dtor fg)).

Definition ftruncate (ctx : fuse_context) (size : Z) (info : fuse_file_info) :=
  COMMON_CATCH_BLOCK ctx tt
    (match fh info with
     | None => mret (- EINVAL, tt)
     | Some fb =>
         t ← FileBase_type fb;
         if decide (t ≠ REGULAR_FILE) then mret (- EINVAL, tt)
         else
           RegularFile_truncate fb size;;
           FileBase_flush fb;;
           mret (0, tt)
     end).

Definition unlink (ctx : fuse_context) (path : string) :=
  COMMON_CATCH_BLOCK ctx tt
    (ro ← is_readonly ctx;
     if ro : bool then mret (- EROFS, tt)
     else internal.remove ctx path;; mret (0, tt)).

Definition mkdir (ctx : fuse_context) (path : string) (mode : Z)
    (random : id_type) :=
  let mode := Z.lor (Z.land mode (uint32_not S_IFMT)) S_IFDIR in
  COMMON_CATCH_BLOCK ctx tt
    (ro ← is_readonly ctx;
     if ro : bool then mret (- EROFS, tt)
     else
       fg ← internal.create ctx path DIRECTORY random;
       finally
         (t ← FileBase_type fg;
          if decide (t ≠ DIRECTORY) then mret (- ENOTDIR, tt)
          else
            FileBase_set_uid fg (ctx_uid ctx);;
            FileBase_set_gid fg (ctx_gid ctx);;
            FileBase_set_nlink fg 1;;
            FileBase_set_mode fg mode;;
            FileBase_flush fg;;
            mret (0, tt))
         (FileGuard_dtor fg)).

Definition rmdir (ctx : fuse_context) (path : string) := unlink ctx path.

Definition chmod (ctx : fuse_context) (path : string) (mode : Z) :=
  COMMON_CATCH_BLOCK ctx tt
    (fg ← open_all ctx path;
     finally
       (original_mode ← FileBase_get_mode fg;
        let mode := Z.land mode 511 in
        let mode := Z.lor mode (Z.land original_mode S_IFMT) in
        FileBase_set_mode fg mode;;
        FileBase_flush fg;;
        mret (0, tt))
       (FileGuard_dtor fg)).

Definition chown (ctx : fuse_context) (path : string) (uid gid : Z) :=
  COMMON_CATCH_BLOCK ctx tt
    (fg ← open_all ctx path;
     finally
       (FileBase_set_uid fg uid;;
        FileBase_set_gid fg gid;;
        FileBase_flush fg;;
        mret (0, tt))
       (FileGuard_dtor fg)).

Definition symlink (ctx : fuse_context) (to from : string) (random : id_type) :=
  COMMON_CATCH_BLOCK ctx tt
    (ro ← is_readonly ctx;
     if ro : bool then mret (- EROFS, tt)
     else
       fg ← internal.create ctx from SYMLINK random;
       finally
         (t ← FileBase_type fg;
          if decide (t ≠ SYMLINK) then mret (- EINVAL, tt)
          else
            FileBase_set_uid fg (ctx_uid ctx);;
            FileBase_set_gid fg (ctx_gid ctx);;
            FileBase_set_nlink fg 1;;
            FileBase_set_mode fg (Z.lor S_IFLNK 493);;
            Symlink_set fg to;;
            FileBase_flush fg;;
            mret (0, tt))
         (FileGuard_dtor fg)).

Definition readlink (ctx : fuse_context) (path : string) (buf : list ascii)
    (size : Z) (s : FileSystem) : (Z * list ascii) * FileSystem :=
  if size =? 0 then ((- EINVAL, buf), s)
  else
    COMMON_CATCH_BLOCK ctx buf
      (fg ← open_all ctx path;
       finally
         (t ← FileBase_type fg;
          if decide (t ≠ SYMLINK) then mret (- EINVAL, buf)
          else
            destination ← Symlink_get fg;
            let buf := memset_zero buf (Z.to_nat size) in
            let buf := memcpy buf (list_ascii_of_string destination)
                         (Z.to_nat (Z.min (Z.of_nat (String.length destination))
                                          (size - 1))) in
            mret (0, buf))
         (FileGuard_dtor fg)) s.

(** [readdir]: [buffer] is what the driver's [filler] fills, [filler]
    answers with its int and the buffer after it; it is given the name as
    a C string ([name.c_str()]). *)
Definition readdir {B} (ctx : fuse_context) (buffer : B)
    (filler : B -> string -> stat -> Z * B) (info : fuse_file_info) :=
  COMMON_CATCH_BLOCK ctx buffer
    (match fh info with
     | None => mret (- EINVAL, buffer)
     | Some fb =>
         t ← FileBase_type fb;
         if decide (t ≠ DIRECTORY) then mret (- ENOTDIR, buffer)
         else
           let actions := fun b (name : string) (_ : id_type) (type : file_type) =>
             let st := {| st_mode := mode_for_type type; st_nlink := 0;
                          st_uid := 0; st_gid := 0 |} in
             let '(rc, b') := filler b (c_str (list_ascii_of_string name)) st in
             (rc =? 0, b') in
           buffer ← Directory_iterate_over_entries fb actions buffer;
           mret (0, buffer)
     end).

End operations.

(** ** win.cpp: the platform service *)

(** Further <cerrno> values of the MSVC runtime, as [errorTable] uses
    them. *)
Definition ENXIO : Z := 6.
Definition E2BIG : Z := 7.
Definition ENOEXEC : Z := 8.
Definition EBADF : Z := 9.
Definition ECHILD : Z := 10.
Definition EAGAIN : Z := 11.
Definition ENOMEM : Z := 12.
Definition EACCES : Z := 13.
Definition EFAULT : Z := 14.
Definition EBUSY : Z := 16.
Definition EXDEV : Z := 18.
Definition ENODEV : Z := 19.
Definition ENFILE : Z := 23.
Definition EMFILE : Z := 24.
Definition EFBIG : Z := 27.
Definition ESPIPE : Z := 29.
Definition EPIPE : Z := 32.
Definition ENAMETOOLONG : Z := 38.

(** <winerror.h>, <winnt.h> *)
Definition ERROR_NO_MORE_FILES : Z := 18.
Definition ERROR_HANDLE_EOF : Z := 38.
Definition FILE_ATTRIBUTE_DIRECTORY : Z := 16.
Definition FILE_ATTRIBUTE_NORMAL : Z := 128.

(** [uint64_t] arithmetic wraps. *)
Definition uint64 (z : Z) : Z := z mod 2 ^ 64.

Definition convert_dword_pair (low_part high_part : Z) : Z :=
  Z.lor low_part (uint64 (Z.shiftl high_part 32)).

Definition MAX_SINGLE_BLOCK : Z := 2 ^ 32 - 1.

(** The table of [WindowsException::error_number], indexed by the Win32
    error code; the comment gives the index of the first entry of a row. *)
Definition errorTable : list Z :=
  [
    (*   0 *) 0; EINVAL; ENOENT; ENOENT; EMFILE; EACCES; EBADF; ENOMEM; ENOMEM; ENOMEM;
    (*  10 *) E2BIG; ENOEXEC; EACCES; EINVAL; EFAULT; ENOENT; EACCES; EXDEV; ENOENT; EROFS;
    (*  20 *) ENXIO; EBUSY; EIO; EIO; EIO; EIO; EIO; ENXIO; EBUSY; EIO;
    (*  30 *) EIO; EIO; EACCES; EACCES; ENXIO; ENFILE; ENFILE; EINVAL; EINVAL; ENOSPC;
    (*  40 *) EINVAL; EINVAL; EINVAL; EINVAL; EINVAL; EINVAL; EINVAL; EINVAL; EINVAL; EINVAL;
    (*  50 *) ENODEV; EBUSY; EEXIST; ENOENT; EBUSY; ENODEV; EAGAIN; EIO; EIO; EIO;
    (*  60 *) EINVAL; EFBIG; ENOSPC; ENOENT; ENOENT; EACCES; ENODEV; ENOENT; ENFILE; EIO;
    (*  70 *) EAGAIN; EINVAL; EAGAIN; EINVAL; EINVAL; EINVAL; EINVAL; EINVAL; EINVAL; EINVAL;
    (*  80 *) EEXIST; EINVAL; ENOSPC; EIO; ENFILE; EEXIST; EPERM; EINVAL; EIO; EAGAIN;
    (*  90 *) EINVAL; EINVAL; EINVAL; EINVAL; EINVAL; EINVAL; EINVAL; EINVAL; EINVAL; EINVAL;
    (* 100 *) EINVAL; EINVAL; EINVAL; EINVAL; EINVAL; EINVAL; EINVAL; EXDEV; EAGAIN; EPIPE;
    (* 110 *) ENOENT; EINVAL; ENOSPC; EMFILE; EBADF; EFAULT; EINVAL; EINVAL; EINVAL; EINVAL;
    (* 120 *) EINVAL; EINVAL; EINVAL; ENOENT; EINVAL; EINVAL; EINVAL; EINVAL; ECHILD; ECHILD;
    (* 130 *) EBADF; EINVAL; ESPIPE; EINVAL; EINVAL; EINVAL; EINVAL; EINVAL; EINVAL; EINVAL;
    (* 140 *) EINVAL; EINVAL; EAGAIN; EINVAL; EINVAL; EEXIST; EINVAL; EINVAL; EINVAL; EINVAL;
    (* 150 *) EINVAL; EINVAL; EINVAL; EINVAL; EINVAL; EINVAL; EINVAL; EINVAL; EACCES; EINVAL;
    (* 160 *) EINVAL; ENOENT; EINVAL; EINVAL; EINVAL; EINVAL; EINVAL; EACCES; EINVAL; EINVAL;
    (* 170 *) EINVAL; EINVAL; EINVAL; EINVAL; EINVAL; EINVAL; EINVAL; EINVAL; EINVAL; EINVAL;
    (* 180 *) EINVAL; EINVAL; EINVAL; EEXIST; ECHILD; EINVAL; EINVAL; EINVAL; EINVAL; EINVAL;
    (* 190 *) EINVAL; EINVAL; EINVAL; EINVAL; EINVAL; EINVAL; EINVAL; EINVAL; EINVAL; EINVAL;
    (* 200 *) EINVAL; EINVAL; EINVAL; EINVAL; EINVAL; EINVAL; ENAMETOOLONG; EINVAL; EINVAL; EINVAL;
    (* 210 *) EINVAL; EINVAL; EINVAL; EINVAL; EINVAL; EINVAL; EINVAL; EINVAL; EINVAL; EINVAL;
    (* 220 *) EINVAL; EINVAL; EINVAL; EINVAL; EINVAL; EINVAL; EINVAL; EINVAL; EINVAL; EINVAL;
    (* 230 *) EPIPE; EAGAIN; EPIPE; EPIPE; EINVAL; EINVAL; EINVAL; EINVAL; EINVAL; EINVAL;
    (* 240 *) EINVAL; EINVAL; EINVAL; EINVAL; EINVAL; EINVAL; EINVAL; EINVAL; EINVAL; EINVAL;
    (* 250 *) EINVAL; EINVAL; EINVAL; EINVAL; EINVAL; EINVAL; EINVAL; EINVAL; EINVAL; EINVAL;
    (* 260 *) EINVAL; EINVAL; EINVAL; EINVAL; EINVAL; EINVAL; EINVAL; ENOTDIR
  ].

(** [sizeof(errorTable)]: the size in bytes, [int] being four bytes. *)
Definition sizeof_errorTable : Z := 4 * Z.of_nat (length errorTable).

(** [WindowsException::error_number] for the code [err] (a DWORD).  The
    bound of the test is the size of the table in bytes; an index that
    passes it and lies past the last entry reads outside the array, which
    the language leaves undefined: [None]. *)
Definition WindowsException_error_number (err : Z) : option Z :=
  if (0 <=? err) && (err <? sizeof_errorTable)
  then errorTable !! Z.to_nat err
  else Some EPERM.

(** What the platform code throws. *)
Inductive platform_exception :=
| WindowsException (err : Z) (msg : string)
| VFSException (error_number : Z).

(** How a call of the platform code ends.  [Undefined]: control reached
    the end of [throwWindowsException], which is declared [[noreturn]]. *)
Inductive outcome (A : Type) :=
| Ok (a : A)
| Thrown (e : platform_exception)
| Undefined.
Arguments Ok {A} a.
Arguments Thrown {A} e.
Arguments Undefined {A}.

Definition throwWindowsException {A} (err : Z) (exp : string) : outcome A :=
  if negb (err =? 0) then Thrown (WindowsException err exp) else Undefined.

(** Wide strings are lists of UTF-16 code units (what comes before the
    terminating zero). *)

Definition L_slash : Z := 47.
Definition L_backslash : Z := 92.
Definition L_dot : Z := 46.

(** [stat_file_handle]; the module keeps the field names of [fuse_stat]
    apart from those of [stat]. *)
Module platform.

(** The fields of BY_HANDLE_FILE_INFORMATION that [stat_file_handle]
    reads. *)
Record BY_HANDLE_FILE_INFORMATION := mkFileInformation {
  dwFileAttributes : Z;
  ftCreationTime : FILETIME;
  ftLastAccessTime : FILETIME;
  ftLastWriteTime : FILETIME;
  dwVolumeSerialNumber : Z;
  nFileSizeHigh : Z;
  nFileSizeLow : Z;
  nNumberOfLinks : Z;
  nFileIndexHigh : Z;
  nFileIndexLow : Z
}.

(** [struct fuse_stat] of the driver bridge: [st_nlink] has 16 bits,
    [st_size] and [st_blocks] are signed 64-bit, [st_ino] is unsigned
    64-bit. *)
Record fuse_stat := mkFuseStat {
  st_dev : Z;
  st_ino : Z;
  st_mode : Z;
  st_nlink : Z;
  st_uid : Z;
  st_gid : Z;
  st_rdev : Z;
  st_size : Z;
  st_atim : fuse_timespec;
  st_mtim : fuse_timespec;
  st_ctim : fuse_timespec;
  st_blksize : Z;
  st_blocks : Z;
  st_birthtim : fuse_timespec
}.

(** [GetFileInformationByHandle] is what the call of that name on the
    handle delivered: the information block, or the
    error [GetLastError] reports after a failure; [getuid] is what
    [OSService::getuid] returns. *)
Definition stat_file_handle
    (GetFileInformationByHandle : BY_HANDLE_FILE_INFORMATION + Z) (getuid : Z)
  : outcome fuse_stat :=
  match GetFileInformationByHandle with
  | inr err => throwWindowsException err "GetFileInformationByHandle(hd, &info)"
  | inl info =>
      let mtim := filetime_to_unix_time (ftLastWriteTime info) in
      let size := wrap_ll (convert_dword_pair (nFileSizeLow info) (nFileSizeHigh info)) in
      Ok {| st_dev := dwVolumeSerialNumber info;
            st_ino := convert_dword_pair (nFileIndexLow info) (nFileIndexHigh info);
            st_mode := if negb (Z.land (dwFileAttributes info) FILE_ATTRIBUTE_DIRECTORY =? 0)
                       then Z.lor S_IFDIR 511
                       else Z.lor S_IFREG 511;
            st_nlink := nNumberOfLinks info mod 2 ^ 16;
            st_uid := getuid;
            st_gid := getuid;
            st_rdev := 0;
            st_size := size;
            st_atim := filetime_to_unix_time (ftLastAccessTime info);
            st_mtim := mtim;
            st_ctim := mtim;
            st_blksize := 4096;
            st_blocks := wrap_ll (Z.quot (wrap_ll (size + 4095)) 4096 * (4096 / 512));
            st_birthtim := filetime_to_unix_time (ftCreationTime info) |}
  end.

End platform.

(** [WindowsFileStream]: the transfers in pieces of at most
    [MAX_SINGLE_BLOCK] bytes.  The host enters through [ReadFile] and
    [WriteFile]: called with the two halves of the offset, they answer
    with the bytes transferred or with the error [GetLastError] reports. *)
Module WindowsFileStream.

Section Read.

Variable ReadFile : Z -> Z -> Z -> list ascii + Z.

Definition read32 (offset : Z) (length : Z) : outcome (list ascii) :=
  match ReadFile (DWORD offset) (DWORD (Z.shiftr offset 32)) length with
  | inl bytes => Ok bytes
  | inr err =>
      if err =? ERROR_HANDLE_EOF then Ok []
      else throwWindowsException err "ReadFile"
  end.

(** The loop of [read] and the call after it, in at most [fuel] turns of
    the loop ([None]: they were used up).  [output] is what has been stored
    so far, its length is [total].  A turn takes at least one byte off
    [length] (a host delivers no more than it was asked for), so [length]
    turns are enough. *)
Fixpoint read_from (fuel : nat) (output : list ascii) (offset length : Z)
  : option (outcome (list ascii)) :=
  if MAX_SINGLE_BLOCK <? length then
    match fuel with
    | O => None
    | S fuel =>
        match read32 offset MAX_SINGLE_BLOCK with
        | Ok bytes =>
            let readlen := Z.of_nat (List.length bytes) in
            if readlen =? 0 then Some (Ok output)
            else read_from fuel (output ++ bytes) (uint64 (offset + readlen))
                   (uint64 (length - readlen))
        | Thrown e => Some (Thrown e)
        | Undefined => Some Undefined
        end
    end
  else
    match read32 offset (DWORD length) with
    | Ok bytes => Some (Ok (output ++ bytes))
    | Thrown e => Some (Thrown e)
    | Undefined => Some Undefined
    end.

Definition read (offset length : Z) : option (outcome (list ascii)) :=
  read_from (Z.to_nat length) [] offset length.

End Read.

Section Write.

Context {Host : Type}.
Variable WriteFile : Host -> Z -> Z -> list ascii -> (Z * Host) + Z.

Definition write32 (h : Host) (input : list ascii) (offset : Z) (length : Z)
  : outcome Host :=
  match WriteFile h (DWORD offset) (DWORD (Z.shiftr offset 32))
          (take (Z.to_nat length) input) with
  | inr err => throwWindowsException err "WriteFile(m_handle, input, length, &writelen, &ol)"
  | inl (writelen, h') =>
      if negb (writelen =? length) then Thrown (VFSException EIO) else Ok h'
  end.

(** The loop of [write] and the call after it, in at most [fuel] turns. *)
Fixpoint write_from (fuel : nat) (h : Host) (input : list ascii) (offset length : Z)
  : option (outcome Host) :=
  if MAX_SINGLE_BLOCK <? length then
    match fuel with
    | O => None
    | S fuel =>
        match write32 h input offset MAX_SINGLE_BLOCK with
        | Ok h' =>
            write_from fuel h' (drop (Z.to_nat MAX_SINGLE_BLOCK) input)
              (uint64 (offset + MAX_SINGLE_BLOCK)) (uint64 (length - MAX_SINGLE_BLOCK))
        | Thrown e => Some (Thrown e)
        | Undefined => Some Undefined
        end
    end
  else Some (write32 h input offset (DWORD length)).

Definition write (h : Host) (input : list ascii) (offset length : Z)
  : option (outcome Host) :=
  write_from (Z.to_nat length) h input offset length.

End Write.

End WindowsFileStream.

Module OSService.

(** [norm_path]; [widen_string] (declared outside these sources) is an
    argument. *)
Definition norm_path (widen_string : string -> list Z) (m_dir_name : list Z)
    (path : string) : list Z :=
  if bool_decide (m_dir_name = []) || is_empty path
     || match path with
        | String c _ => Ascii.eqb c "/" || Ascii.eqb c "\"
        | EmptyString => false
        end
     || ((2 <? String.length path)%nat
         && match String.get 1 path with
            | Some c => Ascii.eqb c ":"
            | None => false
            end)
  then widen_string path
  else (fun c => if c =? L_slash then L_backslash else c)
         <$> (m_dir_name ++ widen_string path).

Definition raise_fd_limit : Z := 65535.

End OSService.

(** [WindowsDirectoryTraverser].  [m_data] is the entry the last find call
    delivered; [m_handle] stands for the search: the entries
    [FindNextFileW] still has to deliver, and the error it reports when
    there is none left. *)
Record WIN32_FIND_DATAW := mkFindData {
  dwFileAttributes : Z;
  cFileName : list Z
}.

Record WindowsDirectoryTraverser := mkTraverser {
  m_data : WIN32_FIND_DATAW;
  m_handle : list WIN32_FIND_DATAW;
  m_last_error : Z
}.

Definition is_dot_entry (d : WIN32_FIND_DATAW) : bool :=
  bool_decide (cFileName d = [L_dot]) || bool_decide (cFileName d = [L_dot; L_dot]).

(** The loop of [next]: skip [.] and [..].  It answers whether an entry
    was found (or [FindNextFileW] failed), and what [m_data] and the search
    are then. *)
Fixpoint next_loop (m_data : WIN32_FIND_DATAW) (m_handle : list WIN32_FIND_DATAW)
  : bool * WIN32_FIND_DATAW * list WIN32_FIND_DATAW :=
  if is_dot_entry m_data then
    match m_handle with
    | [] => (false, m_data, [])
    | d :: rest => next_loop d rest
    end
  else (true, m_data, m_handle).

Definition entry_type (d : WIN32_FIND_DATAW) : Z :=
  if dwFileAttributes d =? FILE_ATTRIBUTE_NORMAL then S_IFREG
  else if negb (Z.land (dwFileAttributes d) FILE_ATTRIBUTE_DIRECTORY =? 0) then S_IFDIR
  else 0.

(** [next] with both [name] and [type] given: [Some (name, type)] stands
    for [true] and what was stored, [None] for [false].  [narrow_string]
    (declared outside these sources) is an argument. *)
Definition next (narrow_string : list Z -> string) (t : WindowsDirectoryTraverser)
  : outcome (option (string * Z)) * WindowsDirectoryTraverser :=
  match next_loop (m_data t) (m_handle t) with
  | (false, d, rest) =>
      let t' := {| m_data := d; m_handle := rest; m_last_error := m_last_error t |} in
      if m_last_error t =? ERROR_NO_MORE_FILES then (Ok None, t')
      else (throwWindowsException (m_last_error t) "FindNextFileW", t')
  | (true, d, rest) =>
      (Ok (Some (narrow_string (cFileName d), entry_type d)),
       {| m_data := {| dwFileAttributes := dwFileAttributes d; cFileName := [L_dot] |};
          m_handle := rest; m_last_error := m_last_error t |})
  end.

(** ** Hosts and callers of the platform code, for the statements *)

(** A host file holding [data]: a read before the end delivers what is
    there, up to [length] bytes; at or past the end it fails with
    ERROR_HANDLE_EOF. *)
Definition host_ReadFile (data : list ascii) (Offset OffsetHigh length : Z)
  : list ascii + Z :=
  let offset := convert_dword_pair Offset OffsetHigh in
  if offset <? Z.of_nat (List.length data)
  then inl (take (Z.to_nat length) (drop (Z.to_nat offset) data))
  else inr ERROR_HANDLE_EOF.

(** A host file that takes every write in full. *)
Definition host_WriteFile (data : list ascii) (Offset OffsetHigh : Z)
    (input : list ascii) : (Z * list ascii) + Z :=
  inl (Z.of_nat (List.length input),
       write_at data (Z.to_nat (convert_dword_pair Offset OffsetHigh)) input).

(** What a caller gathers that calls [next] until it answers false, in
    at most [fuel] calls. *)
Fixpoint drain (narrow_string : list Z -> string) (fuel : nat)
    (t : WindowsDirectoryTraverser) : option (list (string * Z)) :=
  match fuel with
  | O => None
  | S fuel =>
      match next narrow_string t with
      | (Ok (Some e), t') => cons e <$> drain narrow_string fuel t'
      | (Ok None, _) => Some []
      | _ => None
      end
  end.

(** The 64-bit tick count (100ns units since 1601) a FILETIME holds. *)
Definition ticks (ft : FILETIME) : Z :=
  dwHighDateTime ft * 2 ^ 32 + dwLowDateTime ft.

(** A FILETIME whose two fields are DWORDs. *)
Definition is_FILETIME (ft : FILETIME) : Prop :=
  0 <= dwLowDateTime ft < 2 ^ 32 /\ 0 <= dwHighDateTime ft < 2 ^ 32.

(** A timespec with nanoseconds below one second and seconds in the
    range a FILETIME can hold. *)
Definition is_timespec (t : fuse_timespec) : Prop :=
  0 <= tv_sec t <= MAX_FILETIME_SEC /\ 0 <= tv_nsec t < 1000000000.

Definition timespec_le (t1 t2 : fuse_timespec) : Prop :=
  tv_sec t1 < tv_sec t2 \/ (tv_sec t1 = tv_sec t2 /\ tv_nsec t1 <= tv_nsec t2).

(** ** Notions used to state the properties *)

(** No object is waiting to be purged: one with nlink 0 is live (it goes
    away with its last reference). *)
Definition settled_at (s : FileSystem) (id : id_type) : Prop :=
  forall o, files s !! id = Some o -> fb_nlink o = 0 -> is_Some (opened s !! id).

(** The state between two operations: nothing waits to be purged, and
    every live instance has its host files. *)
Definition settled (s : FileSystem) : Prop :=
  map_Forall (fun id o => fb_nlink o = 0 -> is_Some (opened s !! id)) (files s)
  /\ map_Forall (fun id (_ : positive) => is_Some (files s !! id)) (opened s).

(** What [get_entry] on [dir] answers in [s]. *)
Definition entry_of (s : FileSystem) (dir : id_type) (name : string)
  : result (option (id_type * file_type)) :=
  fst (Directory_get_entry dir name s).

(** What [open_as] answers in [s]. *)
Definition openable (s : FileSystem) (id : id_type) (type : file_type)
  : result id_type :=
  fst (FileTable_open_as id type s).

(** The entries of [dir], when it is a directory whose stream is readable. *)
Definition entries_of (s : FileSystem) (dir : id_type)
  : option (gmap string (id_type * file_type)) :=
  match faults s !! dir, files s !! dir with
  | None, Some o =>
      match fb_payload o with
      | Directory entries => Some entries
      | _ => None
      end
  | _, _ => None
  end.

Definition is_directory (s : FileSystem) (id : id_type) : Prop :=
  exists o, files s !! id = Some o /\ payload_type (fb_payload o) = DIRECTORY.

(** [descends s d names d']: from directory [d], the names lead through
    entries recorded as directories to [d']. *)
Inductive descends (s : FileSystem) : id_type -> list string -> id_type -> Prop :=
| descends_here d : descends s d [] d
| descends_into d name names child d' entries :
    entries_of s d = Some entries ->
    entries !! name = Some (child, DIRECTORY) ->
    is_directory s child ->
    descends s child names d' ->
    descends s d (name :: names) d'.

(** The outcome of the loop of [open_base_dir], read off the state. *)
Fixpoint walk (s : FileSystem) (cur : id_type) (components : list string)
  : result id_type :=
  match components with
  | [] => Return cur
  | c :: rest =>
      match entry_of s cur c with
      | Throw e => Throw e
      | Return None => Throw (OSException ENOENT)
      | Return (Some (id, type)) =>
          if decide (type ≠ DIRECTORY) then Throw (OSException ENOTDIR)
          else match openable s id type with
               | Throw e => Throw e
               | Return child => walk s child rest
               end
      end
  end.

Definition resolve_base (s : FileSystem) (components : list string)
  : result (id_type * string) :=
  match openable s (root_id s) DIRECTORY with
  | Throw e => Throw e
  | Return root =>
      match components with
      | [] => Return (root, EmptyString)
      | _ =>
          match walk s root (removelast components) with
          | Throw e => Throw e
          | Return d => Return (d, List.last components EmptyString)
          end
      end
  end.

Definition resolve_all (s : FileSystem) (components : list string)
  : result id_type :=
  match resolve_base s components with
  | Throw e => Throw e
  | Return (d, last_component) =>
      if is_empty last_component then Return d
      else match entry_of s d last_component with
           | Throw e => Throw e
           | Return None => Throw (OSException ENOENT)
           | Return (Some (id, type)) => openable s id type
           end
  end.

(** The int a thrown exception becomes at the operation boundary. *)
Definition error_code (e : exception) : Z :=
  match e with
  | OSException n => - n
  | ExceptionBase _ _ n => - n
  | std_exception _ => - EPERM
  end.

Definition set_payload (p : Payload) (o : FileBase) : FileBase :=
  {| fb_uid := fb_uid o; fb_gid := fb_gid o; fb_mode := fb_mode o;
     fb_nlink := fb_nlink o; fb_payload := p |}.

Definition link_entry (name : string) (id : id_type) (type : file_type)
    (o : FileBase) : FileBase :=
  match fb_payload o with
  | Directory entries => set_payload (Directory (<[name := (id, type)]> entries)) o
  | _ => o
  end.

Definition fresh_object (ctx : fuse_context) (type : file_type) : FileBase :=
  {| fb_uid := ctx_uid ctx; fb_gid := ctx_gid ctx; fb_mode := mode_for_type type;
     fb_nlink := 0; fb_payload := empty_payload type |}.

(** The state [internal::create] leaves when it succeeds. *)
Definition created (ctx : fuse_context) (dir : id_type) (name : string)
    (id : id_type) (type : file_type) (s : FileSystem) : FileSystem :=
  with_opened (<[id := 1%positive]> (opened s))
    (with_files (alter (link_entry name id type) dir
                   (<[id := fresh_object ctx type]> (files s))) s).

Definition extends (s s' : FileSystem) : Prop :=
  root_id s' = root_id s
  /\ forall i o, files s !! i = Some o ->
       exists o', files s' !! i = Some o'
         /\ payload_type (fb_payload o') = payload_type (fb_payload o)
         /\ faults s' !! i = faults s !! i
         /\ forall entries, fb_payload o = Directory entries ->
              exists entries', fb_payload o' = Directory entries' /\ entries ⊆ entries'.

Definition logged (ctx : fuse_context) (e : exception) (s : FileSystem) : FileSystem :=
  match e with
  | OSException _ => s
  | ExceptionBase type_name message n => snd (internal.log_error ctx type_name message n s)
  | std_exception what => snd (internal.log_general_error ctx what s)
  end.

Definition touch (f : FileBase -> FileBase) (t : id_type) (s : FileSystem) : FileSystem :=
  with_files (alter f t (files s)) s.

Definition keeps_nlink (f : FileBase -> FileBase) : Prop :=
  forall o, fb_nlink (f o) = fb_nlink o.

Definition keeps_payload (f : FileBase -> FileBase) : Prop :=
  forall o, fb_payload (f o) = fb_payload o.

Definition chmod_header (mode : Z) (o : FileBase) : FileBase :=
  {| fb_uid := fb_uid o; fb_gid := fb_gid o;
     fb_mode := Z.lor (Z.land mode 511) (Z.land (fb_mode o) S_IFMT);
     fb_nlink := fb_nlink o; fb_payload := fb_payload o |}.

Definition stat_of (o : FileBase) : stat :=
  {| st_mode := fb_mode o; st_nlink := fb_nlink o;
     st_uid := fb_uid o; st_gid := fb_gid o |}.

(** The files after a new object was linked into [dir] and its header
    set by [f]. *)
Definition linked (ctx : fuse_context) (dir : id_type) (name : string)
    (id : id_type) (type : file_type) (f : FileBase -> FileBase)
    (s : FileSystem) : FileSystem :=
  with_files (alter f id (alter (link_entry name id type) dir
                            (<[id := fresh_object ctx type]> (files s)))) s.

Definition stamp (ctx : fuse_context) (mode : Z) (o : FileBase) : FileBase :=
  {| fb_uid := ctx_uid ctx; fb_gid := ctx_gid ctx; fb_mode := mode;
     fb_nlink := 1; fb_payload := fb_payload o |}.

Definition create_mode (mode : Z) : Z := Z.lor (Z.land mode (uint32_not S_IFMT)) S_IFREG.

Definition symlink_header (ctx : fuse_context) (to : string) (o : FileBase) : FileBase :=
  {| fb_uid := ctx_uid ctx; fb_gid := ctx_gid ctx; fb_mode := Z.lor S_IFLNK 493;
     fb_nlink := 1; fb_payload := Symlink to |}.

Definition is_c_string (t : string) : Prop := ~ In NUL (list_ascii_of_string t).

Definition unlink_entry (name : string) (o : FileBase) : FileBase :=
  match fb_payload o with
  | Directory entries => set_payload (Directory (delete name entries)) o
  | _ => o
  end.

Definition mark_unlinked (o : FileBase) : FileBase :=
  {| fb_uid := fb_uid o; fb_gid := fb_gid o; fb_mode := fb_mode o;
     fb_nlink := 0; fb_payload := fb_payload o |}.

(** The state [internal::remove] leaves when it removed the entry
    [name -> id] of [dir]. *)
Definition removed (dir : id_type) (name : string) (id : id_type)
    (s : FileSystem) : FileSystem :=
  let x := touch mark_unlinked id (touch (unlink_entry name) dir s) in
  match opened s !! id with
  | None => with_files (delete id (files x)) x
  | Some _ => x
  end.

(** ** Sample states *)

Definition sample_context : fuse_context := {| ctx_uid := 1000; ctx_gid := 1000 |}.

Definition sample_object (mode : Z) (p : Payload) : FileBase :=
  {| fb_uid := 1000; fb_gid := 1000; fb_mode := mode; fb_nlink := 1; fb_payload := p |}.

Definition sample_root_entries : gmap string (id_type * file_type) :=
  {[ "a" := (2%N, DIRECTORY); "f" := (3%N, REGULAR_FILE) ]}.

Definition sample_a_entries : gmap string (id_type * file_type) :=
  {[ "b" := (4%N, DIRECTORY) ]}.

(** [/a/b] are directories, [/f] is a file holding "abc". *)
Definition sample_files : gmap id_type FileBase :=
  {[ 1%N := sample_object (Z.lor S_IFDIR 493) (Directory sample_root_entries);
     2%N := sample_object (Z.lor S_IFDIR 493) (Directory sample_a_entries);
     3%N := sample_object (Z.lor S_IFREG 420) (RegularFile (list_ascii_of_string "abc"));
     4%N := sample_object (Z.lor S_IFDIR 493) (Directory ∅) ]}.

Definition sample_mount (ro : bool) (fl : gmap id_type host_fault) : FileSystem :=
  {| files := sample_files; faults := fl; opened := ∅; readonly := ro;
     root_id := 1%N; stderr := [] |}.

Definition sample : FileSystem := sample_mount false ∅.
Definition sample_readonly : FileSystem := sample_mount true ∅.
Definition sample_io_fault : FileSystem := sample_mount false {[ 1%N := IO ]}.
Definition sample_unknown_fault : FileSystem :=
  sample_mount false {[ 1%N := UNKNOWN "std::bad_alloc" ]}.

Definition no_handle : fuse_file_info := {| flags := O_RDONLY; fh := None |}.

Definition no_stat : stat := {| st_mode := 0; st_nlink := 0; st_uid := 0; st_gid := 0 |}.

Definition link_buffer : list ascii := repeat "x"%char 8.

Definition after_open (s : FileSystem) (path : string) : FileSystem :=
  snd (internal.open_base_dir sample_context path s).

Definition after_create_as (s : FileSystem) (path : string) : FileSystem :=
  snd (internal.table_create_as sample_context 9%N REGULAR_FILE (after_open s path)).

Definition first_create :=
  operations.create sample_context "/x" 420 no_handle 7%N sample.

Definition after_chmod : FileSystem :=
  snd (operations.chmod sample_context "/f" 4032 sample).

Definition after_symlink : FileSystem :=
  snd (operations.symlink sample_context "target" "/s" 9%N sample).

(** ** The driver's calls *)

(** The calls the driver makes, and the filesystem each of them leaves. *)
Inductive request :=
| call_getattr (path : string)
| call_opendir (path : string) (info : fuse_file_info)
| call_releasedir (info : fuse_file_info)
| call_readdir {B : Type} (buffer : B) (filler : B -> string -> stat -> Z * B)
    (info : fuse_file_info)
| call_create (path : string) (mode : Z) (info : fuse_file_info) (random : id_type)
| call_open (path : string) (info : fuse_file_info)
| call_release (info : fuse_file_info)
| call_read (buffer : list ascii) (len off : Z) (info : fuse_file_info)
| call_write (buffer : list ascii) (len off : Z) (info : fuse_file_info)
| call_flush (info : fuse_file_info)
| call_truncate (path : string) (size : Z)
| call_ftruncate (size : Z) (info : fuse_file_info)
| call_unlink (path : string)
| call_mkdir (path : string) (mode : Z) (random : id_type)
| call_rmdir (path : string)
| call_chmod (path : string) (mode : Z)
| call_chown (path : string) (uid gid : Z)
| call_symlink (to from : string) (random : id_type)
| call_readlink (path : string) (buf : list ascii) (size : Z).

Definition serve (ctx : fuse_context) (r : request) (s : FileSystem) : FileSystem :=
  match r with
  | call_getattr path => snd (operations.getattr ctx path no_stat s)
  | call_opendir path info => snd (operations.opendir ctx path info s)
  | call_releasedir info => snd (operations.releasedir ctx info s)
  | call_readdir buffer filler info => snd (operations.readdir ctx buffer filler info s)
  | call_create path mode info random => snd (operations.create ctx path mode info random s)
  | call_open path info => snd (operations.open ctx path info s)
  | call_release info => snd (operations.release ctx info s)
  | call_read buffer len off info => snd (operations.read ctx buffer len off info s)
  | call_write buffer len off info => snd (operations.write ctx buffer len off info s)
  | call_flush info => snd (operations.flush ctx info s)
  | call_truncate path size => snd (operations.truncate ctx path size s)
  | call_ftruncate size info => snd (operations.ftruncate ctx size info s)
  | call_unlink path => snd (operations.unlink ctx path s)
  | call_mkdir path mode random => snd (operations.mkdir ctx path mode random s)
  | call_rmdir path => snd (operations.rmdir ctx path s)
  | call_chmod path mode => snd (operations.chmod ctx path mode s)
  | call_chown path uid gid => snd (operations.chown ctx path uid gid s)
  | call_symlink to from random => snd (operations.symlink ctx to from random s)
  | call_readlink path buf size => snd (operations.readlink ctx path buf size s)
  end.

Definition serve_all (ctx : fuse_context) (rs : list request) (s : FileSystem)
  : FileSystem :=
  foldl (fun s r => serve ctx r s) s rs.

(** A computation that keeps the filesystem settled. *)
Definition keeps {A} (m : M A) : Prop :=
  forall s, settled s -> settled (snd (m s)).

(** A header update that does not mark the object for deletion. *)
Definition keeps_linked (f : FileBase -> FileBase) : Prop :=
  forall o, fb_nlink (f o) = 0 -> fb_nlink o = 0.

(** Whether the flags of an open ask for write access, as [open] tests
    it. *)
Definition write_access (info : fuse_file_info) : bool :=
  negb (Z.land (flags info) O_WRONLY =? 0)
  || negb (Z.land (flags info) O_APPEND =? 0)
  || negb (Z.land (flags info) O_RDWR =? 0).

Definition chown_header (uid gid : Z) (o : FileBase) : FileBase :=
  {| fb_uid := uid; fb_gid := gid; fb_mode := fb_mode o;
     fb_nlink := fb_nlink o; fb_payload := fb_payload o |}.

Definition mkdir_mode (mode : Z) : Z := Z.lor (Z.land mode (uint32_not S_IFMT)) S_IFDIR.

(** Two fillers: one takes every entry, one reports after each entry
    that its buffer is full.  Both note the name and [st_mode] they were
    given. *)
Definition record_entry (b : list (string * Z)) (name : string) (st : stat)
  : Z * list (string * Z) :=
  (0, b ++ [(name, st_mode st)]).

Definition refuse_entry (b : list (string * Z)) (name : string) (st : stat)
  : Z * list (string * Z) :=
  (1, b ++ [(name, st_mode st)]).

(** Handles to the root directory and to [/f] of the sample mount. *)
Definition dir_handle : fuse_file_info := {| flags := O_RDONLY; fh := Some 1%N |}.
Definition file_handle : fuse_file_info := {| flags := O_RDWR; fh := Some 3%N |}.

#[global] Instance is_c_string_dec (t : string) : Decision (is_c_string t).
Proof.
  unfold is_c_string.
  destruct (In_dec ascii_dec NUL (list_ascii_of_string t)); [right|left]; tauto.
Defined.


(** ** Notions and samples for the platform code *)

(** A path [norm_path] takes as relative to the data directory: not
    empty, no leading separator, no drive letter. *)
Definition is_relative (path : string) : Prop :=
  match path with
  | EmptyString => False
  | String c rest =>
      c <> "/"%char /\ c <> "\"%char
      /\ match rest with
         | String c1 (String _ _) => c1 <> ":"%char
         | _ => True
         end
  end.

(** Conversions between narrow and wide strings for ASCII text. *)
Definition ascii_names (w : list Z) : string :=
  string_of_list_ascii (map (fun c => ascii_of_nat (Z.to_nat c)) w).

Definition ascii_units (p : string) : list Z :=
  Z.of_nat <$> (nat_of_ascii <$> list_ascii_of_string p).

(** A search that delivers [.], [..], a plain file [a], an archive file
    [b] and a read-only directory [c]. *)
Definition sample_listing : WindowsDirectoryTraverser :=
  {| m_data := {| dwFileAttributes := 16; cFileName := [46] |};
     m_handle := [ {| dwFileAttributes := 16; cFileName := [46; 46] |};
                   {| dwFileAttributes := 128; cFileName := [97] |};
                   {| dwFileAttributes := 32; cFileName := [98] |};
                   {| dwFileAttributes := 17; cFileName := [99] |} ];
     m_last_error := 18 |}.

Definition exhausted_listing : WindowsDirectoryTraverser :=
  {| m_data := {| dwFileAttributes := 16; cFileName := [46] |};
     m_handle := []; m_last_error := 18 |}.

Definition sample_information : platform.BY_HANDLE_FILE_INFORMATION :=
  {| platform.dwFileAttributes := 16;
     platform.ftCreationTime := {| dwLowDateTime := 0; dwHighDateTime := 30000000 |};
     platform.ftLastAccessTime := {| dwLowDateTime := 0; dwHighDateTime := 30000000 |};
     platform.ftLastWriteTime := {| dwLowDateTime := 0; dwHighDateTime := 30000000 |};
     platform.dwVolumeSerialNumber := 7;
     platform.nFileSizeHigh := 1;
     platform.nFileSizeLow := 5000;
     platform.nNumberOfLinks := 1;
     platform.nFileIndexHigh := 0;
     platform.nFileIndexLow := 42 |}.
(** ** Theory *)

Import internal.

Lemma wrap_ll_small z : - 2 ^ 63 <= z < 2 ^ 63 -> wrap_ll z = z.
Proof.
  intros H. unfold wrap_ll.
  rewrite Z.mod_small by lia. lia.
Qed.

Lemma dword_pair_join ll :
  0 <= ll < 2 ^ 63 ->
  Z.shiftl (DWORD (Z.shiftr ll 32)) 32 + DWORD ll = ll.
Proof.
  intros H. unfold DWORD.
  rewrite Z.shiftr_div_pow2, Z.shiftl_mul_pow2 by lia.
  assert (Hq : 0 <= ll / 2 ^ 32 < 2 ^ 31).
  { split; [apply Z.div_pos; lia|].
    apply Z.div_lt_upper_bound; lia. }
  rewrite (Z.mod_small (ll / 2 ^ 32)) by lia.
  pose proof (Z.div_mod ll (2 ^ 32) ltac:(lia)). lia.
Qed.

Lemma dword_pair_high_bound ll :
  0 <= ll < 2 ^ 63 -> 0 <= Z.shiftl (DWORD (Z.shiftr ll 32)) 32 < 2 ^ 63.
Proof.
  intros H. unfold DWORD.
  rewrite Z.shiftr_div_pow2, Z.shiftl_mul_pow2 by lia.
  assert (Hq : 0 <= ll / 2 ^ 32 < 2 ^ 31).
  { split; [apply Z.div_pos; lia|].
    apply Z.div_lt_upper_bound; lia. }
  rewrite (Z.mod_small (ll / 2 ^ 32)) by lia. lia.
Qed.

(** C10 (as amended). For every timespec with
    [0 <= tv_sec <= MAX_FILETIME_SEC], [0 <= tv_nsec < 10^9] and [tv_nsec]
    a multiple of 100, [unix_time_to_filetime] followed by
    [filetime_to_unix_time] gives the timespec back. *)
Theorem filetime_roundtrip (t : fuse_timespec) :
  0 <= tv_sec t <= MAX_FILETIME_SEC ->
  0 <= tv_nsec t < 1000000000 ->
  Z.rem (tv_nsec t) 100 = 0 ->
  filetime_to_unix_time (unix_time_to_filetime t) = t.
Proof.
  destruct t as [sec nsec]; cbn [tv_sec tv_nsec].
  unfold MAX_FILETIME_SEC. intros Hsec Hnsec Hrem.
  rewrite Z.rem_mod_nonneg in Hrem by lia.
  assert (Hq : 0 <= nsec / 100 < 10000000).
  { split; [apply Z.div_pos; lia|apply Z.div_lt_upper_bound; lia]. }
  assert (Hn : nsec = 100 * (nsec / 100)).
  { pose proof (Z.div_mod nsec 100 ltac:(lia)). lia. }
  unfold unix_time_to_filetime, filetime_to_unix_time, EPOCH_DIFF, FACTOR.
  cbn [tv_sec tv_nsec dwLowDateTime dwHighDateTime].
  rewrite (Z.quot_div_nonneg nsec 100) by lia.
  set (q := nsec / 100) in *.
  rewrite (wrap_ll_small (sec * 10000000)) by lia.
  rewrite (wrap_ll_small (sec * 10000000 + q)) by lia.
  rewrite (wrap_ll_small (sec * 10000000 + q + _)) by lia.
  set (ll := sec * 10000000 + q + 116444736000000000).
  assert (Hll : 0 <= ll < 2 ^ 63) by (unfold ll; lia).
  rewrite (wrap_ll_small (Z.shiftl _ 32))
    by (pose proof (dword_pair_high_bound ll Hll); lia).
  rewrite dword_pair_join by exact Hll.
  rewrite (wrap_ll_small ll) by lia.
  rewrite (wrap_ll_small (ll - _)) by lia.
  replace (ll - 116444736000000000) with (q + sec * 10000000) by (unfold ll; lia).
  rewrite Z.quot_div_nonneg, Z.rem_mod_nonneg by lia.
  rewrite Z.div_add, Z.mod_add by lia.
  rewrite Z.div_small, Z.mod_small by lia.
  rewrite wrap_ll_small by lia.
  f_equal; lia.
Qed.

Lemma filetime_roundtrip_witness :
  filetime_to_unix_time
    (unix_time_to_filetime {| tv_sec := 1500000000; tv_nsec := 123456700 |})
  = {| tv_sec := 1500000000; tv_nsec := 123456700 |}.
Proof.
  apply filetime_roundtrip; cbn [tv_sec tv_nsec]; unfold MAX_FILETIME_SEC;
    [lia | lia | reflexivity].
Defined.

(** C10 (as stated) fails: a second count past the FILETIME range wraps. *)
Lemma filetime_roundtrip_counterexample :
  let t := {| tv_sec := 2 ^ 40; tv_nsec := 0 |} in
  0 <= tv_sec t /\ 0 <= tv_nsec t < 1000000000 /\ Z.rem (tv_nsec t) 100 = 0 /\
  filetime_to_unix_time (unix_time_to_filetime t) <> t.
Proof.
  cbv zeta. cbn [tv_sec tv_nsec].
  split; [lia|]. split; [lia|]. split; [reflexivity|].
  vm_compute. discriminate.
Qed.

Lemma files_incref i s : files (incref i s) = files s.
Proof. reflexivity. Qed.

Lemma settled_settled_at s i : settled s -> settled_at s i.
Proof. intros [Hs _] o Hf Hn. exact (Hs i o Hf Hn). Qed.

Lemma settled_at_incref s i j : settled_at s i -> settled_at (incref j s) i.
Proof.
  intros Hs o Hf Hn. specialize (Hs o Hf Hn).
  unfold incref; cbn. destruct (decide (j = i)) as [->|Hne].
  - rewrite lookup_insert_eq. eauto.
  - by rewrite lookup_insert_ne.
Qed.

Lemma close_incref i s : settled_at s i -> close i (incref i s) = s.
Proof.
  intros Hs. unfold close, incref. destruct s as [f fl o ro r err]; cbn.
  rewrite lookup_insert_eq.
  destruct (o !! i) as [n|] eqn:Hi.
  - destruct (decide (Pos.succ n = 1%positive)) as [E|_]; [lia|].
    unfold with_opened; cbn. f_equal.
    rewrite insert_insert_eq, Pos.pred_succ. by apply insert_id.
  - destruct (decide (1%positive = 1%positive)) as [_|E]; [|done].
    assert (Ho : delete i (<[i:=1%positive]> o) = o).
    { rewrite delete_insert_eq. by apply delete_id. }
    destruct (f !! i) as [ob|] eqn:Hf.
    + destruct (decide (fb_nlink ob = 0)) as [E|_].
      * specialize (Hs ob Hf E). cbn in Hs. rewrite Hi in Hs. by destruct Hs.
      * unfold with_opened; cbn. by rewrite Ho.
    + unfold with_opened; cbn. by rewrite Ho.
Qed.

Lemma incref_comm i j s : incref i (incref j s) = incref j (incref i s).
Proof.
  destruct (decide (i = j)) as [->|Hne]; [done|].
  unfold incref, with_opened; destruct s as [f fl o ro r err]; cbn. f_equal.
  rewrite !lookup_insert_ne by done.
  by apply insert_insert_ne.
Qed.

Lemma close_incref_incref i j s :
  settled_at s i -> close i (incref j (incref i s)) = incref j s.
Proof.
  intros Hs. rewrite incref_comm. apply close_incref. by apply settled_at_incref.
Qed.

Lemma entry_of_frame s s' d n :
  files s = files s' -> faults s = faults s' -> entry_of s d n = entry_of s' d n.
Proof.
  intros Hf Hfl. unfold entry_of, Directory_get_entry, stream, deref.
  unfold mbind, M_bind, bind, ret. rewrite Hfl, Hf.
  destruct (faults s' !! d); [done|].
  destruct (files s' !! d) as [o|]; [|done]. cbn.
  by destruct (fb_payload o).
Qed.

Lemma Directory_get_entry_eq d n s :
  Directory_get_entry d n s = (entry_of s d n, s).
Proof.
  unfold entry_of, Directory_get_entry, stream, deref.
  unfold mbind, M_bind, bind, ret.
  destruct (faults s !! d); [done|].
  destruct (files s !! d) as [o|]; [|done]. cbn.
  by destruct (fb_payload o).
Qed.

Lemma openable_frame s s' i t :
  files s = files s' -> openable s i t = openable s' i t.
Proof.
  intros Hf. unfold openable, FileTable_open_as. rewrite Hf.
  destruct (files s' !! i) as [o|]; [|done]. by case_decide.
Qed.

Lemma openable_id s i t j : openable s i t = Return j -> j = i.
Proof.
  unfold openable, FileTable_open_as.
  destruct (files s !! i) as [o|]; [|done]. case_decide; cbn; congruence.
Qed.

Lemma FileTable_open_as_eq i t s :
  FileTable_open_as i t s =
  match openable s i t with
  | Return j => (Return j, incref j s)
  | Throw e => (Throw e, s)
  end.
Proof.
  unfold openable, FileTable_open_as.
  destruct (files s !! i) as [o|]; [|done]. by case_decide.
Qed.

Lemma walk_frame s s' cur cs :
  files s = files s' -> faults s = faults s' -> walk s cur cs = walk s' cur cs.
Proof.
  intros Hf Hfl. revert cur. induction cs as [|c rest IH]; intros cur; [done|].
  cbn. rewrite (entry_of_frame s s') by done.
  destruct (entry_of s' cur c) as [[[i t]|]|]; try done.
  case_decide; [done|]. rewrite (openable_frame s s') by done.
  destruct (openable s' i t); [apply IH|done].
Qed.

Lemma open_base_dir_loop_spec cs : forall cur s,
  (forall i, settled_at s i) ->
  open_base_dir_loop cur cs (incref cur s) =
  match walk s cur cs with
  | Return d => (Return d, incref d s)
  | Throw e => (Throw e, s)
  end.
Proof.
  induction cs as [|c rest IH]; intros cur s Hs; [done|].
  cbn [open_base_dir_loop walk].
  unfold mbind, M_bind, bind, on_throw, dir_get_entry.
  rewrite Directory_get_entry_eq.
  rewrite (entry_of_frame (incref cur s) s) by done.
  unfold FileGuard_dtor, FileGuard_reset, FileTable_close, modify; cbn [snd].
  destruct (entry_of s cur c) as [[[i t]|]|e].
  - case_decide.
    + unfold throw. by rewrite close_incref.
    + unfold table_open_as. rewrite FileTable_open_as_eq.
      rewrite (openable_frame (incref cur s) s) by done.
      destruct (openable s i t) as [j|e] eqn:Hop.
      * rewrite close_incref_incref by done. by apply IH.
      * by rewrite close_incref.
  - unfold throw. by rewrite close_incref.
  - by rewrite close_incref.
Qed.

Lemma open_base_dir_spec ctx path s :
  settled s ->
  open_base_dir ctx path s =
  match resolve_base s (split path "/") with
  | Return (d, l) => (Return (d, l), incref d s)
  | Throw e => (Throw e, s)
  end.
Proof.
  intros Hs. unfold open_base_dir, resolve_base.
  unfold mbind, M_bind, bind, gets, table_open_as.
  rewrite FileTable_open_as_eq.
  destruct (openable s (root_id s) DIRECTORY) as [r|e]; [|done].
  destruct (split path "/") as [|c cs]; [done|].
  rewrite open_base_dir_loop_spec by (intros i; by apply settled_settled_at).
  by destruct (walk s r (removelast (c :: cs))).
Qed.

Lemma open_all_spec ctx path s :
  settled s ->
  open_all ctx path s =
  match resolve_all s (split path "/") with
  | Return t => (Return t, incref t s)
  | Throw e => (Throw e, s)
  end.
Proof.
  intros Hs. unfold open_all, resolve_all.
  unfold mbind at 1. unfold M_bind, bind. rewrite open_base_dir_spec by done.
  destruct (resolve_base s (split path "/")) as [[d l]|e]; [|done].
  destruct (is_empty l); [done|].
  unfold mbind, M_bind, bind, on_throw, dir_get_entry.
  rewrite Directory_get_entry_eq.
  rewrite (entry_of_frame (incref d s) s) by done.
  unfold FileGuard_dtor, FileGuard_reset, FileTable_close, modify; cbn [snd].
  destruct (entry_of s d l) as [[[i t]|]|e].
  - unfold table_open_as. rewrite FileTable_open_as_eq.
    rewrite (openable_frame (incref d s) s) by done.
    destruct (openable s i t) as [j|e] eqn:Hop.
    + by rewrite close_incref_incref by (by apply settled_settled_at).
    + by rewrite close_incref by (by apply settled_settled_at).
  - unfold throw. by rewrite close_incref by (by apply settled_settled_at).
  - by rewrite close_incref by (by apply settled_settled_at).
Qed.

Lemma entry_of_entries s d entries name :
  entries_of s d = Some entries -> entry_of s d name = Return (entries !! name).
Proof.
  unfold entries_of, entry_of, Directory_get_entry, stream, deref.
  unfold mbind, M_bind, bind, ret.
  destruct (faults s !! d); [done|].
  destruct (files s !! d) as [o|]; [|done]. cbn.
  destruct (fb_payload o); intros [= ->]; done.
Qed.

Lemma openable_directory s i :
  is_directory s i -> openable s i DIRECTORY = Return i.
Proof.
  intros (o & Hf & Ht). unfold openable, FileTable_open_as. rewrite Hf.
  by rewrite decide_True.
Qed.

Lemma walk_descends s cur names d rest :
  descends s cur names d -> walk s cur (names ++ rest) = walk s d rest.
Proof.
  induction 1 as [|d name names child d' entries He Hn Hc _ IH]; [done|].
  cbn. rewrite (entry_of_entries _ _ _ _ He), Hn.
  rewrite decide_False by (by intros []).
  by rewrite openable_directory.
Qed.

Lemma walk_descends_all s cur names d :
  descends s cur names d -> walk s cur names = Return d.
Proof.
  intros Hd. rewrite <- (app_nil_r names). by rewrite (walk_descends _ _ _ _ [] Hd).
Qed.

Lemma removelast_snoc_cons {A} (l : list A) x y rest :
  removelast (l ++ x :: y :: rest) = l ++ x :: removelast (y :: rest).
Proof.
  rewrite removelast_app by done. done.
Qed.

Lemma drop_empty_head l seg more : drop_empty l = seg :: more -> is_empty seg = false.
Proof.
  induction l as [|x l IH]; cbn; [done|].
  destruct (is_empty x) eqn:E; [done|]. intros [= <- _]. done.
Qed.

Lemma split_last_nonempty path sep :
  split path sep <> [] -> is_empty (List.last (split path sep) EmptyString) = false.
Proof.
  unfold split.
  destruct (drop_empty (rev (drop_empty (segments sep path)))) as [|seg more] eqn:E; [done|].
  intros _. cbn [rev]. rewrite last_last. by eapply drop_empty_head.
Qed.

(** C5. Resolution of a path looks each component before the last up in
    the directory reached so far: a missing one fails with ENOENT, one
    whose recorded type is not DIRECTORY with ENOTDIR, and otherwise the
    walk goes on in the child; with no component at all the root itself
    is the result.  In either failure the filesystem is left as it was. *)
Theorem path_resolution (ctx : fuse_context) (s : FileSystem) (path : string) :
  settled s ->
  is_directory s (root_id s) ->
  let components := split path "/" in
  (components = [] ->
     open_base_dir ctx path s = (Return (root_id s, EmptyString), incref (root_id s) s)
     /\ open_all ctx path s = (Return (root_id s), incref (root_id s) s))
  /\ (forall names name rest d entries,
        components = names ++ name :: rest -> rest <> [] ->
        descends s (root_id s) names d ->
        entries_of s d = Some entries ->
        (entries !! name = None ->
           open_base_dir ctx path s = (Throw (OSException ENOENT), s)
           /\ open_all ctx path s = (Throw (OSException ENOENT), s))
        /\ (forall id type,
              entries !! name = Some (id, type) -> type <> DIRECTORY ->
              open_base_dir ctx path s = (Throw (OSException ENOTDIR), s)
              /\ open_all ctx path s = (Throw (OSException ENOTDIR), s)))
  /\ (forall names last_component d,
        components = names ++ [last_component] ->
        descends s (root_id s) names d ->
        open_base_dir ctx path s = (Return (d, last_component), incref d s)).
Proof.
  intros Hs Hroot components.
  pose proof (openable_directory _ _ Hroot) as Hopen.
  split; [|split].
  - intros Hc. subst components.
    rewrite open_all_spec, open_base_dir_spec by done.
    unfold resolve_all, resolve_base. by rewrite Hopen, Hc.
  - intros names name rest d entries Hc Hrest Hd He.
    destruct rest as [|y rest]; [done|].
    assert (Hne : components <> []) by (rewrite Hc; by destruct names).
    assert (Hrl : removelast components = names ++ name :: removelast (y :: rest))
      by (rewrite Hc; apply removelast_snoc_cons).
    split.
    + intros Hn.
      assert (Hb : resolve_base s components = Throw (OSException ENOENT)).
      { unfold resolve_base. rewrite Hopen, Hrl.
        destruct components; [done|].
        rewrite (walk_descends _ _ _ _ _ Hd). cbn.
        by rewrite (entry_of_entries _ _ _ _ He), Hn. }
      rewrite open_all_spec, open_base_dir_spec by done.
      unfold resolve_all. fold components. by rewrite Hb.
    + intros id type Hn Ht.
      assert (Hb : resolve_base s components = Throw (OSException ENOTDIR)).
      { unfold resolve_base. rewrite Hopen, Hrl.
        destruct components; [done|].
        rewrite (walk_descends _ _ _ _ _ Hd). cbn.
        rewrite (entry_of_entries _ _ _ _ He), Hn. by rewrite decide_True. }
      rewrite open_all_spec, open_base_dir_spec by done.
      unfold resolve_all. fold components. by rewrite Hb.
  - intros names l d Hc Hd.
    rewrite open_base_dir_spec by done. fold components.
    unfold resolve_base. rewrite Hopen, Hc.
    rewrite removelast_last, last_last, (walk_descends_all _ _ _ _ Hd).
    by destruct names.
Qed.

Lemma sample_mount_settled ro fl : settled (sample_mount ro fl).
Proof.
  split; (apply (bool_decide_unpack _); vm_compute; exact I).
Defined.

Lemma sample_root_is_directory : is_directory sample (root_id sample).
Proof. eexists. split; [vm_compute; reflexivity|reflexivity]. Defined.

Lemma sample_descends_a : descends sample 1%N ["a"%string] 2%N.
Proof.
  eapply (descends_into sample 1%N "a" [] 2%N 2%N sample_root_entries).
  - vm_compute. reflexivity.
  - vm_compute. reflexivity.
  - eexists. split; [vm_compute; reflexivity|reflexivity].
  - constructor.
Defined.

Lemma sample_descends_a_b : descends sample 1%N ["a"%string; "b"%string] 4%N.
Proof.
  eapply (descends_into sample 1%N "a" ["b"%string] 2%N 4%N sample_root_entries).
  - vm_compute. reflexivity.
  - vm_compute. reflexivity.
  - eexists. split; [vm_compute; reflexivity|reflexivity].
  - eapply (descends_into sample 2%N "b" [] 4%N 4%N sample_a_entries).
    + vm_compute. reflexivity.
    + vm_compute. reflexivity.
    + eexists. split; [vm_compute; reflexivity|reflexivity].
    + constructor.
Defined.

Lemma path_resolution_witness :
  open_all sample_context "/" sample = (Return 1%N, incref 1%N sample)
  /\ open_base_dir sample_context "/a/x/y" sample = (Throw (OSException ENOENT), sample)
  /\ open_all sample_context "/f/x" sample = (Throw (OSException ENOTDIR), sample)
  /\ open_base_dir sample_context "/a/b/c" sample
     = (Return (4%N, "c"%string), incref 4%N sample).
Proof.
  pose proof (path_resolution sample_context sample "/"
                (sample_mount_settled false ∅) sample_root_is_directory) as H0.
  pose proof (path_resolution sample_context sample "/a/x/y"
                (sample_mount_settled false ∅) sample_root_is_directory) as H1.
  pose proof (path_resolution sample_context sample "/f/x"
                (sample_mount_settled false ∅) sample_root_is_directory) as H2.
  pose proof (path_resolution sample_context sample "/a/b/c"
                (sample_mount_settled false ∅) sample_root_is_directory) as H3.
  cbv zeta in H0, H1, H2, H3.
  split; [|split; [|split]].
  - apply (proj1 H0). vm_compute. reflexivity.
  - refine (proj1 (proj1 (proj1 (proj2 H1) ["a"%string] "x"%string ["y"%string] 2%N
                             sample_a_entries _ _ sample_descends_a _) _)).
    + vm_compute. reflexivity.
    + discriminate.
    + vm_compute. reflexivity.
    + vm_compute. reflexivity.
  - refine (proj2 (proj2 (proj1 (proj2 H2) [] "f"%string ["x"%string] 1%N
                             sample_root_entries _ _ (descends_here sample 1%N) _)
                     3%N REGULAR_FILE _ _)).
    + vm_compute. reflexivity.
    + discriminate.
    + vm_compute. reflexivity.
    + vm_compute. reflexivity.
    + discriminate.
  - refine (proj2 (proj2 H3) ["a"%string; "b"%string] "c"%string 4%N _ sample_descends_a_b).
    vm_compute. reflexivity.
Defined.

(** Primitive steps *)

Lemma entry_of_cases s d n :
  match entry_of s d n with
  | Return r => exists entries, entries_of s d = Some entries /\ r = entries !! n
  | Throw e => entries_of s d = None
  end.
Proof.
  unfold entries_of, entry_of, Directory_get_entry, stream, deref.
  unfold mbind, M_bind, bind, ret.
  destruct (faults s !! d); [done|].
  destruct (files s !! d) as [o|]; [|done]. cbn.
  destruct (fb_payload o); cbn; eauto.
Qed.

Lemma entries_of_files s d entries :
  entries_of s d = Some entries ->
  exists o, files s !! d = Some o /\ fb_payload o = Directory entries
            /\ faults s !! d = None.
Proof.
  unfold entries_of. destruct (faults s !! d); [done|].
  destruct (files s !! d) as [o|]; [|done].
  destruct (fb_payload o) eqn:E; intros [= ->]; eauto.
Qed.

Lemma Directory_add_entry_eq d n i t s :
  Directory_add_entry d n i t s =
  match entry_of s d n with
  | Throw e => (Throw e, s)
  | Return (Some _) => (Return false, s)
  | Return None =>
      (Return true, with_files (alter (link_entry n i t) d (files s)) s)
  end.
Proof.
  unfold entry_of, Directory_get_entry, Directory_add_entry, stream, deref.
  unfold mbind, M_bind, bind, ret.
  destruct (faults s !! d); [done|].
  destruct (files s !! d) as [o|] eqn:Hf; [|done]. cbn.
  destruct (fb_payload o) eqn:Hp; cbn; try done.
  destruct (entries !! n); [done|].
  unfold put_stream, update, modify. do 2 f_equal.
  apply alter_ext. intros o' Ho'. rewrite Hf in Ho'. injection Ho' as <-.
  unfold link_entry. by rewrite Hp.
Qed.

Lemma dir_add_entry_eq d n i t s :
  dir_add_entry d n i t s = Directory_add_entry d n i t s.
Proof.
  unfold dir_add_entry, mbind, M_bind, bind, FileBase_flush, mret, M_ret, ret.
  by destruct (Directory_add_entry d n i t s) as [[b|e] s'].
Qed.

Lemma resolve_base_file s cs d l :
  resolve_base s cs = Return (d, l) -> is_Some (files s !! d).
Proof.
  unfold resolve_base.
  destruct (openable s (root_id s) DIRECTORY) as [r|] eqn:Hr; [|done].
  assert (Hwalk : forall cs cur d, is_Some (files s !! cur) ->
                                   walk s cur cs = Return d -> is_Some (files s !! d)).
  { clear. induction cs as [|c cs IH]; intros cur d Hcur; cbn.
    - by intros [= <-].
    - destruct (entry_of s cur c) as [[[i t]|]|]; try done.
      case_decide; [done|].
      destruct (openable s i t) as [j|] eqn:Hop; [|done].
      apply IH. unfold openable, FileTable_open_as in Hop.
      destruct (files s !! i) eqn:Hi; [|done].
      case_decide; [|done]. cbn in Hop. injection Hop as <-. by rewrite Hi. }
  assert (Hroot : is_Some (files s !! r)).
  { unfold openable, FileTable_open_as in Hr.
    destruct (files s !! root_id s) eqn:Hi; [|done].
    case_decide; [|done]. cbn in Hr. injection Hr as <-. by rewrite Hi. }
  destruct cs as [|c cs].
  - by intros [= <- _].
  - destruct (walk s r (removelast (c :: cs))) eqn:Hw; [|done].
    intros [= <- _]. by eapply Hwalk.
Qed.

Lemma entry_of_local s s' d n :
  files s !! d = files s' !! d -> faults s !! d = faults s' !! d ->
  entry_of s d n = entry_of s' d n.
Proof.
  intros Hf Hfl. unfold entry_of, Directory_get_entry, stream, deref.
  unfold mbind, M_bind, bind, ret. rewrite Hfl, Hf.
  destruct (faults s' !! d); [done|].
  destruct (files s' !! d) as [o|]; [|done]. cbn.
  by destruct (fb_payload o).
Qed.

Lemma add_incref dir id o s :
  dir <> id ->
  with_opened (<[id := 1%positive]> (opened (incref dir s)))
    (with_files (<[id := o]> (files (incref dir s))) (incref dir s))
  = incref dir (with_opened (<[id := 1%positive]> (opened s))
                  (with_files (<[id := o]> (files s)) s)).
Proof.
  intros Hne. unfold incref, with_opened, with_files; cbn. f_equal.
  rewrite lookup_insert_ne by done. by apply insert_insert_ne.
Qed.

Lemma close_created i o s :
  files s !! i = None -> opened s !! i = None -> fb_nlink o = 0 ->
  close i (with_opened (<[i := 1%positive]> (opened s))
             (with_files (<[i := o]> (files s)) s)) = s.
Proof.
  intros Hf Ho Hn. unfold close; cbn. rewrite !lookup_insert_eq.
  rewrite decide_True by done. rewrite decide_True by done.
  destruct s; unfold with_files, with_opened; cbn in *. f_equal.
  - rewrite delete_insert_eq. by apply delete_id.
  - rewrite delete_insert_eq. by apply delete_id.
Qed.

Lemma settled_fresh s i : settled s -> files s !! i = None -> opened s !! i = None.
Proof.
  intros [_ Hs] Hf. destruct (opened s !! i) as [n|] eqn:Ho; [|done].
  specialize (Hs i n Ho). cbn in Hs. rewrite Hf in Hs. by destruct Hs.
Qed.

Lemma create_spec ctx path type id s :
  settled s ->
  internal.create ctx path type id s =
  match resolve_base s (split path "/") with
  | Throw e => (Throw e, s)
  | Return (dir, last_component) =>
      match files s !! id with
      | Some _ => (Throw (OSException EEXIST), s)
      | None =>
          match entry_of s dir last_component with
          | Throw e => (Throw e, s)
          | Return (Some _) => (Throw (OSException EEXIST), s)
          | Return None => (Return id, created ctx dir last_component id type s)
          end
      end
  end.
Proof.
  intros Hs. unfold internal.create, create_calling.
  unfold mbind at 1. unfold M_bind, bind. rewrite open_base_dir_spec by done.
  destruct (resolve_base s (split path "/")) as [[dir l]|e] eqn:Hr; [|done].
  pose proof (resolve_base_file _ _ _ _ Hr) as [od Hod].
  unfold finally, FileGuard_dtor, FileGuard_reset, FileTable_close, modify.
  unfold mbind at 1. unfold M_bind, bind, table_create_as, FileTable_create_as.
  cbn [files incref with_opened].
  destruct (files s !! id) as [o|] eqn:Hid.
  { cbn. by rewrite close_incref by (by apply settled_settled_at). }
  assert (Hne : dir <> id) by congruence.
  fold (fresh_object ctx type).
  change (files s) with (files (incref dir s)) at 1.
  rewrite add_incref by done.
  set (s2 := with_opened _ (with_files _ s)).
  unfold on_throw, try_catch. unfold mbind at 1. unfold M_bind, bind.
  rewrite dir_add_entry_eq, Directory_add_entry_eq.
  assert (He : entry_of (incref dir s2) dir l = entry_of s dir l).
  { apply entry_of_local; [|done]. unfold s2; cbn.
    by rewrite lookup_insert_ne by done. }
  rewrite He.
  assert (Hback : close dir (close id (snd (FileBase_unlink id (incref dir s2)))) = s).
  { unfold FileBase_unlink, FileBase_set_nlink, update, modify; cbn [snd].
    change (with_files ?f (incref dir s2)) with (incref dir (with_files f s2)).
    assert (Hc : close id (incref dir (with_files
                   (alter (fun o => {| fb_uid := fb_uid o; fb_gid := fb_gid o;
                                       fb_mode := fb_mode o; fb_nlink := 0;
                                       fb_payload := fb_payload o |}) id (files s2)) s2))
                 = incref dir s).
    { unfold s2; cbn [files with_files with_opened].
      rewrite alter_insert_eq.
      change (with_files ?f (with_opened ?o (with_files _ s)))
        with (with_opened o (with_files f s)).
      rewrite <- add_incref by done.
      apply close_created; cbn; [done| |done].
      rewrite lookup_insert_ne by done. by apply settled_fresh. }
    rewrite files_incref, Hc. apply close_incref. by apply settled_settled_at. }
  destruct (entry_of s dir l) as [[e|]|e].
  - cbn [negb]. unfold mbind, M_bind, bind, throw.
    destruct (FileBase_unlink id (incref dir s2)) as [[[]|?] s3] eqn:Hu;
      cbn [snd] in Hback |- *; [by rewrite Hback|].
    by unfold FileBase_unlink, FileBase_set_nlink, update, modify in Hu.
  - cbn [negb mret M_ret ret].
    change (with_files ?f (incref dir s2)) with (incref dir (with_files f s2)).
    rewrite close_incref; [done|].
    intros o Ho Hn. unfold s2 in *; cbn in *.
    rewrite lookup_insert_ne by done.
    rewrite lookup_alter_eq, lookup_insert_ne, Hod in Ho by done. cbn in Ho.
    injection Ho as <-.
    apply (settled_settled_at s dir Hs od Hod).
    revert Hn. unfold link_entry. by destruct (fb_payload od).
  - unfold mbind, M_bind, bind, throw.
    destruct (FileBase_unlink id (incref dir s2)) as [[[]|?] s3] eqn:Hu;
      cbn [snd] in Hback |- *; [by rewrite Hback|].
    by unfold FileBase_unlink, FileBase_set_nlink, update, modify in Hu.
Qed.

(** Resolution only grows when objects and entries are added. *)

Lemma entry_of_extends s s' d n e :
  extends s s' -> entry_of s d n = Return (Some e) -> entry_of s' d n = Return (Some e).
Proof.
  intros [_ Hext] He.
  pose proof (entry_of_cases s d n) as Hc. rewrite He in Hc.
  destruct Hc as (entries & Hen & Hl).
  destruct (entries_of_files _ _ _ Hen) as (o & Hf & Hp & Hfl).
  destruct (Hext d o Hf) as (o' & Hf' & _ & Hfl' & Hd).
  destruct (Hd entries Hp) as (entries' & Hp' & Hsub).
  rewrite (entry_of_entries s' d entries').
  - f_equal. symmetry in Hl. by eapply lookup_weaken.
  - unfold entries_of. by rewrite Hfl', Hfl, Hf', Hp'.
Qed.

Lemma openable_extends s s' i t j :
  extends s s' -> openable s i t = Return j -> openable s' i t = Return j.
Proof.
  intros [_ Hext]. unfold openable, FileTable_open_as.
  destruct (files s !! i) as [o|] eqn:Hf; [|done].
  destruct (Hext i o Hf) as (o' & -> & Ht & _). rewrite Ht.
  by case_decide.
Qed.

Lemma walk_extends s s' cs : forall cur d,
  extends s s' -> walk s cur cs = Return d -> walk s' cur cs = Return d.
Proof.
  induction cs as [|c cs IH]; intros cur d Hext; [done|]. cbn.
  destruct (entry_of s cur c) as [[[i t]|]|] eqn:He; try done.
  rewrite (entry_of_extends _ _ _ _ _ Hext He).
  case_decide; [done|].
  destruct (openable s i t) as [j|] eqn:Hop; [|done].
  rewrite (openable_extends _ _ _ _ _ Hext Hop). by apply IH.
Qed.

Lemma resolve_base_extends s s' cs r :
  extends s s' -> resolve_base s cs = Return r -> resolve_base s' cs = Return r.
Proof.
  intros Hext. unfold resolve_base. rewrite (proj1 Hext).
  destruct (openable s (root_id s) DIRECTORY) as [j|] eqn:Hop; [|done].
  rewrite (openable_extends _ _ _ _ _ Hext Hop).
  destruct cs as [|c cs]; [done|].
  destruct (walk s j (removelast (c :: cs))) as [d|] eqn:Hw; [|done].
  by rewrite (walk_extends _ _ _ _ _ Hext Hw).
Qed.

Lemma resolve_all_extends s s' cs t :
  extends s s' -> resolve_all s cs = Return t -> resolve_all s' cs = Return t.
Proof.
  intros Hext. unfold resolve_all.
  destruct (resolve_base s cs) as [[d l]|] eqn:Hb; [|done].
  rewrite (resolve_base_extends _ _ _ _ Hext Hb).
  destruct (is_empty l); [done|].
  destruct (entry_of s d l) as [[[i ty]|]|] eqn:He; try done.
  rewrite (entry_of_extends _ _ _ _ _ Hext He).
  by apply openable_extends.
Qed.

(** Every exception of the model turns into a non-zero int. *)

Lemma error_code_fault f : error_code (exception_of_fault f) <> 0.
Proof. by destruct f. Qed.

Lemma entry_of_throw s d n e : entry_of s d n = Throw e -> error_code e <> 0.
Proof.
  unfold entry_of, Directory_get_entry, stream, deref.
  unfold mbind, M_bind, bind, ret.
  destruct (faults s !! d) as [f|].
  { cbn. intros [= <-]. apply error_code_fault. }
  destruct (files s !! d) as [o|]; [|by intros [= <-]]. cbn.
  destruct (fb_payload o); cbn; by intros [= <-].
Qed.

Lemma openable_throw s i t e : openable s i t = Throw e -> error_code e <> 0.
Proof.
  unfold openable, FileTable_open_as.
  destruct (files s !! i); [|by intros [= <-]].
  case_decide; [done|by intros [= <-]].
Qed.

Lemma walk_throw s cs : forall cur e, walk s cur cs = Throw e -> error_code e <> 0.
Proof.
  induction cs as [|c cs IH]; intros cur e; [done|]. cbn.
  destruct (entry_of s cur c) as [[[i t]|]|] eqn:He.
  - case_decide; [by intros [= <-]|].
    destruct (openable s i t) eqn:Hop; [apply IH|].
    intros [= <-]. by eapply openable_throw.
  - by intros [= <-].
  - intros [= <-]. by eapply entry_of_throw.
Qed.

Lemma resolve_base_throw s cs e : resolve_base s cs = Throw e -> error_code e <> 0.
Proof.
  unfold resolve_base.
  destruct (openable s (root_id s) DIRECTORY) as [j|] eqn:Hop.
  - destruct cs as [|c cs]; [done|].
    destruct (walk s j (removelast (c :: cs))) eqn:Hw; [done|].
    intros [= <-]. by eapply walk_throw.
  - intros [= <-]. by eapply openable_throw.
Qed.

Lemma resolve_all_throw s cs e : resolve_all s cs = Throw e -> error_code e <> 0.
Proof.
  unfold resolve_all.
  destruct (resolve_base s cs) as [[d l]|] eqn:Hb.
  - destruct (is_empty l); [done|].
    destruct (entry_of s d l) as [[[i t]|]|] eqn:He.
    + apply openable_throw.
    + by intros [= <-].
    + intros [= <-]. by eapply entry_of_throw.
  - intros [= <-]. by eapply resolve_base_throw.
Qed.

(** The operation boundary *)

Lemma COMMON_CATCH_BLOCK_eq {O} ctx (out : O) body s :
  operations.COMMON_CATCH_BLOCK ctx out body s =
  match body s with
  | (Return r, s') => (r, s')
  | (Throw e, s') => ((error_code e, out), logged ctx e s')
  end.
Proof.
  unfold operations.COMMON_CATCH_BLOCK.
  destruct (body s) as [[r|[n|tn m n|w]] s']; done.
Qed.

(** Header updates *)

Lemma settled_at_touch f t s i :
  keeps_nlink f -> settled_at s i -> settled_at (touch f t s) i.
Proof.
  intros Hf Hs o Ho Hn. unfold touch in *; cbn in *.
  destruct (decide (t = i)) as [->|Hne].
  - rewrite lookup_alter_eq in Ho.
    destruct (files s !! i) as [o0|] eqn:E; [|done]. cbn in Ho. injection Ho as <-.
    apply (Hs o0 E). by rewrite <- Hf.
  - rewrite lookup_alter_ne in Ho by done. exact (Hs o Ho Hn).
Qed.

Lemma close_touch_incref f t s :
  keeps_nlink f -> settled_at s t ->
  close t (touch f t (incref t s)) = touch f t s.
Proof.
  intros Hf Hs.
  change (touch f t (incref t s)) with (incref t (touch f t s)).
  apply close_incref. by apply settled_at_touch.
Qed.

Lemma settled_touch f t s : keeps_nlink f -> settled s -> settled (touch f t s).
Proof.
  intros Hf [H1 H2]. split.
  - intros i o Ho Hn. by apply (settled_at_touch f t s i Hf (fun o Ho Hn => H1 i o Ho Hn) o Ho Hn).
  - intros i n Hi. specialize (H2 i n Hi). cbn in *.
    destruct (decide (t = i)) as [->|Hne].
    + rewrite lookup_alter_eq. destruct H2 as [o ->]. by eexists.
    + by rewrite lookup_alter_ne.
Qed.

Lemma extends_touch f t s : keeps_payload f -> extends s (touch f t s).
Proof.
  intros Hf. split; [done|]. intros i o Ho. cbn.
  destruct (decide (t = i)) as [->|Hne].
  - exists (f o). rewrite lookup_alter_eq, Ho, Hf. repeat split; [done..|].
    intros entries ->. by exists entries.
  - exists o. rewrite lookup_alter_ne by done. repeat split; [done..|].
    intros entries ->. by exists entries.
Qed.

Lemma openable_file s i t j :
  openable s i t = Return j ->
  j = i /\ exists o, files s !! i = Some o /\ payload_type (fb_payload o) = t.
Proof.
  unfold openable, FileTable_open_as.
  destruct (files s !! i) as [o|]; [|done]. case_decide; [|done].
  intros [= <-]. eauto.
Qed.

Lemma walk_file s cs : forall cur d,
  is_Some (files s !! cur) -> walk s cur cs = Return d -> is_Some (files s !! d).
Proof.
  induction cs as [|c cs IH]; intros cur d Hcur; cbn.
  - by intros [= <-].
  - destruct (entry_of s cur c) as [[[i t]|]|]; try done.
    case_decide; [done|].
    destruct (openable s i t) as [j|] eqn:Hop; [|done].
    apply IH. apply openable_file in Hop as (-> & o & -> & _). by eexists.
Qed.

Lemma resolve_all_file s cs t :
  resolve_all s cs = Return t -> is_Some (files s !! t).
Proof.
  unfold resolve_all.
  destruct (resolve_base s cs) as [[d l]|] eqn:Hb; [|done].
  destruct (is_empty l).
  - intros [= <-]. by eapply resolve_base_file.
  - destruct (entry_of s d l) as [[[i ty]|]|]; try done.
    intros Hop. apply openable_file in Hop as (-> & o & -> & _). by eexists.
Qed.

Lemma chmod_spec ctx path mode s :
  settled s ->
  operations.chmod ctx path mode s =
  match resolve_all s (split path "/") with
  | Throw e => ((error_code e, tt), logged ctx e s)
  | Return t => ((0, tt), touch (chmod_header mode) t s)
  end.
Proof.
  intros Hs. unfold operations.chmod. rewrite COMMON_CATCH_BLOCK_eq.
  unfold mbind at 1. unfold M_bind, bind. rewrite open_all_spec by done.
  destruct (resolve_all s (split path "/")) as [t|e] eqn:Hr; [|done].
  destruct (resolve_all_file _ _ _ Hr) as [o Ho].
  unfold finally, FileGuard_dtor, FileGuard_reset, FileTable_close, modify.
  unfold FileBase_get_mode, deref, FileBase_set_mode, update, FileBase_flush.
  unfold mbind, M_bind, bind, modify, mret, M_ret, ret.
  cbn [files incref with_opened]. rewrite Ho. cbn [snd]. f_equal.
  rewrite <- (close_touch_incref (chmod_header mode) t s);
    [|done|by apply settled_settled_at].
  f_equal. unfold touch. f_equal. apply alter_ext. intros o' Ho'. cbn in Ho'.
  rewrite Ho in Ho'. by injection Ho' as <-.
Qed.

Lemma getattr_spec ctx path st s :
  settled s ->
  operations.getattr ctx path st s =
  match resolve_all s (split path "/") with
  | Throw e => ((error_code e, st), logged ctx e s)
  | Return t =>
      match files s !! t with
      | Some o => ((0, stat_of o), s)
      | None => ((- EPERM, st), s)
      end
  end.
Proof.
  intros Hs. unfold operations.getattr. rewrite COMMON_CATCH_BLOCK_eq.
  unfold mbind at 1. unfold M_bind, bind. rewrite open_all_spec by done.
  destruct (resolve_all s (split path "/")) as [t|e] eqn:Hr; [|done].
  destruct (resolve_all_file _ _ _ Hr) as [o Ho]. rewrite Ho.
  unfold finally, FileGuard_dtor, FileGuard_reset, FileTable_close, modify.
  unfold FileBase_stat, deref, FileBase_flush.
  unfold mbind, M_bind, bind, mret, M_ret, ret.
  cbn [files incref with_opened]. rewrite Ho. cbn [snd].
  rewrite close_incref by (by apply settled_settled_at). done.
Qed.

Lemma land_chmod_perm mode original :
  Z.land (Z.lor (Z.land mode 511) (Z.land original S_IFMT)) 511 = Z.land mode 511.
Proof.
  rewrite Z.land_lor_distr_l, <- !Z.land_assoc.
  change (Z.land S_IFMT 511) with 0. change (Z.land 511 511) with 511.
  by rewrite Z.land_0_r, Z.lor_0_r.
Qed.

Lemma land_chmod_type mode original :
  Z.land (Z.lor (Z.land mode 511) (Z.land original S_IFMT)) S_IFMT
  = Z.land original S_IFMT.
Proof.
  rewrite Z.land_lor_distr_l, <- !Z.land_assoc.
  change (Z.land 511 S_IFMT) with 0. change (Z.land S_IFMT S_IFMT) with S_IFMT.
  by rewrite Z.land_0_r, Z.lor_0_l.
Qed.

(** C6. After a chmod of [path] that returned 0, getattr of [path]
    succeeds and reports a mode whose permission bits are [mode & 0777]
    and whose file-type bits are those the object had before. *)
Theorem chmod_then_stat (ctx : fuse_context) (s s1 : FileSystem)
    (path : string) (mode : Z) (st : stat) :
  settled s ->
  operations.chmod ctx path mode s = ((0, tt), s1) ->
  exists t o st1,
    resolve_all s (split path "/") = Return t
    /\ files s !! t = Some o
    /\ operations.getattr ctx path st s1 = ((0, st1), s1)
    /\ Z.land (st_mode st1) 511 = Z.land mode 511
    /\ Z.land (st_mode st1) S_IFMT = Z.land (fb_mode o) S_IFMT.
Proof.
  intros Hs. rewrite chmod_spec by done.
  destruct (resolve_all s (split path "/")) as [t|e] eqn:Hr.
  2: { intros [= Hc _]. by apply resolve_all_throw in Hr. }
  intros [= <-].
  destruct (resolve_all_file _ _ _ Hr) as [o Ho].
  exists t, o, (stat_of (chmod_header mode o)).
  split; [done|]. split; [done|].
  assert (Hk : keeps_nlink (chmod_header mode)) by done.
  assert (Hp : keeps_payload (chmod_header mode)) by done.
  rewrite getattr_spec by (by apply settled_touch).
  rewrite (resolve_all_extends _ _ _ _ (extends_touch _ t s Hp) Hr).
  cbn [touch files with_files]. rewrite lookup_alter_eq, Ho. cbn.
  split; [done|]. split; [apply land_chmod_perm|apply land_chmod_type].
Qed.

Lemma chmod_then_stat_witness :
  exists st1,
    operations.getattr sample_context "/f" no_stat after_chmod = ((0, st1), after_chmod)
    /\ Z.land (st_mode st1) 511 = 448
    /\ Z.land (st_mode st1) S_IFMT = S_IFREG.
Proof.
  assert (Hchmod : operations.chmod sample_context "/f" 4032 sample = ((0, tt), after_chmod))
    by (vm_compute; reflexivity).
  destruct (chmod_then_stat sample_context sample after_chmod "/f" 4032 no_stat
              (sample_mount_settled false ∅) Hchmod)
    as (t & o & st1 & Hr & Ho & Hget & Hperm & Htype).
  exists st1. split; [exact Hget|]. split; [exact Hperm|].
  rewrite Htype.
  assert (Ht : t = 3%N).
  { assert (E : resolve_all sample (split "/f" "/") = Return 3%N) by (vm_compute; reflexivity).
    rewrite E in Hr. by injection Hr as ->. }
  subst t.
  assert (E : files sample !! 3%N
              = Some (sample_object (Z.lor S_IFREG 420)
                        (RegularFile (list_ascii_of_string "abc"))))
    by (vm_compute; reflexivity).
  pose proof (eq_trans (eq_sym Ho) E) as Hobj. injection Hobj as ->. reflexivity.
Defined.

Lemma created_linked ctx dir name id type s :
  created ctx dir name id type s
  = with_opened (<[id := 1%positive]> (opened s)) (linked ctx dir name id type (fun o => o) s).
Proof.
  unfold created, linked. do 2 f_equal.
  symmetry. apply alter_id. done.
Qed.

Section Linked.
Context (ctx : fuse_context) (dir : id_type) (name : string) (id : id_type)
        (type : file_type) (f : FileBase -> FileBase) (s : FileSystem).
Context (od : FileBase) (entries : gmap string (id_type * file_type)).
Hypothesis Hid : files s !! id = None.
Hypothesis Hdir : files s !! dir = Some od.
Hypothesis Hod : fb_payload od = Directory entries.
Hypothesis Hname : entries !! name = None.

Let s' := linked ctx dir name id type f s.

Lemma linked_ne : dir <> id.
Proof using Hid Hdir. congruence. Qed.

Lemma linked_lookup_id : files s' !! id = Some (f (fresh_object ctx type)).
Proof using Hid Hdir.
  unfold s', linked; cbn. rewrite lookup_alter_eq, lookup_alter_ne by apply linked_ne.
  by rewrite lookup_insert_eq.
Qed.

Lemma linked_lookup_dir :
  files s' !! dir = Some (set_payload (Directory (<[name := (id, type)]> entries)) od).
Proof using Hid Hdir Hod.
  pose proof linked_ne as Hne.
  unfold s', linked; cbn. rewrite lookup_alter_ne, lookup_alter_eq by done.
  rewrite lookup_insert_ne, Hdir by done. cbn. unfold link_entry. by rewrite Hod.
Qed.

Lemma linked_lookup_other i : i <> id -> i <> dir -> files s' !! i = files s !! i.
Proof using Type.
  intros H1 H2. unfold s', linked; cbn.
  by rewrite !lookup_alter_ne, lookup_insert_ne by done.
Qed.

Lemma extends_linked : extends s s'.
Proof using Hid Hdir Hod Hname.
  split; [done|]. intros i o Ho.
  destruct (decide (i = id)) as [->|Hne1]; [congruence|].
  destruct (decide (i = dir)) as [->|Hne2].
  - rewrite Hdir in Ho. injection Ho as <-.
    eexists. split; [apply linked_lookup_dir|]. cbn. rewrite Hod.
    repeat split; [done..|]. intros es [= <-].
    eexists. split; [done|]. by apply insert_subseteq.
  - exists o. rewrite linked_lookup_other by done.
    repeat split; [done..|]. intros es ->. by exists es.
Qed.

Lemma entries_of_linked :
  faults s !! dir = None ->
  entries_of s' dir = Some (<[name := (id, type)]> entries).
Proof using Hid Hdir Hod.
  intros Hfl. unfold entries_of. change (faults s') with (faults s).
  by rewrite Hfl, linked_lookup_dir.
Qed.

Lemma settled_linked_live o :
  settled s -> settled (with_opened (<[id := o]> (opened s)) s').
Proof using Hid Hdir Hod.
  intros [H1 H2]. split.
  - intros i ob Hi Hn.
    change (files s' !! i = Some ob) in Hi.
    change (is_Some (<[id := o]> (opened s) !! i)).
    destruct (decide (i = id)) as [->|Hne1]; [by rewrite lookup_insert_eq|].
    rewrite lookup_insert_ne by done.
    destruct (decide (i = dir)) as [->|Hne2].
    + rewrite linked_lookup_dir in Hi. injection Hi as <-.
      by apply (H1 dir od).
    + rewrite linked_lookup_other in Hi by done. by apply (H1 i ob).
  - intros i n Hi.
    change (<[id := o]> (opened s) !! i = Some n) in Hi.
    change (is_Some (files s' !! i)).
    destruct (decide (i = id)) as [->|Hne1]; [by rewrite linked_lookup_id|].
    rewrite lookup_insert_ne in Hi by done. specialize (H2 i n Hi). cbn in H2.
    destruct (decide (i = dir)) as [->|Hne2]; [by rewrite linked_lookup_dir|].
    by rewrite linked_lookup_other.
Qed.

Lemma settled_linked :
  settled s -> fb_nlink (f (fresh_object ctx type)) <> 0 -> settled s'.
Proof using Hid Hdir Hod.
  intros [H1 H2] Hn. split.
  - intros i ob Hi Hz. change (is_Some (opened s !! i)).
    destruct (decide (i = id)) as [->|Hne1].
    { rewrite linked_lookup_id in Hi. by injection Hi as <-. }
    destruct (decide (i = dir)) as [->|Hne2].
    + rewrite linked_lookup_dir in Hi. injection Hi as <-. by apply (H1 dir od).
    + rewrite linked_lookup_other in Hi by done. by apply (H1 i ob).
  - intros i n Hi. change (opened s !! i = Some n) in Hi.
    specialize (H2 i n Hi). cbn in H2. change (is_Some (files s' !! i)).
    destruct (decide (i = id)) as [->|Hne1]; [by rewrite linked_lookup_id|].
    destruct (decide (i = dir)) as [->|Hne2]; [by rewrite linked_lookup_dir|].
    by rewrite linked_lookup_other.
Qed.
End Linked.

Lemma extends_with_opened s s' o : extends s s' -> extends s (with_opened o s').
Proof. done. Qed.

Lemma settled_with_stderr s l : settled s -> settled (with_stderr l s).
Proof. done. Qed.

Lemma create_op_spec ctx path mode info id s :
  settled s -> readonly s = false ->
  operations.create ctx path mode info id s =
  match resolve_base s (split path "/") with
  | Throw e => ((error_code e, info), logged ctx e s)
  | Return (dir, last_component) =>
      match files s !! id with
      | Some _ => ((- EEXIST, info), s)
      | None =>
          match entry_of s dir last_component with
          | Throw e => ((error_code e, info), logged ctx e s)
          | Return (Some _) => ((- EEXIST, info), s)
          | Return None =>
              ((0, set_fh id info),
               with_opened (<[id := 1%positive]> (opened s))
                 (linked ctx dir last_component id REGULAR_FILE
                    (stamp ctx (create_mode mode)) s))
          end
      end
  end.
Proof.
  intros Hs Hro. unfold operations.create. rewrite COMMON_CATCH_BLOCK_eq.
  unfold is_readonly, FileTable_is_readonly.
  unfold mbind at 1. unfold M_bind, bind, gets. rewrite Hro.
  unfold mbind at 1. unfold M_bind, bind. rewrite create_spec by done.
  destruct (resolve_base s (split path "/")) as [[dir l]|e] eqn:Hr; [|done].
  destruct (files s !! id) as [o|] eqn:Hid; [done|].
  destruct (entry_of s dir l) as [[e|]|e] eqn:He; [done| |done].
  destruct (resolve_base_file _ _ _ _ Hr) as [od Hod].
  assert (Hne : dir <> id) by congruence.
  unfold on_throw.
  unfold FileBase_type, FileBase_set_uid, FileBase_set_gid, FileBase_set_nlink,
    FileBase_set_mode, FileBase_flush, deref, update.
  unfold mbind, M_bind, bind, modify, mret, M_ret, ret.
  assert (Hl : files (created ctx dir l id REGULAR_FILE s) !! id
               = Some (fresh_object ctx REGULAR_FILE)).
  { unfold created; cbn. by rewrite lookup_alter_ne, lookup_insert_eq. }
  rewrite Hl. cbn [fresh_object fb_payload empty_payload payload_type].
  rewrite decide_False by (by intros []).
  f_equal. unfold created, linked, with_opened, with_files; cbn. f_equal.
  rewrite !alter_alter_eq. apply alter_ext. done.
Qed.

Lemma create_op_readonly ctx path mode info id s :
  readonly s = true ->
  operations.create ctx path mode info id s = ((- EROFS, info), s).
Proof.
  intros Hro. unfold operations.create. rewrite COMMON_CATCH_BLOCK_eq.
  unfold is_readonly, FileTable_is_readonly.
  unfold mbind at 1. unfold M_bind, bind, gets. by rewrite Hro.
Qed.

Lemma entry_of_absent s d n :
  entry_of s d n = Return None ->
  exists o entries, files s !! d = Some o /\ fb_payload o = Directory entries
                    /\ faults s !! d = None /\ entries !! n = None.
Proof.
  intros He. pose proof (entry_of_cases s d n) as Hc. rewrite He in Hc.
  destruct Hc as (entries & Hen & Hl).
  destruct (entries_of_files _ _ _ Hen) as (o & Hf & Hp & Hfl).
  by exists o, entries.
Qed.

Lemma settled_logged ctx e s : settled s -> settled (logged ctx e s).
Proof. by destruct e. Qed.

(** [settled] is kept by the operations characterised above. *)
Lemma settled_after_chmod ctx path mode s :
  settled s -> settled (snd (operations.chmod ctx path mode s)).
Proof.
  intros Hs. rewrite chmod_spec by done.
  destruct (resolve_all s (split path "/")); cbn [snd].
  - by apply settled_touch.
  - by apply settled_logged.
Qed.

Lemma settled_after_create ctx path mode info id s :
  settled s -> readonly s = false ->
  settled (snd (operations.create ctx path mode info id s)).
Proof.
  intros Hs Hro. rewrite create_op_spec by done.
  destruct (resolve_base s (split path "/")) as [[dir l]|e] eqn:Hr;
    [|by apply settled_logged].
  destruct (files s !! id) as [o|] eqn:Hid; [done|].
  destruct (entry_of s dir l) as [[e|]|e] eqn:He;
    [done| |by apply settled_logged].
  destruct (entry_of_absent _ _ _ He) as (od & entries & Hod & Hp & Hfl & Hn).
  cbn [snd]. by eapply settled_linked_live.
Qed.

(** C3. After a create of [path] that returned 0, a second create of the
    same path (with a fresh random id) returns -EEXIST and leaves the
    whole filesystem, so also the entries of the parent, unchanged; the
    entry still refers to the object of the first create, whose handle
    that create returned. *)
Theorem create_twice (ctx : fuse_context) (s s1 : FileSystem) (path : string)
    (mode mode2 : Z) (info info1 info2 : fuse_file_info) (id1 id2 : id_type) :
  settled s ->
  operations.create ctx path mode info id1 s = ((0, info1), s1) ->
  files s1 !! id2 = None ->
  operations.create ctx path mode2 info2 id2 s1 = ((- EEXIST, info2), s1)
  /\ exists dir last_component entries,
       resolve_base s1 (split path "/") = Return (dir, last_component)
       /\ entries_of s1 dir = Some entries
       /\ entries !! last_component = Some (id1, REGULAR_FILE)
       /\ fh info1 = Some id1.
Proof.
  intros Hs Hc Hid2.
  destruct (readonly s) eqn:Hro.
  { by rewrite create_op_readonly in Hc. }
  rewrite create_op_spec in Hc by done.
  destruct (resolve_base s (split path "/")) as [[dir l]|e] eqn:Hr.
  2: { injection Hc as Hc _. by apply resolve_base_throw in Hr. }
  destruct (files s !! id1) as [o|] eqn:Hid; [done|].
  destruct (entry_of s dir l) as [[e|]|e] eqn:He; [done| |].
  2: { injection Hc as Hc _. by apply entry_of_throw in He. }
  injection Hc as <- <-.
  destruct (entry_of_absent _ _ _ He) as (od & entries & Hod & Hp & Hfl & Hn).
  set (f := stamp ctx (create_mode mode)) in *.
  set (s1 := with_opened _ (linked ctx dir l id1 REGULAR_FILE f s)) in *.
  assert (Hs1 : settled s1) by (by eapply settled_linked_live).
  assert (Hext : extends s s1).
  { apply extends_with_opened. by eapply extends_linked. }
  assert (Hen1 : entries_of s1 dir = Some (<[l := (id1, REGULAR_FILE)]> entries)).
  { by apply (entries_of_linked ctx dir l id1 REGULAR_FILE f s od entries). }
  split.
  - rewrite create_op_spec by done.
    rewrite (resolve_base_extends _ _ _ _ Hext Hr), Hid2.
    by rewrite (entry_of_entries _ _ _ _ Hen1), lookup_insert_eq.
  - exists dir, l, (<[l := (id1, REGULAR_FILE)]> entries).
    rewrite (resolve_base_extends _ _ _ _ Hext Hr). by rewrite lookup_insert_eq.
Qed.

Lemma create_twice_witness :
  operations.create sample_context "/x" 384 no_handle 8%N (snd first_create)
  = ((- EEXIST, no_handle), snd first_create).
Proof.
  refine (proj1 (create_twice sample_context sample (snd first_create) "/x" 420 384
                   no_handle (snd (fst first_create)) no_handle 7%N 8%N
                   (sample_mount_settled false ∅) _ _)).
  - vm_compute. reflexivity.
  - vm_compute. reflexivity.
Defined.

(** symlink and readlink *)

Lemma close_last_reference i s0 s :
  opened s0 !! i = None ->
  opened s = <[i := 1%positive]> (opened s0) ->
  (forall o, files s !! i = Some o -> fb_nlink o <> 0) ->
  close i s = with_opened (opened s0) s.
Proof.
  intros Hi Ho Hn. unfold close. rewrite Ho, lookup_insert_eq.
  rewrite decide_True by done.
  rewrite delete_insert_eq, (delete_id (opened s0)) by done.
  destruct (files s !! i) as [o|] eqn:Hf; [|done].
  rewrite decide_False; [done|]. by apply Hn.
Qed.

Lemma symlink_success ctx to from id s s1 :
  settled s ->
  operations.symlink ctx to from id s = ((0, tt), s1) ->
  exists dir l od entries,
    resolve_base s (split from "/") = Return (dir, l)
    /\ files s !! id = None
    /\ files s !! dir = Some od /\ fb_payload od = Directory entries
    /\ faults s !! dir = None /\ entries !! l = None
    /\ faults s !! id = None
    /\ s1 = linked ctx dir l id SYMLINK (symlink_header ctx to) s.
Proof.
  intros Hs. unfold operations.symlink. rewrite COMMON_CATCH_BLOCK_eq.
  unfold is_readonly, FileTable_is_readonly.
  unfold mbind at 1. unfold M_bind, bind, gets.
  destruct (readonly s); [done|].
  unfold mbind at 1. unfold M_bind, bind. rewrite create_spec by done.
  destruct (resolve_base s (split from "/")) as [[dir l]|e] eqn:Hr.
  2: { intros [= Hc _]. by apply resolve_base_throw in Hr. }
  destruct (files s !! id) as [o|] eqn:Hid; [done|].
  destruct (entry_of s dir l) as [[e|]|e] eqn:He; [done| |].
  2: { intros [= Hc _]. by apply entry_of_throw in He. }
  destruct (entry_of_absent _ _ _ He) as (od & entries & Hod & Hp & Hfl & Hn).
  assert (Hne : dir <> id) by congruence.
  pose proof (settled_fresh _ _ Hs Hid) as Hop.
  unfold finally, FileGuard_dtor, FileGuard_reset, FileTable_close.
  unfold FileBase_type, FileBase_set_uid, FileBase_set_gid, FileBase_set_nlink,
    FileBase_set_mode, Symlink_set, FileBase_flush, stream, put_stream, deref, update.
  unfold mbind, M_bind, bind, modify, mret, M_ret, ret.
  assert (Hl : files (created ctx dir l id SYMLINK s) !! id
               = Some (fresh_object ctx SYMLINK)).
  { unfold created; cbn. by rewrite lookup_alter_ne, lookup_insert_eq. }
  rewrite Hl. cbn [fresh_object fb_payload empty_payload payload_type].
  rewrite decide_False by (by intros []).
  cbn [faults with_files with_opened created].
  destruct (faults s !! id) as [f|] eqn:Hf.
  { intros [= Hc _]. by apply error_code_fault in Hc. }
  cbn [files with_files with_opened created].
  rewrite !alter_alter_eq, lookup_alter_eq, lookup_alter_ne, lookup_insert_eq by done.
  cbn. rewrite alter_alter_eq.
  intros [= <-]. exists dir, l, od, entries. repeat (split; [done|]).
  rewrite (close_last_reference id s); [|done|done|].
  - unfold linked, with_opened, with_files; cbn. by f_equal.
  - cbn. rewrite lookup_alter_eq, lookup_alter_ne, lookup_insert_eq by done.
    cbn. by intros o [= <-].
Qed.

Lemma c_str_terminated l rest :
  ~ In NUL l -> c_str (l ++ NUL :: rest) = string_of_list_ascii l.
Proof.
  induction l as [|c l IH]; cbn; [done|]. intros Hn.
  destruct (Ascii.eqb c NUL) eqn:E.
  - apply Ascii.eqb_eq in E. tauto.
  - f_equal. apply IH. tauto.
Qed.

Lemma length_list_ascii_of_string t :
  length (list_ascii_of_string t) = String.length t.
Proof. induction t as [|c t IH]; cbn; [done|]. by f_equal. Qed.

Lemma readlink_buffer buf t size :
  (0 < size)%nat -> (size <= length buf)%nat ->
  let n := Nat.min (length t) (size - 1) in
  memcpy (memset_zero buf size) t n
  = take n t ++ replicate (size - n) NUL ++ drop size buf.
Proof.
  intros Hpos Hlen n. unfold memcpy, memset_zero.
  rewrite Nat.min_l by done.
  rewrite length_take, (Nat.min_l n) by lia.
  rewrite drop_app_le by (rewrite length_replicate; lia).
  by rewrite drop_replicate.
Qed.

Lemma readlink_symlink ctx path buf size s t o target :
  settled s -> size <> 0 ->
  resolve_all s (split path "/") = Return t ->
  files s !! t = Some o -> fb_payload o = Symlink target -> faults s !! t = None ->
  operations.readlink ctx path buf size s =
  ((0, memcpy (memset_zero buf (Z.to_nat size)) (list_ascii_of_string target)
         (Z.to_nat (Z.min (Z.of_nat (String.length target)) (size - 1)))), s).
Proof.
  intros Hs Hsz Hr Ho Hp Hf. unfold operations.readlink.
  rewrite (proj2 (Z.eqb_neq size 0) Hsz). rewrite COMMON_CATCH_BLOCK_eq.
  unfold mbind at 1. unfold M_bind, bind. rewrite open_all_spec, Hr by done.
  unfold finally, FileGuard_dtor, FileGuard_reset, FileTable_close.
  unfold FileBase_type, Symlink_get, stream, deref.
  unfold mbind, M_bind, bind, modify, mret, M_ret, ret.
  cbn [files faults incref with_opened]. rewrite Ho. cbn. rewrite Hp. cbn.
  rewrite decide_False by (by intros []). cbn.
  rewrite Hf, Ho. cbn. rewrite Hp.
  by rewrite close_incref by (by apply settled_settled_at).
Qed.

(** X30. For a path with at least one component: after a symlink that
    returned 0, readlink with [size > 0] returns 0 and fills the first
    [size] bytes of the buffer with the target cut to at most [size - 1]
    bytes followed by NULs; the C string read back is the target whenever
    it fits (and, being a C string, holds no NUL). *)
Theorem symlink_then_readlink (ctx : fuse_context) (s s1 : FileSystem)
    (to from : string) (id : id_type) (buf : list ascii) (size : Z) :
  settled s ->
  split from "/" <> [] ->
  operations.symlink ctx to from id s = ((0, tt), s1) ->
  0 < size -> (Z.to_nat size <= length buf)%nat ->
  let n := Nat.min (String.length to) (Z.to_nat size - 1) in
  let buf1 := take n (list_ascii_of_string to)
              ++ replicate (Z.to_nat size - n) NUL ++ drop (Z.to_nat size) buf in
  operations.readlink ctx from buf size s1 = ((0, buf1), s1)
  /\ (is_c_string to -> (String.length to <= Z.to_nat size - 1)%nat -> c_str buf1 = to).
Proof.
  intros Hs Hne Hsym Hsz Hbuf n buf1.
  destruct (symlink_success _ _ _ _ _ _ Hs Hsym)
    as (dir & l & od & entries & Hr & Hid & Hod & Hp & Hfl & Hn & Hfi & ->).
  set (f := symlink_header ctx to).
  set (s1 := linked ctx dir l id SYMLINK f s).
  assert (Hs1 : settled s1) by (by eapply settled_linked).
  assert (Hext : extends s s1) by (by eapply extends_linked).
  assert (Hl : is_empty l = false).
  { pose proof (split_last_nonempty from "/" Hne) as Hlast.
    unfold resolve_base in Hr.
    destruct (openable s (root_id s) DIRECTORY) as [r|]; [|done].
    destruct (split from "/") as [|c cs]; [done|].
    destruct (walk s r (removelast (c :: cs))); [|done].
    by injection Hr as _ <-. }
  assert (Hres : resolve_all s1 (split from "/") = Return id).
  { unfold resolve_all. rewrite (resolve_base_extends _ _ _ _ Hext Hr), Hl.
    rewrite (entry_of_entries s1 dir (<[l := (id, SYMLINK)]> entries))
      by (by apply (entries_of_linked ctx dir l id SYMLINK f s od entries)).
    rewrite lookup_insert_eq.
    unfold openable, FileTable_open_as, s1.
    by rewrite (linked_lookup_id ctx dir l id SYMLINK f s od Hid Hod). }
  split.
  - rewrite (readlink_symlink ctx from buf size s1 id (f (fresh_object ctx SYMLINK)) to);
      try done; [|lia|by apply (linked_lookup_id ctx dir l id SYMLINK f s od)].
    do 2 f_equal.
    replace (Z.to_nat (Z.min (Z.of_nat (String.length to)) (size - 1))) with n by lia.
    unfold buf1, n. rewrite <- (length_list_ascii_of_string to).
    apply readlink_buffer; lia.
  - intros Hc Hlen. unfold buf1, n.
    rewrite Nat.min_l by done.
    rewrite <- length_list_ascii_of_string at 1. rewrite firstn_all.
    destruct (Z.to_nat size - String.length to)%nat as [|k] eqn:E; [lia|].
    cbn [replicate]. rewrite <- app_comm_cons.
    rewrite c_str_terminated by done. apply string_of_list_ascii_of_string.
Qed.

Lemma symlink_then_readlink_witness :
  operations.readlink sample_context "/s" link_buffer 8 after_symlink
  = ((0, (list_ascii_of_string "target" ++ [NUL; NUL])%list), after_symlink)
  /\ c_str (list_ascii_of_string "target" ++ [NUL; NUL])%list = "target".
Proof.
  assert (Hsplit : split "/s" "/" <> []) by (vm_compute; discriminate).
  assert (Hsym : operations.symlink sample_context "target" "/s" 9%N sample
                 = ((0, tt), after_symlink)) by (vm_compute; reflexivity).
  assert (Hsize : 0 < 8) by lia.
  assert (Hbuf : (Z.to_nat 8 <= length link_buffer)%nat) by (vm_compute; lia).
  pose proof (symlink_then_readlink sample_context sample after_symlink "target" "/s"
                9%N link_buffer 8 (sample_mount_settled false ∅) Hsplit Hsym Hsize Hbuf)
    as H.
  cbv zeta in H. destruct H as [Hread Hstr]. split.
  - exact Hread.
  - apply Hstr.
    + vm_compute. intros H. repeat (destruct H as [H|H]; [discriminate H|]). exact H.
    + vm_compute. lia.
Defined.

(** C7. At the root path [internal::create] meets an empty last
    component and, unlike [internal::remove], does not refuse it: symlink
    adds an entry with the empty name to the root and returns 0, while
    readlink resolves the same path to the root directory and returns
    -EINVAL, leaving the buffer as it was. *)
Lemma symlink_root_then_readlink :
  let r := operations.symlink sample_context "target" "/" 9%N sample in
  let l := operations.readlink sample_context "/" link_buffer 8 (snd r) in
  split "/" "/" = []
  /\ fst r = (0, tt)
  /\ entry_of (snd r) 1%N EmptyString = Return (Some (9%N, SYMLINK))
  /\ fst l = (- EINVAL, link_buffer)
  /\ fst (operations.unlink sample_context "/" (snd r)) = (- EPERM, tt).
Proof. vm_compute. repeat split; reflexivity. Qed.

(** Failed creation *)

Lemma close_absent j i s :
  files s !! i = None -> opened s !! i = None ->
  files (close j s) !! i = None /\ opened (close j s) !! i = None.
Proof.
  intros Hf Ho. unfold close.
  destruct (opened s !! j) as [n|] eqn:Hj; [|done].
  assert (Hne : j <> i) by congruence.
  case_decide.
  - destruct (files s !! j) as [o|]; [case_decide|]; cbn;
      rewrite ?lookup_delete_ne by done; done.
  - cbn. by rewrite lookup_insert_ne.
Qed.

Lemma close_purges i s o :
  opened s !! i = Some 1%positive -> files s !! i = Some o -> fb_nlink o = 0 ->
  files (close i s) !! i = None /\ opened (close i s) !! i = None.
Proof.
  intros Ho Hf Hn. unfold close. rewrite Ho, Hf.
  rewrite !decide_True by done. cbn. by rewrite !lookup_delete_eq.
Qed.

Lemma logged_files ctx e s : files (logged ctx e s) = files s.
Proof. by destruct e. Qed.

Lemma logged_opened ctx e s : opened (logged ctx e s) = opened s.
Proof. by destruct e. Qed.

(** C4. When, in [internal::create], adding the directory entry returns
    false or throws, [unlink()] is called on the new object before the
    guards are released and the error propagates: whatever [unlink] does,
    create ends in the state [unlink] left, with both guards released
    (and with the exception of [unlink], should it throw one).  With
    [FileBase::unlink] as designed, nlink of the new object is 0 at that
    point, the error that propagates is EEXIST or the exception thrown,
    and after the release the object is neither on the host nor in the
    table.  create, mkdir and symlink report that error. *)
Theorem create_failure_purges (unlink : id_type -> M unit) (ctx : fuse_context)
    (path : string) (type : file_type) (id : id_type) (s s1 s2 s3 : FileSystem)
    (dir : id_type) (last_component : string) (outcome : result bool) :
  open_base_dir ctx path s = (Return (dir, last_component), s1) ->
  table_create_as ctx id type s1 = (Return id, s2) ->
  dir_add_entry dir last_component id type s2 = (outcome, s3) ->
  outcome <> Return true ->
  let e := match outcome with Throw e => e | Return _ => OSException EEXIST end in
  let unlinked := snd (FileBase_unlink id s3) in
  let final := FileGuard_dtor dir (FileGuard_dtor id unlinked) in
  create_calling unlink ctx path type id s
  = (match fst (unlink id s3) with
     | Return _ => Throw e
     | Throw e' => Throw e'
     end,
     FileGuard_dtor dir (FileGuard_dtor id (snd (unlink id s3))))
  /\ (exists o, files unlinked !! id = Some o /\ fb_nlink o = 0)
  /\ internal.create ctx path type id s = (Throw e, final)
  /\ files final !! id = None /\ opened final !! id = None
  /\ (readonly s = false ->
      forall mode info to,
        (type = REGULAR_FILE ->
         operations.create ctx path mode info id s
         = ((error_code e, info), logged ctx e final))
        /\ (type = DIRECTORY ->
            operations.mkdir ctx path mode id s
            = ((error_code e, tt), logged ctx e final))
        /\ (type = SYMLINK ->
            operations.symlink ctx to path id s
            = ((error_code e, tt), logged ctx e final))).
Proof.
  intros Hopen Hcreate Hadd Hfail e unlinked final.
  assert (Hs3 : s3 = s2).
  { rewrite dir_add_entry_eq, Directory_add_entry_eq in Hadd.
    destruct (entry_of s2 dir last_component) as [[?|]|?]; injection Hadd as <- <-; done. }
  subst s3.
  assert (Hs2 : files s2 !! id = Some (fresh_object ctx type)
                /\ opened s2 !! id = Some 1%positive).
  { unfold table_create_as, FileTable_create_as in Hcreate.
    destruct (files s1 !! id); [done|]. injection Hcreate as <-. cbn.
    by rewrite !lookup_insert_eq. }
  destruct Hs2 as [Hf2 Ho2].
  assert (Hu : files unlinked !! id = Some (fresh_object ctx type)
               /\ opened unlinked !! id = Some 1%positive).
  { unfold unlinked, FileBase_unlink, FileBase_set_nlink, update, modify; cbn.
    by rewrite lookup_alter_eq, Hf2. }
  destruct Hu as [Hfu Hou].
  destruct (close_purges id unlinked _ Hou Hfu eq_refl) as [Hfc Hoc].
  destruct (close_absent dir id _ Hfc Hoc) as [Hff Hof].
  assert (Hcall : forall u : id_type -> M unit,
             create_calling u ctx path type id s
             = (match fst (u id s2) with
                | Return _ => Throw e
                | Throw e' => Throw e'
                end,
                FileGuard_dtor dir (FileGuard_dtor id (snd (u id s2))))).
  { intros u. unfold create_calling. unfold mbind at 1. unfold M_bind, bind.
    rewrite Hopen.
    unfold finally. unfold mbind at 1. unfold M_bind, bind. rewrite Hcreate.
    unfold on_throw, try_catch. unfold mbind at 1. unfold M_bind, bind. rewrite Hadd.
    destruct outcome as [[|]|e0]; [done| |];
      unfold mbind, M_bind, bind, throw; cbn [negb];
      by destruct (u id s2) as [[[]|e'] s4]. }
  assert (Hint : internal.create ctx path type id s = (Throw e, final)).
  { unfold internal.create. by rewrite Hcall. }
  split; [apply Hcall|].
  split; [by exists (fresh_object ctx type)|].
  split; [done|]. split; [done|]. split; [done|].
  intros Hro mode info to. repeat split; intros ->.
  - unfold operations.create. rewrite COMMON_CATCH_BLOCK_eq.
    unfold is_readonly, FileTable_is_readonly.
    unfold mbind at 1. unfold M_bind, bind, gets. rewrite Hro.
    unfold mbind at 1. unfold M_bind, bind. by rewrite Hint.
  - unfold operations.mkdir. rewrite COMMON_CATCH_BLOCK_eq.
    unfold is_readonly, FileTable_is_readonly.
    unfold mbind at 1. unfold M_bind, bind, gets. rewrite Hro.
    unfold mbind at 1. unfold M_bind, bind. by rewrite Hint.
  - unfold operations.symlink. rewrite COMMON_CATCH_BLOCK_eq.
    unfold is_readonly, FileTable_is_readonly.
    unfold mbind at 1. unfold M_bind, bind, gets. rewrite Hro.
    unfold mbind at 1. unfold M_bind, bind. by rewrite Hint.
Qed.

Lemma create_failure_purges_witness :
  (operations.create sample_context "/f" 420 no_handle 9%N sample
   = ((- EEXIST, no_handle), sample))
  /\ files (snd (operations.create sample_context "/f" 420 no_handle 9%N sample_io_fault))
       !! 9%N = None
  /\ stderr (snd (create_calling (fun _ => modify (fprintf_stderr "unlink"))
                    sample_context "/f" REGULAR_FILE 9%N sample))
     = ["unlink"].
Proof.
  split; [|split].
  - assert (Hopen : open_base_dir sample_context "/f" sample
                    = (Return (1%N, "f"), after_open sample "/f"))
      by (vm_compute; reflexivity).
    assert (Hcreate : table_create_as sample_context 9%N REGULAR_FILE (after_open sample "/f")
                      = (Return 9%N, after_create_as sample "/f"))
      by (vm_compute; reflexivity).
    assert (Hadd : dir_add_entry 1%N "f" 9%N REGULAR_FILE (after_create_as sample "/f")
                   = (Return false, after_create_as sample "/f"))
      by (vm_compute; reflexivity).
    assert (Hfail : Return false <> Return true) by discriminate.
    pose proof (create_failure_purges FileBase_unlink sample_context "/f" REGULAR_FILE 9%N
                  sample
                  _ _ _ 1%N "f" (Return false) Hopen Hcreate Hadd Hfail) as H.
    cbv zeta in H. destruct H as (_ & _ & _ & _ & _ & Hops).
    destruct (Hops eq_refl 420 no_handle EmptyString) as (Hc & _).
    rewrite (Hc eq_refl). vm_compute. reflexivity.
  - assert (Hopen : open_base_dir sample_context "/f" sample_io_fault
                    = (Return (1%N, "f"), after_open sample_io_fault "/f"))
      by (vm_compute; reflexivity).
    assert (Hcreate : table_create_as sample_context 9%N REGULAR_FILE
                        (after_open sample_io_fault "/f")
                      = (Return 9%N, after_create_as sample_io_fault "/f"))
      by (vm_compute; reflexivity).
    assert (Hadd : dir_add_entry 1%N "f" 9%N REGULAR_FILE (after_create_as sample_io_fault "/f")
                   = (Throw (exception_of_fault IO), after_create_as sample_io_fault "/f"))
      by (vm_compute; reflexivity).
    assert (Hfail : Throw (exception_of_fault IO) <> Return true) by discriminate.
    pose proof (create_failure_purges FileBase_unlink sample_context "/f" REGULAR_FILE 9%N
                  sample_io_fault
                  _ _ _ 1%N "f" (Throw (exception_of_fault IO)) Hopen Hcreate Hadd Hfail) as H.
    cbv zeta in H. destruct H as (_ & _ & _ & Hgone & _ & Hops).
    destruct (Hops eq_refl 420 no_handle EmptyString) as (Hc & _).
    rewrite (Hc eq_refl). cbn [snd]. rewrite logged_files. exact Hgone.
  - assert (Hopen : open_base_dir sample_context "/f" sample
                    = (Return (1%N, "f"), after_open sample "/f"))
      by (vm_compute; reflexivity).
    assert (Hcreate : table_create_as sample_context 9%N REGULAR_FILE (after_open sample "/f")
                      = (Return 9%N, after_create_as sample "/f"))
      by (vm_compute; reflexivity).
    assert (Hadd : dir_add_entry 1%N "f" 9%N REGULAR_FILE (after_create_as sample "/f")
                   = (Return false, after_create_as sample "/f"))
      by (vm_compute; reflexivity).
    assert (Hfail : Return false <> Return true) by discriminate.
    pose proof (create_failure_purges (fun _ => modify (fprintf_stderr "unlink"))
                  sample_context "/f" REGULAR_FILE 9%N sample
                  _ _ _ 1%N "f" (Return false) Hopen Hcreate Hadd Hfail) as H.
    cbv zeta in H. destruct H as (Hcall & _).
    rewrite Hcall. vm_compute. reflexivity.
Defined.

(** Removal *)

(** C9. When resolution of the path ends with an empty last component
    (no component at all: the root), [internal::remove] throws EPERM,
    unlink and rmdir return -EPERM, and the filesystem is unchanged. *)
Theorem remove_root_refused (ctx : fuse_context) (s : FileSystem)
    (path : string) (d : id_type) :
  settled s ->
  fst (open_base_dir ctx path s) = Return (d, EmptyString) ->
  d = root_id s
  /\ split path "/" = []
  /\ internal.remove ctx path s = (Throw (OSException EPERM), s)
  /\ (readonly s = false ->
      operations.unlink ctx path s = ((- EPERM, tt), s)
      /\ operations.rmdir ctx path s = ((- EPERM, tt), s)).
Proof.
  intros Hs Hopen. rewrite open_base_dir_spec in Hopen by done.
  destruct (resolve_base s (split path "/")) as [[d' l]|e] eqn:Hr; [|done].
  cbn in Hopen. injection Hopen as -> ->.
  assert (Hsplit : split path "/" = []).
  { destruct (split path "/") as [|c cs] eqn:E; [done|]. exfalso.
    assert (Hl : is_empty (List.last (c :: cs) EmptyString) = false).
    { rewrite <- E. apply split_last_nonempty. by rewrite E. }
    unfold resolve_base in Hr.
    destruct (openable s (root_id s) DIRECTORY) as [r|]; [|done].
    destruct (walk s r (removelast (c :: cs))); [|done].
    injection Hr as _ Hr.
    change (List.last (c :: cs) EmptyString = EmptyString) in Hr.
    by rewrite Hr in Hl. }
  assert (Hd : d = root_id s).
  { unfold resolve_base in Hr. rewrite Hsplit in Hr.
    destruct (openable s (root_id s) DIRECTORY) as [r|] eqn:Hop; [|done].
    injection Hr as <-. by apply openable_id in Hop. }
  assert (Hrem : internal.remove ctx path s = (Throw (OSException EPERM), s)).
  { unfold internal.remove. unfold mbind at 1. unfold M_bind, bind.
    rewrite open_base_dir_spec, Hr by done.
    unfold finally, throw, FileGuard_dtor, FileGuard_reset, FileTable_close, modify.
    cbn. by rewrite close_incref by (by apply settled_settled_at). }
  split; [done|]. split; [done|]. split; [done|].
  intros Hro.
  assert (Hun : operations.unlink ctx path s = ((- EPERM, tt), s)).
  { unfold operations.unlink. rewrite COMMON_CATCH_BLOCK_eq.
    unfold is_readonly, FileTable_is_readonly.
    unfold mbind at 1. unfold M_bind, bind, gets. rewrite Hro.
    unfold mbind at 1. unfold M_bind, bind. by rewrite Hrem. }
  by split.
Qed.

Lemma remove_root_refused_witness :
  internal.remove sample_context "/" sample = (Throw (OSException EPERM), sample)
  /\ operations.unlink sample_context "/" sample = ((- EPERM, tt), sample).
Proof.
  assert (Hopen : fst (open_base_dir sample_context "/" sample)
                  = Return (1%N, EmptyString)) by (vm_compute; reflexivity).
  pose proof (remove_root_refused sample_context sample "/" 1%N
                (sample_mount_settled false ∅) Hopen) as (_ & _ & Hrem & Hops).
  split; [exact Hrem|]. apply Hops. reflexivity.
Defined.

Lemma holds_entries_frame s s' id :
  files s' = files s -> holds_entries s' id = holds_entries s id.
Proof. intros H. unfold holds_entries. by rewrite H. Qed.

Lemma Directory_remove_entry_eq d n s :
  Directory_remove_entry d n s =
  match entry_of s d n with
  | Throw e => (Throw e, s)
  | Return None => (Return None, s)
  | Return (Some (id, type)) =>
      if holds_entries s id then (Throw (OSException ENOTEMPTY), s)
      else (Return (Some (id, type)), touch (unlink_entry n) d s)
  end.
Proof.
  unfold entry_of, Directory_get_entry, Directory_remove_entry, stream, deref.
  unfold mbind, M_bind, bind, ret.
  destruct (faults s !! d); [done|].
  destruct (files s !! d) as [o|] eqn:Hf; [|done]. cbn.
  destruct (fb_payload o) eqn:Hp; cbn; try done.
  destruct (entries !! n) as [[id type]|]; [|done].
  unfold gets. destruct (holds_entries s id); [done|].
  unfold put_stream, update, modify, touch. do 2 f_equal.
  apply alter_ext. intros o' Ho'. rewrite Hf in Ho'. injection Ho' as <-.
  unfold unlink_entry. by rewrite Hp.
Qed.

Lemma settled_at_touch_ne f t s i :
  t <> i -> settled_at s i -> settled_at (touch f t s) i.
Proof.
  intros Hne Hs o Ho Hn. unfold touch in *; cbn in *.
  rewrite lookup_alter_ne in Ho by done. exact (Hs o Ho Hn).
Qed.

Lemma close_incref_purge i s o :
  opened s !! i = None -> files s !! i = Some o -> fb_nlink o = 0 ->
  close i (incref i s) = with_files (delete i (files s)) s.
Proof.
  intros Ho Hf Hn. unfold close, incref; cbn.
  rewrite lookup_insert_eq, Ho, decide_True, Hf, decide_True by done.
  unfold with_files, with_opened; cbn. f_equal.
  rewrite delete_insert_eq. by apply delete_id.
Qed.

Lemma remove_spec ctx path s dir name id type o :
  settled s ->
  resolve_base s (split path "/") = Return (dir, name) ->
  is_empty name = false ->
  entry_of s dir name = Return (Some (id, type)) ->
  files s !! id = Some o -> payload_type (fb_payload o) = type ->
  holds_entries s id = false ->
  dir <> id ->
  internal.remove ctx path s = (Return tt, removed dir name id s).
Proof.
  intros Hs Hr Hl He Ho Ht Hhe Hne.
  destruct (resolve_base_file _ _ _ _ Hr) as [od Hod].
  unfold internal.remove. unfold mbind at 1. unfold M_bind, bind.
  rewrite open_base_dir_spec, Hr by done.
  unfold finally, FileGuard_dtor, FileGuard_reset, FileTable_close. rewrite Hl.
  unfold mbind at 1. unfold M_bind, bind.
  rewrite Directory_remove_entry_eq.
  rewrite (entry_of_frame (incref dir s) s), He by done.
  rewrite (holds_entries_frame s (incref dir s)), Hhe by done.
  unfold FileBase_flush, table_open_as.
  unfold mbind at 1. unfold M_bind, bind, mret, M_ret, ret.
  unfold mbind at 1. unfold M_bind, bind.
  rewrite FileTable_open_as_eq.
  set (sa := touch (unlink_entry name) dir s).
  change (touch (unlink_entry name) dir (incref dir s)) with (incref dir sa).
  assert (Hop : openable (incref dir sa) id type = Return id).
  { unfold openable, FileTable_open_as, sa; cbn.
    rewrite lookup_alter_ne, Ho by done. by rewrite decide_True. }
  rewrite Hop.
  unfold FileBase_unlink, FileBase_set_nlink, update, modify; cbn [snd].
  set (x := touch mark_unlinked id sa).
  change (with_files _ (incref id (incref dir sa))) with (incref id (incref dir x)).
  assert (Hxid : files x !! id = Some (mark_unlinked o)).
  { unfold x, sa, touch; cbn. by rewrite lookup_alter_eq, lookup_alter_ne, Ho. }
  assert (Hxdir : settled_at x dir).
  { apply settled_at_touch_ne; [done|]. apply settled_at_touch.
    - intros ob. unfold unlink_entry. by destruct (fb_payload ob).
    - by apply settled_settled_at. }
  f_equal. unfold removed. fold sa. fold x.
  destruct (opened s !! id) as [n|] eqn:Hoid.
  - rewrite (close_incref id).
    + by apply close_incref.
    + intros ob _ _. unfold incref; cbn. rewrite lookup_insert_ne by done.
      by rewrite Hoid.
  - rewrite (close_incref_purge id (incref dir x) (mark_unlinked o)); try done.
    + change (with_files ?f (incref dir x)) with (incref dir (with_files f x)).
      apply close_incref. intros ob Hob Hn. cbn in Hob.
      rewrite lookup_delete_ne in Hob by done. exact (Hxdir ob Hob Hn).
    + unfold incref; cbn. by rewrite lookup_insert_ne.
Qed.

Lemma remove_not_empty ctx path s dir name id type :
  settled s ->
  resolve_base s (split path "/") = Return (dir, name) ->
  is_empty name = false ->
  entry_of s dir name = Return (Some (id, type)) ->
  holds_entries s id = true ->
  internal.remove ctx path s = (Throw (OSException ENOTEMPTY), s).
Proof.
  intros Hs Hr Hl He Hhe.
  unfold internal.remove. unfold mbind at 1. unfold M_bind, bind.
  rewrite open_base_dir_spec, Hr by done.
  unfold finally, FileGuard_dtor, FileGuard_reset, FileTable_close. rewrite Hl.
  unfold mbind at 1. unfold M_bind, bind.
  rewrite Directory_remove_entry_eq.
  rewrite (entry_of_frame (incref dir s) s), He by done.
  rewrite (holds_entries_frame s (incref dir s)), Hhe by done.
  unfold modify. cbn [snd]. f_equal.
  by rewrite close_incref by (by apply settled_settled_at).
Qed.

Lemma remove_no_name ctx path s dir name :
  settled s ->
  resolve_base s (split path "/") = Return (dir, name) ->
  is_empty name = true ->
  internal.remove ctx path s = (Throw (OSException EPERM), s).
Proof.
  intros Hs Hr Hl.
  unfold internal.remove. unfold mbind at 1. unfold M_bind, bind.
  rewrite open_base_dir_spec, Hr by done.
  unfold finally, throw, FileGuard_dtor, FileGuard_reset, FileTable_close, modify.
  rewrite Hl. cbn [snd]. f_equal.
  by rewrite close_incref by (by apply settled_settled_at).
Qed.

Lemma unlink_readonly ctx path s :
  readonly s = true -> operations.unlink ctx path s = ((- EROFS, tt), s).
Proof.
  intros Hro. unfold operations.unlink. rewrite COMMON_CATCH_BLOCK_eq.
  unfold is_readonly, FileTable_is_readonly.
  unfold mbind at 1. unfold M_bind, bind, gets. by rewrite Hro.
Qed.

Lemma unlink_op_throw ctx path s e s' :
  readonly s = false ->
  internal.remove ctx path s = (Throw e, s') ->
  operations.unlink ctx path s = ((error_code e, tt), logged ctx e s').
Proof.
  intros Hro Hrm. unfold operations.unlink. rewrite COMMON_CATCH_BLOCK_eq.
  unfold is_readonly, FileTable_is_readonly.
  unfold mbind at 1. unfold M_bind, bind, gets. rewrite Hro.
  unfold mbind, M_bind, bind. by rewrite Hrm.
Qed.

(** C2 (as amended). When the path names a directory that holds at least
    one entry, unlink and rmdir fail and leave the filesystem as it was,
    so that the directory, its entries and its entry in the parent
    remain: with -EROFS on a read-only mount; on a writable mount with
    -EPERM when the path has no component (the root) and with -ENOTEMPTY
    otherwise. *)
Theorem unlink_nonempty_directory (ctx : fuse_context) (s : FileSystem)
    (path : string) (id : id_type) (o : FileBase)
    (inside : gmap string (id_type * file_type)) :
  settled s ->
  resolve_all s (split path "/") = Return id ->
  files s !! id = Some o ->
  fb_payload o = Directory inside ->
  inside <> ∅ ->
  let code :=
    if readonly s then - EROFS
    else match split path "/" with
         | [] => - EPERM
         | _ => - ENOTEMPTY
         end in
  operations.unlink ctx path s = ((code, tt), s)
  /\ operations.rmdir ctx path s = ((code, tt), s).
Proof.
  intros Hs Hres Ho Hp Hin code.
  assert (Hun : operations.unlink ctx path s = ((code, tt), s)); [|by split].
  unfold code. destruct (readonly s) eqn:Hro; [by apply unlink_readonly|].
  unfold resolve_all in Hres.
  destruct (resolve_base s (split path "/")) as [[dir name]|e] eqn:Hr; [|done].
  destruct (split path "/") as [|c cs] eqn:Hsplit.
  - assert (Hl : is_empty name = true).
    { unfold resolve_base in Hr.
      destruct (openable s (root_id s) DIRECTORY); [|done].
      by injection Hr as _ <-. }
    rewrite <- Hsplit in Hr.
    pose proof (remove_no_name ctx path s dir name Hs Hr Hl) as Hrem.
    by rewrite (unlink_op_throw ctx path s (OSException EPERM) s).
  - assert (Hl : is_empty name = false).
    { assert (Hne : split path "/" <> []) by (by rewrite Hsplit).
      pose proof (split_last_nonempty path "/" Hne) as Hlast.
      rewrite Hsplit in Hlast. unfold resolve_base in Hr.
      destruct (openable s (root_id s) DIRECTORY); [|done].
      destruct (walk s _ (removelast (c :: cs))); [|done].
      by injection Hr as _ <-. }
    rewrite Hl in Hres.
    destruct (entry_of s dir name) as [[[i type]|]|] eqn:He; try done.
    assert (Hi : i = id) by (by apply openable_id in Hres). subst i.
    assert (Hhe : holds_entries s id = true).
    { unfold holds_entries. rewrite Ho, Hp. by rewrite bool_decide_false. }
    rewrite <- Hsplit in Hr.
    pose proof (remove_not_empty ctx path s dir name id type Hs Hr Hl He Hhe) as Hrem.
    by rewrite (unlink_op_throw ctx path s (OSException ENOTEMPTY) s).
Qed.

Lemma unlink_nonempty_directory_witness :
  operations.unlink sample_context "/a" sample = ((- ENOTEMPTY, tt), sample)
  /\ operations.rmdir sample_context "/a" sample = ((- ENOTEMPTY, tt), sample).
Proof.
  apply (unlink_nonempty_directory sample_context sample "/a" 2%N
           (sample_object (Z.lor S_IFDIR 493) (Directory sample_a_entries))
           sample_a_entries).
  - apply sample_mount_settled.
  - vm_compute. reflexivity.
  - vm_compute. reflexivity.
  - reflexivity.
  - apply (bool_decide_unpack _). vm_compute. exact I.
Defined.

(** C2 (as stated) fails: on a read-only mount rmdir and unlink of the
    directory /a, which holds an entry, return -EROFS, and rmdir of the
    root, which holds entries, returns -EPERM. *)
Lemma unlink_nonempty_directory_counterexample :
  entries_of sample_readonly 2%N = Some sample_a_entries
  /\ sample_a_entries !! "b" = Some (4%N, DIRECTORY)
  /\ operations.rmdir sample_context "/a" sample_readonly
     = ((- EROFS, tt), sample_readonly)
  /\ operations.unlink sample_context "/a" sample_readonly
     = ((- EROFS, tt), sample_readonly)
  /\ entries_of sample 1%N = Some sample_root_entries
  /\ sample_root_entries !! "f" = Some (3%N, REGULAR_FILE)
  /\ operations.rmdir sample_context "/" sample = ((- EPERM, tt), sample)
  /\ - EROFS <> - ENOTEMPTY /\ - EROFS <> - EEXIST
  /\ - EPERM <> - ENOTEMPTY /\ - EPERM <> - EEXIST.
Proof.
  vm_compute. repeat split; try reflexivity; discriminate.
Qed.

(** Read-only mounts and the catch block *)

(** C1 (as amended). On a read-only mount, open asking for write access
    (O_WRONLY, O_RDWR or O_APPEND) and create return -EROFS and change
    nothing; write returns -EINVAL on a null handle and -EPERM on a
    handle that is not a regular file, changing nothing either. *)
Theorem readonly_mount_gates_writers (ctx : fuse_context) (s : FileSystem) :
  readonly s = true ->
  (forall path info,
      Z.land (flags info) O_WRONLY <> 0 \/ Z.land (flags info) O_RDWR <> 0
      \/ Z.land (flags info) O_APPEND <> 0 ->
      operations.open ctx path info s = ((- EROFS, info), s))
  /\ (forall path mode info id,
        operations.create ctx path mode info id s = ((- EROFS, info), s))
  /\ (forall buffer len off info,
        fh info = None ->
        operations.write ctx buffer len off info s = ((- EINVAL, tt), s))
  /\ (forall buffer len off info fb o,
        fh info = Some fb -> files s !! fb = Some o ->
        payload_type (fb_payload o) <> REGULAR_FILE ->
        operations.write ctx buffer len off info s = ((- EPERM, tt), s)).
Proof.
  intros Hro. split; [|split; [|split]].
  - intros path info Hflags. unfold operations.open. rewrite COMMON_CATCH_BLOCK_eq.
    assert (Hw : negb (Z.land (flags info) O_WRONLY =? 0)
                 || negb (Z.land (flags info) O_APPEND =? 0)
                 || negb (Z.land (flags info) O_RDWR =? 0) = true).
    { destruct Hflags as [H|[H|H]]; apply Z.eqb_neq in H; rewrite H; cbn;
        by rewrite ?orb_true_r. }
    rewrite Hw. unfold is_readonly, FileTable_is_readonly.
    unfold mbind at 1. unfold M_bind, bind, gets. by rewrite Hro.
  - intros. by apply create_op_readonly.
  - intros buffer len off info Hfh. unfold operations.write.
    rewrite COMMON_CATCH_BLOCK_eq. by rewrite Hfh.
  - intros buffer len off info fb o Hfh Ho Ht. unfold operations.write.
    rewrite COMMON_CATCH_BLOCK_eq, Hfh.
    unfold FileBase_type, deref.
    unfold mbind at 1. unfold M_bind, bind.
    unfold mbind at 1. unfold M_bind, bind. rewrite Ho. cbn.
    by rewrite decide_True.
Qed.

Lemma readonly_mount_gates_writers_witness :
  operations.open sample_context "/f" {| flags := O_WRONLY; fh := None |} sample_readonly
  = ((- EROFS, {| flags := O_WRONLY; fh := None |}), sample_readonly)
  /\ operations.create sample_context "/g" 420 no_handle 9%N sample_readonly
     = ((- EROFS, no_handle), sample_readonly)
  /\ operations.write sample_context ["X"%char] 1 0 no_handle sample_readonly
     = ((- EINVAL, tt), sample_readonly).
Proof.
  destruct (readonly_mount_gates_writers sample_context sample_readonly eq_refl)
    as (Hopen & Hcreate & Hnull & _).
  split; [|split].
  - apply Hopen. left. vm_compute. discriminate.
  - apply Hcreate.
  - apply Hnull. reflexivity.
Defined.

(** C1 (as stated) fails: on a read-only mount, write on a directory
    handle returns -EPERM, and write on a handle opened O_RDONLY writes. *)
Lemma write_on_readonly_counterexample :
  let d := operations.opendir sample_context "/" no_handle sample_readonly in
  let f := operations.open sample_context "/f" no_handle sample_readonly in
  let w := operations.write sample_context ["X"%char] 1 0 (snd (fst f)) (snd f) in
  readonly sample_readonly = true
  /\ fst (fst d) = 0
  /\ fst (fst (operations.write sample_context ["X"%char] 1 0 (snd (fst d)) (snd d)))
     = - EPERM
  /\ fst (fst f) = 0
  /\ fst (fst w) = 1
  /\ fst (fst w) <> - EROFS
  /\ files (snd w) !! 3%N <> files sample_readonly !! 3%N.
Proof.
  vm_compute. repeat split; try reflexivity; discriminate.
Qed.

Lemma try_COMMON_CATCH_BLOCK_as_body {O} ctx (out : O) (body : M (Z * O)) s :
  operations.try_COMMON_CATCH_BLOCK ctx out (as_body body) s
  = (Normal (fst (operations.COMMON_CATCH_BLOCK ctx out body s)),
     snd (operations.COMMON_CATCH_BLOCK ctx out body s)).
Proof.
  unfold operations.try_COMMON_CATCH_BLOCK, operations.COMMON_CATCH_BLOCK, as_body.
  destruct (body s) as [[r|[n|tn m n|w]] s']; done.
Qed.




(** ** The platform code *)

(** *** FILETIME and timespec *)
Lemma wrap_ll_add_l a b : wrap_ll (wrap_ll a + b) = wrap_ll (a + b).
Proof.
  unfold wrap_ll. f_equal.
  replace ((a + 2 ^ 63) mod 2 ^ 64 - 2 ^ 63 + b + 2 ^ 63)
    with ((a + 2 ^ 63) mod 2 ^ 64 + b) by lia.
  rewrite Zplus_mod_idemp_l. f_equal. lia.
Qed.

Lemma wrap_ll_sub_l a b : wrap_ll (wrap_ll a - b) = wrap_ll (a - b).
Proof. apply (wrap_ll_add_l a (- b)). Qed.

Lemma wrap_ll_eq z : exists k, wrap_ll z = z + 2 ^ 64 * k.
Proof.
  exists (- ((z + 2 ^ 63) / 2 ^ 64)). unfold wrap_ll.
  pose proof (Z.div_mod (z + 2 ^ 63) (2 ^ 64) ltac:(lia)). lia.
Qed.

Lemma DWORD_wrap_ll z : DWORD (wrap_ll z) = DWORD z.
Proof.
  destruct (wrap_ll_eq z) as [k ->]. unfold DWORD.
  replace (z + 2 ^ 64 * k) with (z + (2 ^ 32 * k) * 2 ^ 32) by lia.
  apply Z_mod_plus_full.
Qed.

Lemma DWORD_high_wrap_ll z :
  DWORD (Z.shiftr (wrap_ll z) 32) = DWORD (Z.shiftr z 32).
Proof.
  destruct (wrap_ll_eq z) as [k ->]. unfold DWORD.
  rewrite !Z.shiftr_div_pow2 by lia.
  replace (z + 2 ^ 64 * k) with (z + (2 ^ 32 * k) * 2 ^ 32) by lia.
  rewrite Z_div_plus_full by lia.
  replace (z / 2 ^ 32 + 2 ^ 32 * k) with (z / 2 ^ 32 + k * 2 ^ 32) by lia.
  apply Z_mod_plus_full.
Qed.

Lemma filetime_ll ft :
  wrap_ll (wrap_ll (wrap_ll (Z.shiftl (dwHighDateTime ft) 32)
                    + dwLowDateTime ft) - EPOCH_DIFF)
  = wrap_ll (ticks ft - EPOCH_DIFF).
Proof.
  rewrite wrap_ll_sub_l, <- Z.add_sub_assoc, wrap_ll_add_l. unfold ticks.
  rewrite Z.shiftl_mul_pow2 by lia. f_equal. lia.
Qed.

(** X1. Every FILETIME (two DWORD fields) below 2^63 ticks, where no
    step of either conversion overflows, survives the conversion to a
    timespec and back: [unix_time_to_filetime (filetime_to_unix_time ft)]
    is [ft], also for times before 1970. *)
Theorem filetime_unix_filetime (ft : FILETIME) :
  is_FILETIME ft ->
  ticks ft < 2 ^ 63 ->
  unix_time_to_filetime (filetime_to_unix_time ft) = ft.
Proof.
  intros [Hlo Hhi] _.
  unfold filetime_to_unix_time. rewrite filetime_ll.
  set (w := wrap_ll (ticks ft - EPOCH_DIFF)).
  unfold unix_time_to_filetime; cbn [tv_sec tv_nsec].
  assert (Hr : - FACTOR < Z.rem w FACTOR < FACTOR).
  { pose proof (Z.rem_bound_abs w FACTOR ltac:(unfold FACTOR; lia)) as Hb.
    unfold FACTOR in *. lia. }
  pose proof (Z.quot_rem' w FACTOR) as Hqr.
  unfold FACTOR in *.
  rewrite (wrap_ll_small (Z.rem w 10000000 * 100)) by lia.
  rewrite Z.quot_mul by lia.
  rewrite !wrap_ll_add_l, <- !Z.add_assoc, !wrap_ll_add_l, !Z.add_assoc.
  replace (Z.quot w 10000000 * 10000000 + Z.rem w 10000000) with w by lia.
  unfold w. rewrite wrap_ll_add_l.
  replace (ticks ft - EPOCH_DIFF + EPOCH_DIFF) with (ticks ft) by lia.
  rewrite DWORD_wrap_ll, DWORD_high_wrap_ll.
  destruct ft as [lo hi]. unfold ticks, DWORD in *. cbn in *.
  rewrite Z.shiftr_div_pow2 by lia.
  f_equal.
  - rewrite Z.add_comm, Z_mod_plus_full. apply Z.mod_small; lia.
  - rewrite Z.add_comm, Z_div_plus_full by lia.
    rewrite (Z.div_small lo) by lia. apply Z.mod_small; lia.
Qed.

Lemma filetime_unix_filetime_witness :
  unix_time_to_filetime
    (filetime_to_unix_time {| dwLowDateTime := 12345; dwHighDateTime := 20000000 |})
  = {| dwLowDateTime := 12345; dwHighDateTime := 20000000 |}.
Proof.
  apply filetime_unix_filetime.
  - unfold is_FILETIME; cbn. lia.
  - unfold ticks; cbn. lia.
Defined.

Lemma unix_time_to_filetime_ticks t :
  is_timespec t ->
  is_FILETIME (unix_time_to_filetime t)
  /\ ticks (unix_time_to_filetime t)
     = tv_sec t * FACTOR + tv_nsec t / 100 + EPOCH_DIFF.
Proof.
  destruct t as [sec nsec]. unfold is_timespec, MAX_FILETIME_SEC; cbn [tv_sec tv_nsec].
  intros [Hsec Hnsec].
  assert (Hq : 0 <= nsec / 100 < 10000000).
  { split; [apply Z.div_pos; lia|apply Z.div_lt_upper_bound; lia]. }
  unfold unix_time_to_filetime, EPOCH_DIFF, FACTOR, is_FILETIME, ticks.
  cbn [tv_sec tv_nsec dwLowDateTime dwHighDateTime].
  rewrite (Z.quot_div_nonneg nsec 100) by lia.
  set (q := nsec / 100) in *.
  rewrite (wrap_ll_small (sec * 10000000)) by lia.
  rewrite (wrap_ll_small (sec * 10000000 + q)) by lia.
  rewrite (wrap_ll_small (sec * 10000000 + q + _)) by lia.
  set (ll := sec * 10000000 + q + 116444736000000000).
  assert (Hll : 0 <= ll < 2 ^ 63) by (unfold ll; lia).
  pose proof (dword_pair_join ll Hll) as Hj.
  rewrite Z.shiftl_mul_pow2 in Hj by lia.
  unfold DWORD in *.
  pose proof (Z.mod_pos_bound ll (2 ^ 32) ltac:(lia)).
  pose proof (Z.mod_pos_bound (Z.shiftr ll 32) (2 ^ 32) ltac:(lia)).
  lia.
Qed.

Lemma filetime_to_unix_time_late ft :
  is_FILETIME ft -> EPOCH_DIFF <= ticks ft < 2 ^ 63 ->
  filetime_to_unix_time ft
  = {| tv_sec := (ticks ft - EPOCH_DIFF) / FACTOR;
       tv_nsec := (ticks ft - EPOCH_DIFF) mod FACTOR * 100 |}.
Proof.
  intros _ Ht. unfold filetime_to_unix_time. rewrite filetime_ll.
  unfold EPOCH_DIFF, FACTOR in *.
  rewrite (wrap_ll_small (ticks ft - _)) by lia.
  rewrite Z.quot_div_nonneg, Z.rem_mod_nonneg by lia.
  pose proof (Z.mod_pos_bound (ticks ft - 116444736000000000) 10000000 ltac:(lia)).
  rewrite wrap_ll_small by lia. done.
Qed.

(** X2. For every timespec with [0 <= tv_sec <= MAX_FILETIME_SEC] and
    [0 <= tv_nsec < 10^9], converting to a FILETIME and back keeps the
    seconds and rounds the nanoseconds down to a multiple of 100. *)
Theorem unix_filetime_unix (t : fuse_timespec) :
  is_timespec t ->
  filetime_to_unix_time (unix_time_to_filetime t)
  = {| tv_sec := tv_sec t; tv_nsec := tv_nsec t - tv_nsec t mod 100 |}.
Proof.
  intros Ht. destruct (unix_time_to_filetime_ticks t Ht) as [Hft Htk].
  destruct Ht as [Hsec Hnsec]. unfold MAX_FILETIME_SEC in Hsec.
  assert (Hq : 0 <= tv_nsec t / 100 < 10000000).
  { split; [apply Z.div_pos; lia|apply Z.div_lt_upper_bound; lia]. }
  rewrite filetime_to_unix_time_late; [|done|rewrite Htk; unfold FACTOR, EPOCH_DIFF; lia].
  rewrite Htk.
  replace (tv_sec t * FACTOR + tv_nsec t / 100 + EPOCH_DIFF - EPOCH_DIFF)
    with (tv_nsec t / 100 + tv_sec t * FACTOR) by lia.
  unfold FACTOR. rewrite Z.div_add, Z.mod_add by lia.
  rewrite Z.div_small, Z.mod_small by lia.
  pose proof (Z.div_mod (tv_nsec t) 100 ltac:(lia)).
  f_equal; lia.
Qed.

Lemma unix_filetime_unix_witness :
  filetime_to_unix_time
    (unix_time_to_filetime {| tv_sec := 1500000000; tv_nsec := 123456789 |})
  = {| tv_sec := 1500000000; tv_nsec := 123456700 |}.
Proof.
  apply (unix_filetime_unix {| tv_sec := 1500000000; tv_nsec := 123456789 |}).
  unfold is_timespec, MAX_FILETIME_SEC; cbn. lia.
Defined.

(** X3. For a FILETIME below 2^63 ticks, [filetime_to_unix_time] keeps the
    instant exactly ([tv_sec * 10^9 + tv_nsec] is 100 times the ticks since
    1970).  From 1970 on the timespec is normalised ([tv_sec >= 0],
    [0 <= tv_nsec < 10^9]); before 1970 both fields are at most 0, so
    [tv_nsec] may be negative. *)
Theorem filetime_to_unix_time_normalised (ft : FILETIME) :
  is_FILETIME ft ->
  ticks ft < 2 ^ 63 ->
  let t := filetime_to_unix_time ft in
  tv_sec t * 1000000000 + tv_nsec t = (ticks ft - EPOCH_DIFF) * 100
  /\ (EPOCH_DIFF <= ticks ft -> 0 <= tv_sec t /\ 0 <= tv_nsec t < 1000000000)
  /\ (ticks ft < EPOCH_DIFF -> tv_sec t <= 0 /\ - 1000000000 < tv_nsec t <= 0).
Proof.
  intros Hft Hlt. cbv zeta.
  assert (H0 : 0 <= ticks ft).
  { destruct Hft. unfold ticks. lia. }
  unfold filetime_to_unix_time. rewrite filetime_ll. cbn [tv_sec tv_nsec].
  rewrite (wrap_ll_small (ticks ft - _)) by (unfold EPOCH_DIFF; lia).
  set (w := ticks ft - EPOCH_DIFF).
  pose proof (Z.quot_rem' w FACTOR) as Hqr.
  pose proof (Z.rem_bound_abs w FACTOR ltac:(unfold FACTOR; lia)) as Hb.
  unfold FACTOR in *.
  rewrite wrap_ll_small by lia.
  split; [lia|]. split.
  - intros Hge. assert (Hw : 0 <= w) by (unfold w; lia).
    rewrite Z.quot_div_nonneg, Z.rem_mod_nonneg by lia.
    pose proof (Z.mod_pos_bound w 10000000 ltac:(lia)).
    split; [apply Z.div_pos; lia|lia].
  - intros Hl. assert (Hw : w <= 0) by (unfold w; lia).
    pose proof (Z.rem_nonpos w 10000000 ltac:(lia) Hw).
    assert (Z.quot w 10000000 <= 0).
    { rewrite <- (Z.opp_involutive w), Z.quot_opp_l by lia.
      pose proof (Z.quot_pos (- w) 10000000 ltac:(lia) ltac:(lia)). lia. }
    lia.
Qed.

Lemma filetime_to_unix_time_normalised_witness :
  let t := filetime_to_unix_time {| dwLowDateTime := 5; dwHighDateTime := 0 |} in
  tv_sec t * 1000000000 + tv_nsec t = (5 - EPOCH_DIFF) * 100
  /\ tv_sec t <= 0 /\ - 1000000000 < tv_nsec t <= 0.
Proof.
  pose proof (filetime_to_unix_time_normalised
                {| dwLowDateTime := 5; dwHighDateTime := 0 |}) as H.
  cbv zeta in *. unfold is_FILETIME, ticks in H. cbn [dwLowDateTime dwHighDateTime] in H.
  destruct H as (H1 & _ & H3); [lia|lia|].
  split; [exact H1|]. apply H3. unfold EPOCH_DIFF. lia.
Defined.

(** X4. [unix_time_to_filetime] keeps the order of timespecs in range:
    an earlier or equal timespec gives a tick count that is not larger, and
    one at least 100ns earlier gives a strictly smaller one. *)
Theorem unix_time_to_filetime_monotone (t1 t2 : fuse_timespec) :
  is_timespec t1 -> is_timespec t2 ->
  timespec_le t1 t2 ->
  ticks (unix_time_to_filetime t1) <= ticks (unix_time_to_filetime t2)
  /\ (tv_sec t1 * 1000000000 + tv_nsec t1 + 100 <= tv_sec t2 * 1000000000 + tv_nsec t2 ->
      ticks (unix_time_to_filetime t1) < ticks (unix_time_to_filetime t2)).
Proof.
  intros H1 H2 Hle.
  destruct (unix_time_to_filetime_ticks t1 H1) as [_ ->].
  destruct (unix_time_to_filetime_ticks t2 H2) as [_ ->].
  destruct H1 as [_ Hn1], H2 as [_ Hn2]. unfold FACTOR.
  pose proof (Z.div_mod (tv_nsec t1) 100 ltac:(lia)).
  pose proof (Z.div_mod (tv_nsec t2) 100 ltac:(lia)).
  pose proof (Z.mod_pos_bound (tv_nsec t1) 100 ltac:(lia)).
  pose proof (Z.mod_pos_bound (tv_nsec t2) 100 ltac:(lia)).
  assert (0 <= tv_nsec t1 / 100 < 10000000).
  { split; [apply Z.div_pos; lia|apply Z.div_lt_upper_bound; lia]. }
  assert (0 <= tv_nsec t2 / 100 < 10000000).
  { split; [apply Z.div_pos; lia|apply Z.div_lt_upper_bound; lia]. }
  split.
  - destruct Hle as [Hlt|[Heq Hle]]; [lia|].
    pose proof (Z.div_le_mono (tv_nsec t1) (tv_nsec t2) 100 ltac:(lia) Hle). lia.
  - intros Hgap. lia.
Qed.

Lemma unix_time_to_filetime_monotone_witness :
  ticks (unix_time_to_filetime {| tv_sec := 10; tv_nsec := 999999999 |})
  < ticks (unix_time_to_filetime {| tv_sec := 11; tv_nsec := 99 |}).
Proof.
  apply (unix_time_to_filetime_monotone
           {| tv_sec := 10; tv_nsec := 999999999 |} {| tv_sec := 11; tv_nsec := 99 |});
    unfold is_timespec, timespec_le, MAX_FILETIME_SEC; cbn [tv_sec tv_nsec]; lia.
Defined.

(** *** convert_dword_pair *)

Lemma convert_dword_pair_add lo hi :
  0 <= lo < 2 ^ 32 -> 0 <= hi < 2 ^ 32 ->
  convert_dword_pair lo hi = lo + hi * 2 ^ 32.
Proof.
  intros Hlo Hhi. unfold convert_dword_pair, uint64.
  rewrite Z.shiftl_mul_pow2 by lia.
  rewrite (Z.mod_small (hi * 2 ^ 32)) by lia.
  rewrite <- Z.lxor_lor, <- Z.add_nocarry_lxor; [done| |].
  all: apply Z.bits_inj'; intros n Hn; rewrite Z.land_spec, Z.bits_0;
    destruct (Z.lt_ge_cases n 32);
    [ rewrite Z.mul_pow2_bits_low by lia; apply andb_false_r
    | rewrite (Z.bits_above_log2 lo n); [done|lia|];
      destruct (Z.eq_dec lo 0) as [->|]; [cbn; lia|];
      apply Z.log2_lt_pow2; [lia|];
      apply Z.lt_le_trans with (2 ^ 32); [lia|apply Z.pow_le_mono_r; lia] ].
Qed.

Lemma convert_dword_pair_split offset :
  0 <= offset < 2 ^ 64 ->
  convert_dword_pair (DWORD offset) (DWORD (Z.shiftr offset 32)) = offset.
Proof.
  intros H. unfold DWORD. rewrite Z.shiftr_div_pow2 by lia.
  assert (Hq : 0 <= offset / 2 ^ 32 < 2 ^ 32).
  { split; [apply Z.div_pos; lia|apply Z.div_lt_upper_bound; lia]. }
  rewrite (Z.mod_small (offset / 2 ^ 32)) by lia.
  rewrite convert_dword_pair_add; [|apply Z.mod_pos_bound; lia|done].
  pose proof (Z.div_mod offset (2 ^ 32) ltac:(lia)). lia.
Qed.

(** *** errorTable *)

Lemma errorTable_length : length errorTable = 268%nat.
Proof. reflexivity. Qed.

Lemma errorTable_positive : Forall (fun e => 0 < e) (tail errorTable).
Proof. apply (bool_decide_unpack _). vm_compute. exact I. Qed.

(** X5. For a Win32 code from 0 to 267, [error_number] is the entry of
    [errorTable] at that index; it is 0 for code 0 only, and a positive
    errno for every other code. *)
Theorem error_number_in_table (err : Z) :
  0 <= err <= 267 ->
  exists e, WindowsException_error_number err = Some e
            /\ errorTable !! Z.to_nat err = Some e
            /\ (err <> 0 -> 0 < e)
            /\ (err = 0 -> e = 0).
Proof.
  intros H. unfold WindowsException_error_number, sizeof_errorTable.
  rewrite errorTable_length.
  replace (0 <=? err) with true by (symmetry; apply Z.leb_le; lia).
  replace (err <? 4 * Z.of_nat 268) with true by (symmetry; apply Z.ltb_lt; lia).
  cbn [andb].
  destruct (errorTable !! Z.to_nat err) as [e|] eqn:E.
  2:{ apply lookup_ge_None in E. rewrite errorTable_length in E. lia. }
  exists e. split; [done|]. split; [done|]. split.
  - intros Hne. destruct (Z.to_nat err) as [|n] eqn:En; [lia|].
    pose proof errorTable_positive as Hp.
    rewrite Forall_lookup in Hp. apply (Hp n).
    destruct errorTable; [done|exact E].
  - intros ->. vm_compute in E. congruence.
Qed.

Lemma error_number_in_table_witness :
  exists e, WindowsException_error_number 5 = Some e /\ 0 < e.
Proof.
  destruct (error_number_in_table 5) as (e & H1 & _ & H3 & _); [lia|].
  exists e. split; [exact H1|apply H3; lia].
Defined.

(** X6. The bound that [error_number] tests is the size of the table in
    bytes (1072), not its number of entries (268): codes from 1072 on give
    EPERM, and codes from 268 to 1071 pass the test and index past the end
    of the table. *)
Theorem error_number_past_table (err : Z) :
  268 <= err ->
  (err < 1072 -> WindowsException_error_number err = None)
  /\ (1072 <= err -> WindowsException_error_number err = Some EPERM).
Proof.
  intros H. unfold WindowsException_error_number, sizeof_errorTable.
  rewrite errorTable_length.
  replace (0 <=? err) with true by (symmetry; apply Z.leb_le; lia).
  split; intros H'.
  - replace (err <? 4 * Z.of_nat 268) with true by (symmetry; apply Z.ltb_lt; lia).
    cbn [andb]. apply lookup_ge_None. rewrite errorTable_length. lia.
  - replace (err <? 4 * Z.of_nat 268) with false by (symmetry; apply Z.ltb_ge; lia).
    done.
Qed.

Lemma error_number_past_table_witness :
  WindowsException_error_number 997 = None
  /\ WindowsException_error_number 1168 = Some EPERM.
Proof.
  split.
  - apply (error_number_past_table 997); lia.
  - apply (error_number_past_table 1168); lia.
Defined.

(** *** stat_file_handle *)

(** X7. When the information block is available and the file size is
    below 2^63 - 4095, [stat_file_handle] reports the size joined from
    its two halves, a block count of 8 * ceil(size / 4096) (so 512-byte
    blocks that cover the size and overshoot it by less than 4096 bytes),
    ctim equal to mtim, gid equal to uid, and mode S_IFDIR|0777 or
    S_IFREG|0777 according to the directory attribute bit. *)
Theorem stat_file_handle_size (info : platform.BY_HANDLE_FILE_INFORMATION) (uid : Z) :
  0 <= platform.nFileSizeLow info < 2 ^ 32 ->
  0 <= platform.nFileSizeHigh info < 2 ^ 32 ->
  let size := platform.nFileSizeLow info + platform.nFileSizeHigh info * 2 ^ 32 in
  size < 2 ^ 63 - 4095 ->
  exists st,
    platform.stat_file_handle (inl info) uid = Ok st
    /\ platform.st_size st = size
    /\ platform.st_blocks st = 8 * ((size + 4095) / 4096)
    /\ size <= 512 * platform.st_blocks st < size + 4096
    /\ platform.st_ctim st = platform.st_mtim st
    /\ platform.st_gid st = platform.st_uid st
    /\ platform.st_mode st
       = Z.lor (if Z.testbit (platform.dwFileAttributes info) 4 then S_IFDIR else S_IFREG) 511.
Proof.
  intros Hlo Hhi size Hsize.
  eexists. split; [reflexivity|].
  cbn [platform.st_size platform.st_blocks platform.st_ctim platform.st_mtim
       platform.st_gid platform.st_uid platform.st_mode].
  rewrite convert_dword_pair_add by done. fold size.
  assert (H0 : 0 <= size) by (unfold size; lia).
  rewrite (wrap_ll_small size) by lia.
  rewrite (wrap_ll_small (size + 4095)) by lia.
  rewrite Z.quot_div_nonneg by lia.
  pose proof (Z.div_mod (size + 4095) 4096 ltac:(lia)) as Hd.
  pose proof (Z.mod_pos_bound (size + 4095) 4096 ltac:(lia)) as Hm.
  assert (Hq : 0 <= (size + 4095) / 4096) by (apply Z.div_pos; lia).
  change (4096 / 512) with 8.
  rewrite wrap_ll_small by lia.
  repeat split; try lia.
  replace (Z.land (platform.dwFileAttributes info) FILE_ATTRIBUTE_DIRECTORY =? 0)
    with (negb (Z.testbit (platform.dwFileAttributes info) 4)).
  { by destruct (Z.testbit (platform.dwFileAttributes info) 4). }
  change FILE_ATTRIBUTE_DIRECTORY with (2 ^ 4).
  destruct (Z.testbit _ 4) eqn:Eb; cbn [negb]; symmetry.
  - apply Z.eqb_neq. intros Hz.
    assert (Z.testbit (Z.land (platform.dwFileAttributes info) (2 ^ 4)) 4 = false)
      by (rewrite Hz; apply Z.bits_0).
    rewrite Z.land_spec, Eb, Z.pow2_bits_true in H; [done|lia].
  - apply Z.eqb_eq. apply Z.bits_inj'. intros n Hn.
    rewrite Z.land_spec, Z.bits_0, Z.pow2_bits_eqb by lia.
    destruct (Z.eqb_spec 4 n) as [<-|]; [by rewrite Eb|apply andb_false_r].
Qed.

Lemma stat_file_handle_size_witness :
  exists st,
    platform.stat_file_handle (inl sample_information) 1000 = Ok st
    /\ platform.st_size st = 4294972296
    /\ platform.st_blocks st = 8388624.
Proof.
  destruct (stat_file_handle_size sample_information 1000) as (st & H1 & H2 & H3 & _);
    [cbn; lia | cbn; lia | cbn; lia |].
  exists st. split; [exact H1|]. split; [exact H2|exact H3].
Defined.

(** *** WindowsDirectoryTraverser *)

Lemma next_loop_dot d pending :
  is_dot_entry d = true ->
  next_loop d pending =
  match pending with
  | [] => (false, d, [])
  | d' :: rest => next_loop d' rest
  end.
Proof. intros H. destruct pending; cbn; by rewrite H. Qed.

Lemma next_loop_found d pending :
  is_dot_entry d = false -> next_loop d pending = (true, d, pending).
Proof. intros H. destruct pending; cbn; by rewrite H. Qed.

Lemma drain_dot narrow_string err pending : forall d fuel,
  err = ERROR_NO_MORE_FILES ->
  is_dot_entry d = true ->
  (length pending + 1 <= fuel)%nat ->
  drain narrow_string fuel {| m_data := d; m_handle := pending; m_last_error := err |}
  = Some ((fun d => (narrow_string (cFileName d), entry_type d)) <$> filter (fun d => is_dot_entry d = false) pending).
Proof.
  induction pending as [|d' rest IH]; intros d fuel -> Hd Hf.
  - destruct fuel as [|fuel]; [cbn in Hf; lia|].
    cbn [drain]. unfold next. cbn [m_data m_handle m_last_error].
    rewrite next_loop_dot by done. done.
  - destruct fuel as [|fuel]; [cbn in Hf; lia|]. cbn [length] in Hf.
    destruct (is_dot_entry d') eqn:Hd'.
    + rewrite filter_cons_False by (rewrite Hd'; done).
      rewrite <- (IH d' (S fuel)) by (done || lia).
      cbn [drain]. unfold next. cbn [m_data m_handle m_last_error].
      by rewrite (next_loop_dot d (d' :: rest)) by done.
    + rewrite filter_cons_True by done.
      cbn [drain]. unfold next. cbn [m_data m_handle m_last_error].
      rewrite (next_loop_dot d (d' :: rest)), next_loop_found by done.
      rewrite IH; [done|done| |lia].
      unfold is_dot_entry. cbn [cFileName]. by rewrite bool_decide_eq_true_2.
Qed.

(** X8. When the search ends with ERROR_NO_MORE_FILES, calling [next]
    until it answers false yields, in the order of the search, exactly the
    entries other than [.] and [..], each once, with type S_IFREG only when
    the attributes are exactly FILE_ATTRIBUTE_NORMAL, S_IFDIR when the
    directory bit is set, and 0 otherwise; [length + 2] calls are enough. *)
Theorem traverser_lists_entries (narrow_string : list Z -> string)
    (t : WindowsDirectoryTraverser) (fuel : nat) :
  m_last_error t = ERROR_NO_MORE_FILES ->
  (length (m_handle t) + 2 <= fuel)%nat ->
  drain narrow_string fuel t
  = Some ((fun d => (narrow_string (cFileName d), entry_type d))
            <$> filter (fun d => is_dot_entry d = false) (m_data t :: m_handle t)).
Proof.
  destruct t as [d pending err]. cbn [m_data m_handle m_last_error].
  intros -> Hf.
  destruct (is_dot_entry d) eqn:Hd.
  - rewrite filter_cons_False by (rewrite Hd; done).
    apply drain_dot; [done|done|lia].
  - rewrite filter_cons_True by done.
    destruct fuel as [|fuel]; [lia|].
    cbn [drain]. unfold next. cbn [m_data m_handle m_last_error].
    rewrite next_loop_found by done.
    rewrite drain_dot; [done|done| |lia].
    unfold is_dot_entry. cbn [cFileName]. by rewrite bool_decide_eq_true_2.
Qed.

Lemma traverser_lists_entries_witness :
  drain ascii_names 6 sample_listing
  = Some [("a"%string, S_IFREG); ("b"%string, 0); ("c"%string, S_IFDIR)].
Proof.
  rewrite (traverser_lists_entries ascii_names sample_listing 6);
    [reflexivity | reflexivity | cbn; lia].
Defined.

Lemma next_loop_stops d pending d' rest :
  next_loop d pending = (false, d', rest) -> is_dot_entry d' = true /\ rest = [].
Proof.
  revert d. induction pending as [|x more IH]; intros d; cbn.
  - destruct (is_dot_entry d) eqn:Hd; intros [= <- <-]; done.
  - destruct (is_dot_entry d) eqn:Hd; [apply IH|discriminate].
Qed.

(** X9. Once [next] has answered false, it answers false again and leaves
    the traverser as it is. *)
Theorem traverser_stays_exhausted (narrow_string : list Z -> string)
    (t t' : WindowsDirectoryTraverser) :
  next narrow_string t = (Ok None, t') ->
  next narrow_string t' = (Ok None, t').
Proof.
  unfold next. destruct (next_loop (m_data t) (m_handle t)) as [[[] d] rest] eqn:E;
    [discriminate|].
  destruct (next_loop_stops _ _ _ _ E) as [Hd ->].
  destruct (m_last_error t =? ERROR_NO_MORE_FILES) eqn:He.
  - intros [= <-]. cbn [m_data m_handle m_last_error].
    rewrite next_loop_dot by done. by rewrite He.
  - unfold throwWindowsException. destruct (negb _); discriminate.
Qed.

Lemma traverser_stays_exhausted_witness :
  let t' := snd (next ascii_names exhausted_listing) in
  next ascii_names t' = (Ok None, t').
Proof.
  cbv zeta.
  apply (traverser_stays_exhausted ascii_names exhausted_listing).
  reflexivity.
Defined.

(** *** OSService::norm_path *)

Lemma norm_path_relative_eq widen_string m_dir_name path :
  m_dir_name <> [] -> is_relative path ->
  OSService.norm_path widen_string m_dir_name path
  = (fun c => if c =? L_slash then L_backslash else c)
    <$> (m_dir_name ++ widen_string path).
Proof.
  intros Hd Hp. unfold OSService.norm_path.
  rewrite bool_decide_eq_false_2 by done.
  destruct path as [|c rest]; [done|]. destruct Hp as (H1 & H2 & H3).
  cbn [is_empty orb].
  apply Ascii.eqb_neq in H1, H2. rewrite H1, H2. cbn [orb].
  destruct rest as [|c1 [|c2 rest]]; [done|done|].
  apply Ascii.eqb_neq in H3. cbn. by rewrite H3.
Qed.

(** X10. With a data directory set, [norm_path] of a relative path (not
    empty, no leading separator, no drive letter) is the directory name
    followed by the widened path with every [/] replaced by a backslash:
    same length, no [/] left, every other code unit unchanged. *)
Theorem norm_path_relative (widen_string : string -> list Z)
    (m_dir_name : list Z) (path : string) :
  m_dir_name <> [] -> is_relative path ->
  let r := OSService.norm_path widen_string m_dir_name path in
  length r = (length m_dir_name + length (widen_string path))%nat
  /\ (L_slash ∉ r)
  /\ forall i c, (m_dir_name ++ widen_string path) !! i = Some c ->
       r !! i = Some (if c =? L_slash then L_backslash else c).
Proof.
  intros Hd Hp r. unfold r. rewrite norm_path_relative_eq by done.
  split; [by rewrite length_fmap, length_app|]. split.
  - intros Hin. apply list_elem_of_fmap in Hin as (c & Hc & _).
    destruct (Z.eqb_spec c L_slash); [discriminate|congruence].
  - intros i c Hi. by rewrite list_lookup_fmap, Hi.
Qed.

Lemma norm_path_relative_witness :
  L_slash ∉ OSService.norm_path ascii_units [67; 58; 47; 100; 92] "a/b".
Proof.
  pose proof (norm_path_relative ascii_units [67; 58; 47; 100; 92] "a/b") as H.
  cbv zeta in H. destruct H as (_ & H & _); [done|cbn; done|]. exact H.
Defined.

(** *** WindowsFileStream *)

Lemma read32_host data offset n :
  0 <= offset < 2 ^ 64 ->
  WindowsFileStream.read32 (host_ReadFile data) offset n
  = Ok (take (Z.to_nat n) (drop (Z.to_nat offset) data)).
Proof.
  intros H. unfold WindowsFileStream.read32, host_ReadFile.
  rewrite convert_dword_pair_split by done.
  destruct (Z.ltb_spec offset (Z.of_nat (length data))); [done|].
  rewrite Z.eqb_refl, drop_ge by lia. by rewrite take_nil.
Qed.

Lemma uint64_small z : 0 <= z < 2 ^ 64 -> uint64 z = z.
Proof. apply Z.mod_small. Qed.

Lemma read_from_host data fuel : forall output offset length,
  0 <= offset -> 0 <= length -> offset + length < 2 ^ 64 ->
  (Z.to_nat length <= fuel)%nat ->
  WindowsFileStream.read_from (host_ReadFile data) fuel output offset length
  = Some (Ok (output ++ take (Z.to_nat length) (drop (Z.to_nat offset) data))).
Proof.
  induction fuel as [|fuel IH]; intros output offset len Ho Hl Hsum Hf.
  - assert (len = 0) as -> by lia. cbn.
    rewrite read32_host by lia. done.
  - cbn [WindowsFileStream.read_from].
    destruct (Z.ltb_spec MAX_SINGLE_BLOCK len) as [Hbig|Hsmall].
    + rewrite read32_host by lia.
      set (D := drop (Z.to_nat offset) data).
      set (bytes := take (Z.to_nat MAX_SINGLE_BLOCK) D).
      assert (Hlen : (length bytes <= Z.to_nat MAX_SINGLE_BLOCK)%nat).
      { unfold bytes. rewrite length_take. lia. }
      unfold MAX_SINGLE_BLOCK in *.
      destruct (Z.eqb_spec (Z.of_nat (length bytes)) 0) as [Hz|Hnz].
      * assert (HD : D = []).
        { destruct (take_nil_inv D (Z.to_nat (2 ^ 32 - 1))) as [?|?]; [|lia|done].
          apply nil_length_inv. fold bytes. lia. }
        by rewrite HD, take_nil, app_nil_r.
      * rewrite !uint64_small by lia.
        rewrite IH by lia. do 2 f_equal. rewrite <- app_assoc. f_equal.
        replace (Z.to_nat (offset + Z.of_nat (length bytes)))
          with (Z.to_nat offset + length bytes)%nat by lia.
        rewrite <- drop_drop. fold D.
        replace (Z.to_nat len)
          with (length bytes + Z.to_nat (len - Z.of_nat (length bytes)))%nat by lia.
        rewrite <- take_take_drop. f_equal.
        unfold bytes. rewrite length_take.
        destruct (Nat.le_ge_cases (Z.to_nat (2 ^ 32 - 1)) (length D)).
        -- by rewrite Nat.min_l.
        -- by rewrite Nat.min_r, !take_ge by lia.
    + rewrite read32_host by lia. unfold DWORD, MAX_SINGLE_BLOCK in *.
      by rewrite Z.mod_small by lia.
Qed.

(** X11. Over a host file holding [data], [read] returns the bytes of
    [data] from [offset], at most [length] of them and none past the end,
    for every length (also above MAX_SINGLE_BLOCK, where it reads in
    pieces), provided [offset + length < 2^64]. *)
Theorem read_in_pieces (data : list ascii) (offset length : Z) :
  0 <= offset -> 0 <= length -> offset + length < 2 ^ 64 ->
  WindowsFileStream.read (host_ReadFile data) offset length
  = Some (Ok (take (Z.to_nat length) (drop (Z.to_nat offset) data))).
Proof.
  intros Ho Hl Hs. unfold WindowsFileStream.read.
  by rewrite read_from_host by (done || lia).
Qed.

Lemma read_in_pieces_witness :
  WindowsFileStream.read (host_ReadFile (list_ascii_of_string "abcdef")) 4 10
  = Some (Ok (list_ascii_of_string "ef")).
Proof.
  apply (read_in_pieces (list_ascii_of_string "abcdef") 4 10); lia.
Defined.

Lemma write_at_nonempty data off buf :
  buf <> [] ->
  write_at data off buf
  = take off (data ++ replicate (off - length data) NUL) ++ buf
    ++ drop (off + length buf) data.
Proof. by destruct buf. Qed.

Lemma write_at_write_at data off a b :
  write_at (write_at data off a) (off + length a) b = write_at data off (a ++ b).
Proof.
  destruct a as [|x a]; [by rewrite Nat.add_0_r|].
  destruct b as [|y b]; [by rewrite app_nil_r|].
  rewrite (write_at_nonempty _ _ (y :: b)) by done.
  rewrite (write_at_nonempty _ _ (x :: a)) by done.
  rewrite (write_at_nonempty _ _ ((x :: a) ++ y :: b)) by done.
  set (P := take off (data ++ replicate (off - length data) NUL)).
  assert (HP : length P = off).
  { unfold P. rewrite length_take, length_app, length_replicate. lia. }
  set (A := x :: a). set (B := y :: b).
  set (T := drop (off + length A) data).
  assert (Hd : (off + length A <= length (P ++ A ++ T))%nat).
  { rewrite !length_app. lia. }
  replace (off + length A - length (P ++ A ++ T))%nat with 0%nat by lia.
  cbn [replicate]. rewrite app_nil_r.
  rewrite (app_assoc P A T).
  rewrite take_app_length' by (rewrite length_app; lia).
  rewrite drop_app_ge by (rewrite length_app; lia).
  replace (off + length A + length B - length (P ++ A))%nat with (length B)
    by (rewrite length_app; lia).
  unfold T. rewrite drop_drop, length_app.
  rewrite <- !app_assoc. by rewrite Nat.add_assoc.
Qed.

Lemma write32_host data input offset n :
  0 <= offset < 2 ^ 64 -> 0 <= n -> (Z.to_nat n <= length input)%nat ->
  WindowsFileStream.write32 host_WriteFile data input offset n
  = Ok (write_at data (Z.to_nat offset) (take (Z.to_nat n) input)).
Proof.
  intros Ho Hn Hi. unfold WindowsFileStream.write32, host_WriteFile.
  rewrite convert_dword_pair_split by done.
  rewrite length_take_le by done.
  by rewrite Z2Nat.id, Z.eqb_refl by done.
Qed.

Lemma write_from_host fuel : forall data input offset length,
  0 <= offset -> 0 <= length -> offset + length < 2 ^ 64 ->
  (Z.to_nat length <= List.length input)%nat ->
  (Z.to_nat length <= fuel)%nat ->
  WindowsFileStream.write_from host_WriteFile fuel data input offset length
  = Some (Ok (write_at data (Z.to_nat offset) (take (Z.to_nat length) input))).
Proof.
  induction fuel as [|fuel IH]; intros data input offset len Ho Hl Hsum Hi Hf.
  - assert (len = 0) as -> by lia. cbn [WindowsFileStream.write_from].
    change (MAX_SINGLE_BLOCK <? 0) with false. cbn iota.
    rewrite write32_host by (done || lia). done.
  - cbn [WindowsFileStream.write_from].
    destruct (Z.ltb_spec MAX_SINGLE_BLOCK len) as [Hbig|Hsmall].
    + unfold MAX_SINGLE_BLOCK in *.
      rewrite write32_host by lia.
      rewrite !uint64_small by lia.
      rewrite IH; [|lia|lia|lia|rewrite length_drop; lia|lia].
      do 2 f_equal.
      set (m := Z.to_nat (2 ^ 32 - 1)).
      replace (Z.to_nat (offset + (2 ^ 32 - 1)))
        with (Z.to_nat offset + length (take m input))%nat
        by (rewrite length_take_le; lia).
      rewrite write_at_write_at. f_equal.
      replace (Z.to_nat (len - (2 ^ 32 - 1))) with (Z.to_nat len - m)%nat by lia.
      replace (Z.to_nat len) with (m + (Z.to_nat len - m))%nat at 2 by lia.
      by rewrite take_take_drop.
    + unfold DWORD, MAX_SINGLE_BLOCK in *.
      rewrite (Z.mod_small len) by lia.
      by rewrite write32_host by lia.
Qed.

(** X12. Over a host file that takes every write in full, [write] of the
    first [length] bytes of [input] leaves the file as one write of those
    bytes at [offset] would, for every length (also above
    MAX_SINGLE_BLOCK), provided [offset + length < 2^64] and [input] holds
    [length] bytes. *)
Theorem write_in_pieces (data input : list ascii) (offset length : Z) :
  0 <= offset -> 0 <= length -> offset + length < 2 ^ 64 ->
  (Z.to_nat length <= List.length input)%nat ->
  WindowsFileStream.write host_WriteFile data input offset length
  = Some (Ok (write_at data (Z.to_nat offset) (take (Z.to_nat length) input))).
Proof.
  intros Ho Hl Hs Hi. unfold WindowsFileStream.write.
  by rewrite write_from_host by (done || lia).
Qed.

Lemma write_in_pieces_witness :
  WindowsFileStream.write host_WriteFile (list_ascii_of_string "abc")
    (list_ascii_of_string "XYZ") 5 2
  = Some (Ok (list_ascii_of_string "abc" ++ [NUL; NUL] ++ list_ascii_of_string "XY")%list).
Proof.
  apply (write_in_pieces (list_ascii_of_string "abc") (list_ascii_of_string "XYZ") 5 2);
    cbn; lia.
Defined.

(** ** The operations keep the filesystem settled *)

Lemma settled_incref i s : is_Some (files s !! i) -> settled s -> settled (incref i s).
Proof.
  intros Hi [H1 H2]. split.
  - intros j o Hj Hn. change (is_Some (opened (incref i s) !! j)).
    cbn. destruct (decide (j = i)) as [->|Hne]; [by rewrite lookup_insert_eq|].
    rewrite lookup_insert_ne by done. by apply (H1 j o).
  - intros j n Hj. change (is_Some (files s !! j)).
    cbn in Hj. destruct (decide (j = i)) as [->|Hne]; [done|].
    rewrite lookup_insert_ne in Hj by done. by apply (H2 j n).
Qed.

Lemma settled_close i s : settled s -> settled (close i s).
Proof.
  intros [H1 H2]. unfold close.
  destruct (opened s !! i) as [n|] eqn:Hi; [|done].
  destruct (decide (n = 1%positive)) as [->|Hn].
  - destruct (H2 i 1%positive Hi) as [o Hf]. cbn in Hf. rewrite Hf.
    destruct (decide (fb_nlink o = 0)) as [Hz|Hz]; split.
    + intros j oj Hj Hnj. cbn [files opened with_files with_opened] in Hj |- *.
      destruct (decide (j = i)) as [->|Hne];
        [by rewrite (lookup_delete_eq (files s)) in Hj|].
      rewrite (lookup_delete_ne (files s)) in Hj by done.
      rewrite (lookup_delete_ne (opened s)) by done. by apply (H1 j oj).
    + intros j n Hj. cbn [files opened with_files with_opened] in Hj |- *.
      destruct (decide (j = i)) as [->|Hne];
        [by rewrite (lookup_delete_eq (opened s)) in Hj|].
      rewrite (lookup_delete_ne (opened s)) in Hj by done.
      rewrite (lookup_delete_ne (files s)) by done. by apply (H2 j n).
    + intros j oj Hj Hnj. cbn [files opened with_files with_opened] in Hj |- *.
      destruct (decide (j = i)) as [->|Hne]; [congruence|].
      rewrite (lookup_delete_ne (opened s)) by done. by apply (H1 j oj).
    + intros j n Hj. cbn [files opened with_files with_opened] in Hj |- *.
      destruct (decide (j = i)) as [->|Hne];
        [by rewrite (lookup_delete_eq (opened s)) in Hj|].
      rewrite (lookup_delete_ne (opened s)) in Hj by done. by apply (H2 j n).
  - split.
    + intros j oj Hj Hnj. cbn [files opened with_files with_opened] in Hj |- *.
      destruct (decide (j = i)) as [->|Hne]; [by rewrite lookup_insert_eq|].
      rewrite lookup_insert_ne by done. by apply (H1 j oj).
    + intros j m Hj. cbn [files opened with_files with_opened] in Hj |- *.
      destruct (decide (j = i)) as [->|Hne]; [by apply (H2 i n)|].
      rewrite lookup_insert_ne in Hj by done. by apply (H2 j m).
Qed.

Lemma settled_touch_linked f t s : keeps_linked f -> settled s -> settled (touch f t s).
Proof.
  intros Hf [H1 H2]. split.
  - intros i o Hi Hn. cbn [files opened with_files with_opened touch] in Hi |- *.
    destruct (decide (i = t)) as [->|Hne].
    + rewrite lookup_alter_eq in Hi.
      destruct (files s !! t) as [o0|] eqn:E; [|done].
      injection Hi as <-. by apply (H1 t o0), Hf.
    + rewrite lookup_alter_ne in Hi by done. by apply (H1 i o).
  - intros i n Hi. cbn [files opened with_files with_opened touch] in Hi |- *.
    specialize (H2 i n Hi). cbn in H2.
    destruct (decide (i = t)) as [->|Hne].
    + rewrite lookup_alter_eq. destruct H2 as [o ->]. by eexists.
    + by rewrite lookup_alter_ne.
Qed.

Lemma settled_touch_live f t s :
  is_Some (opened s !! t) -> settled s -> settled (touch f t s).
Proof.
  intros Hl [H1 H2]. split.
  - intros i o Hi Hn. cbn [files opened with_files with_opened touch] in Hi |- *.
    destruct (decide (i = t)) as [->|Hne]; [done|].
    rewrite lookup_alter_ne in Hi by done. by apply (H1 i o).
  - intros i n Hi. cbn [files opened with_files with_opened touch] in Hi |- *.
    specialize (H2 i n Hi). cbn in H2.
    destruct (decide (i = t)) as [->|Hne].
    + rewrite lookup_alter_eq. destruct H2 as [o ->]. by eexists.
    + by rewrite lookup_alter_ne.
Qed.

Lemma settled_create_as ctx id type s :
  settled s -> settled (snd (FileTable_create_as ctx id type s)).
Proof.
  intros [H1 H2]. unfold FileTable_create_as.
  destruct (files s !! id) eqn:Hid; [done|]. cbn [snd]. split.
  - intros i o Hi Hn. cbn [files opened with_files with_opened touch] in Hi |- *.
    destruct (decide (i = id)) as [->|Hne]; [by rewrite lookup_insert_eq|].
    rewrite lookup_insert_ne in Hi by done. rewrite lookup_insert_ne by done.
    by apply (H1 i o).
  - intros i n Hi. cbn [files opened with_files with_opened touch] in Hi |- *.
    destruct (decide (i = id)) as [->|Hne]; [by rewrite lookup_insert_eq|].
    rewrite lookup_insert_ne in Hi by done. rewrite lookup_insert_ne by done.
    by apply (H2 i n).
Qed.

(** *** Rules for [keeps] *)

Lemma keeps_ret {A} (a : A) : keeps (mret a).
Proof. by intros s. Qed.

Lemma keeps_throw {A} e : keeps (@throw A e).
Proof. by intros s. Qed.

Lemma keeps_bind {A B} (m : M A) (k : A -> M B) :
  keeps m -> (forall a, keeps (k a)) -> keeps (m ≫= k).
Proof.
  intros Hm Hk s Hs. unfold mbind, M_bind, bind.
  specialize (Hm s Hs). destruct (m s) as [[a|e] s']; [|done].
  by apply Hk.
Qed.

Lemma keeps_finally {A} (m : M A) i : keeps m -> keeps (finally m (FileGuard_dtor i)).
Proof.
  intros Hm s Hs. unfold finally. specialize (Hm s Hs).
  destruct (m s) as [r s']. by apply settled_close.
Qed.

Lemma keeps_on_throw {A} (m : M A) i : keeps m -> keeps (on_throw m (FileGuard_dtor i)).
Proof.
  intros Hm s Hs. unfold on_throw. specialize (Hm s Hs).
  destruct (m s) as [[a|e] s']; [done|]. by apply settled_close.
Qed.

Lemma keeps_try_catch {A} (m : M A) h :
  keeps m -> (forall e, keeps (h e)) -> keeps (try_catch m h).
Proof.
  intros Hm Hh s Hs. unfold try_catch. specialize (Hm s Hs).
  destruct (m s) as [[a|e] s']; [done|]. by apply Hh.
Qed.

Lemma keeps_gets {A} (f : FileSystem -> A) : keeps (gets f).
Proof. by intros s. Qed.

Lemma keeps_deref fb : keeps (deref fb).
Proof. intros s Hs. unfold deref. by destruct (files s !! fb). Qed.

Lemma keeps_stream fb : keeps (stream fb).
Proof.
  intros s Hs. unfold stream. destruct (faults s !! fb); [done|].
  unfold bind, deref. by destruct (files s !! fb).
Qed.

Lemma keeps_update fb f : keeps_linked f -> keeps (update fb f).
Proof. intros Hf s Hs. by apply settled_touch_linked. Qed.

Lemma keeps_put_stream fb p : keeps (put_stream fb p).
Proof. apply keeps_update. by intros o. Qed.

Lemma keeps_reset fb : keeps (FileGuard_reset fb).
Proof. intros s Hs. by apply settled_close. Qed.

Lemma keeps_open_as id type : keeps (FileTable_open_as id type).
Proof.
  intros s Hs. unfold FileTable_open_as.
  destruct (files s !! id) as [o|] eqn:Hid; [|done].
  destruct (decide _); [|done]. apply settled_incref; [by rewrite Hid|done].
Qed.

Lemma keeps_create_as ctx id type : keeps (FileTable_create_as ctx id type).
Proof. intros s Hs. by apply settled_create_as. Qed.

Lemma keeps_bad_cast {A} : keeps (@bad_cast A).
Proof. by intros s. Qed.

Lemma keeps_if {A} (b : bool) (m1 m2 : M A) :
  keeps m1 -> keeps m2 -> keeps (if b then m1 else m2).
Proof. by destruct b. Qed.

Lemma keeps_decide {A} P `{Decision P} (m1 m2 : M A) :
  keeps m1 -> keeps m2 -> keeps (if decide P then m1 else m2).
Proof. by destruct (decide P). Qed.

Create HintDb keeps.

#[local] Hint Resolve keeps_ret keeps_throw keeps_finally keeps_on_throw
  keeps_try_catch keeps_gets keeps_deref keeps_stream keeps_put_stream keeps_reset
  keeps_open_as keeps_create_as keeps_bad_cast keeps_if keeps_decide : keeps.

Ltac keeps_step :=
  match goal with
  | |- keeps (_ ≫= _) => apply keeps_bind; [|intros ?]
  | |- keeps (finally _ _) => apply keeps_finally
  | |- keeps (on_throw _ _) => apply keeps_on_throw
  | |- keeps (try_catch _ _) => apply keeps_try_catch; [|intros ?]
  | |- keeps (let _ := _ in _) => cbv zeta
  | |- keeps (match ?x with _ => _ end) => destruct x
  | |- keeps (update _ _) => apply keeps_update; intros ?; cbn; solve [done | lia | congruence]
  | |- keeps _ => solve [auto with keeps]
  end.

Ltac keeps_auto := repeat keeps_step.

Lemma keeps_FileBase_type fb : keeps (FileBase_type fb).
Proof. unfold FileBase_type. keeps_auto. Qed.

Lemma keeps_FileBase_stat fb : keeps (FileBase_stat fb).
Proof. unfold FileBase_stat. keeps_auto. Qed.

Lemma keeps_FileBase_get_mode fb : keeps (FileBase_get_mode fb).
Proof. unfold FileBase_get_mode. keeps_auto. Qed.

Lemma keeps_FileBase_set_uid fb u : keeps (FileBase_set_uid fb u).
Proof. unfold FileBase_set_uid. keeps_auto. Qed.

Lemma keeps_FileBase_set_gid fb g : keeps (FileBase_set_gid fb g).
Proof. unfold FileBase_set_gid. keeps_auto. Qed.

Lemma keeps_FileBase_set_mode fb m : keeps (FileBase_set_mode fb m).
Proof. unfold FileBase_set_mode. keeps_auto. Qed.

Lemma keeps_FileBase_set_nlink fb n : n <> 0 -> keeps (FileBase_set_nlink fb n).
Proof. intros Hn. unfold FileBase_set_nlink. keeps_auto. Qed.

Lemma keeps_FileBase_flush fb : keeps (FileBase_flush fb).
Proof. unfold FileBase_flush. keeps_auto. Qed.

Lemma keeps_Directory_get_entry d n : keeps (Directory_get_entry d n).
Proof. unfold Directory_get_entry. keeps_auto. Qed.

Lemma keeps_Directory_add_entry d n i t : keeps (Directory_add_entry d n i t).
Proof. unfold Directory_add_entry. keeps_auto. Qed.

Lemma keeps_Directory_remove_entry d n : keeps (Directory_remove_entry d n).
Proof. unfold Directory_remove_entry. keeps_auto. Qed.

Lemma keeps_Directory_iterate {B} d cb (b : B) :
  keeps (Directory_iterate_over_entries d cb b).
Proof. unfold Directory_iterate_over_entries. keeps_auto. Qed.

Lemma keeps_Symlink_set fb t : keeps (Symlink_set fb t).
Proof. unfold Symlink_set. keeps_auto. Qed.

Lemma keeps_Symlink_get fb : keeps (Symlink_get fb).
Proof. unfold Symlink_get. keeps_auto. Qed.

Lemma keeps_RegularFile_read fb off len : keeps (RegularFile_read fb off len).
Proof. unfold RegularFile_read. keeps_auto. Qed.

Lemma keeps_RegularFile_write fb b off len : keeps (RegularFile_write fb b off len).
Proof. unfold RegularFile_write. keeps_auto. Qed.

Lemma keeps_RegularFile_truncate fb size : keeps (RegularFile_truncate fb size).
Proof. unfold RegularFile_truncate. keeps_auto. Qed.

#[local] Hint Resolve keeps_FileBase_type keeps_FileBase_stat keeps_FileBase_get_mode
  keeps_FileBase_set_uid keeps_FileBase_set_gid keeps_FileBase_set_mode
  keeps_FileBase_flush keeps_Directory_get_entry keeps_Directory_add_entry
  keeps_Directory_remove_entry keeps_Directory_iterate keeps_Symlink_set
  keeps_Symlink_get keeps_RegularFile_read keeps_RegularFile_write
  keeps_RegularFile_truncate : keeps.

Lemma keeps_open_all ctx path : keeps (open_all ctx path).
Proof.
  intros s Hs. rewrite open_all_spec by done.
  destruct (resolve_all s (split path "/")) as [t|e] eqn:Hr; [|done].
  apply settled_incref; [|done]. by eapply resolve_all_file.
Qed.

Lemma keeps_open_base_dir ctx path : keeps (open_base_dir ctx path).
Proof.
  intros s Hs. rewrite open_base_dir_spec by done.
  destruct (resolve_base s (split path "/")) as [[d l]|e] eqn:Hr; [|done].
  apply settled_incref; [|done]. by eapply resolve_base_file.
Qed.

Lemma keeps_create ctx path type id : keeps (internal.create ctx path type id).
Proof.
  intros s Hs. rewrite create_spec by done.
  destruct (resolve_base s (split path "/")) as [[dir l]|e] eqn:Hr; [|done].
  destruct (files s !! id) as [o|] eqn:Hid; [done|].
  destruct (entry_of s dir l) as [[e|]|e] eqn:He; [done| |done].
  destruct (entry_of_absent _ _ _ He) as (od & entries & Hod & Hp & Hfl & Hn).
  cbn [snd]. rewrite created_linked. by eapply settled_linked_live.
Qed.

(** The object [remove] unlinks is held by a guard at that moment. *)
Lemma keeps_unlink_opened id type :
  keeps (to_be_removed ← table_open_as id type;
         finally (FileBase_unlink to_be_removed) (FileGuard_dtor to_be_removed)).
Proof.
  intros s Hs. unfold table_open_as, mbind, M_bind, bind.
  rewrite FileTable_open_as_eq.
  destruct (openable s id type) as [j|e] eqn:Ho; [|done].
  destruct (openable_file _ _ _ _ Ho) as (-> & o & Hf & _).
  unfold finally, FileBase_unlink, FileBase_set_nlink, update, modify, FileGuard_dtor,
    FileGuard_reset, FileTable_close. cbn [snd].
  apply settled_close.
  apply (settled_touch_live _ id (incref id s)).
  - cbn. by rewrite lookup_insert_eq.
  - apply settled_incref; [by rewrite Hf|done].
Qed.

Lemma keeps_remove ctx path : keeps (internal.remove ctx path).
Proof.
  unfold internal.remove. apply keeps_bind; [apply keeps_open_base_dir|].
  intros [dir l]. apply keeps_finally.
  destruct (is_empty l); [apply keeps_throw|].
  apply keeps_bind; [auto with keeps|]. intros [[id type]|]; [|apply keeps_throw].
  apply keeps_bind; [auto with keeps|]. intros _. apply keeps_unlink_opened.
Qed.

#[local] Hint Resolve keeps_open_all keeps_open_base_dir keeps_create keeps_remove
  : keeps.

Lemma keeps_catch {O} ctx (out : O) body s :
  keeps body -> settled s -> settled (snd (operations.COMMON_CATCH_BLOCK ctx out body s)).
Proof.
  intros Hb Hs. rewrite COMMON_CATCH_BLOCK_eq. specialize (Hb s Hs).
  destruct (body s) as [[r|e] s']; [done|]. by apply settled_logged.
Qed.

Lemma keeps_is_readonly ctx : keeps (is_readonly ctx).
Proof. by intros s. Qed.

#[local] Hint Resolve keeps_is_readonly : keeps.

Lemma keeps_set_nlink_1 fb : keeps (FileBase_set_nlink fb 1).
Proof. by apply keeps_FileBase_set_nlink. Qed.

#[local] Hint Resolve keeps_set_nlink_1 : keeps.

Lemma serve_settled ctx r s : settled s -> settled (serve ctx r s).
Proof.
  intros Hs. destruct r; cbn [serve];
    unfold operations.releasedir, operations.rmdir;
    lazymatch goal with
    | |- settled (snd (operations.readlink _ _ _ _ _)) =>
        unfold operations.readlink; destruct (_ =? 0); [done|]
    | |- _ => idtac
    end;
    (apply keeps_catch; [|done]);
    keeps_auto.
Qed.

(** X13. Every callback keeps the filesystem settled, whatever its
    arguments and outcome; so every state reached from a settled mount by
    any sequence of calls is settled: no object with nlink 0 is left
    without a live reference, and every live object has its host files. *)
Theorem operations_keep_settled (ctx : fuse_context) (rs : list request)
    (s : FileSystem) :
  settled s -> settled (serve_all ctx rs s).
Proof.
  revert s. induction rs as [|r rs IH]; intros s Hs; [done|].
  cbn. apply IH. by apply serve_settled.
Qed.

Lemma operations_keep_settled_witness :
  settled (serve_all sample_context
             [call_mkdir "/d" 493 9%N;
              call_create "/d/f" 420 no_handle 10%N;
              call_unlink "/d";
              call_release {| flags := O_RDONLY; fh := Some 10%N |}]
             sample).
Proof.
  apply operations_keep_settled. apply sample_mount_settled.
Defined.

(** ** Further operations in closed form *)

Ltac run_monad :=
  unfold mbind, M_bind, bind, modify, mret, M_ret, ret, throw, gets.

Lemma with_guard_on_throw {A} ctx path (body : id_type -> M A) s t :
  settled s ->
  resolve_all s (split path "/") = Return t ->
  (fg ← open_all ctx path; on_throw (body fg) (FileGuard_dtor fg)) s
  = on_throw (body t) (FileGuard_dtor t) (incref t s).
Proof.
  intros Hs Hr. unfold mbind at 1. unfold M_bind, bind.
  by rewrite open_all_spec, Hr by done.
Qed.

Lemma with_guard_finally {A} ctx path (body : id_type -> M A) s t :
  settled s ->
  resolve_all s (split path "/") = Return t ->
  (fg ← open_all ctx path; finally (body fg) (FileGuard_dtor fg)) s
  = finally (body t) (FileGuard_dtor t) (incref t s).
Proof.
  intros Hs Hr. unfold mbind at 1. unfold M_bind, bind.
  by rewrite open_all_spec, Hr by done.
Qed.

Lemma FileBase_type_eq fb s o :
  files s !! fb = Some o ->
  FileBase_type fb s = (Return (payload_type (fb_payload o)), s).
Proof. intros Ho. unfold FileBase_type, deref. run_monad. by rewrite Ho. Qed.

Lemma open_denied ctx path info s :
  write_access info = true -> readonly s = true ->
  operations.open ctx path info s = ((- EROFS, info), s).
Proof.
  intros Hw Hro. unfold operations.open. fold (write_access info). rewrite Hw.
  rewrite COMMON_CATCH_BLOCK_eq.
  unfold is_readonly, FileTable_is_readonly. run_monad. by rewrite Hro.
Qed.

Lemma open_body ctx path info s :
  write_access info && readonly s = false ->
  operations.open ctx path info s
  = operations.COMMON_CATCH_BLOCK ctx info
      (fg ← open_all ctx path;
       on_throw
         (t ← FileBase_type fg;
          if decide (t ≠ REGULAR_FILE)
          then FileGuard_reset fg;; mret (- EPERM, info)
          else
            (if negb (Z.land (flags info) O_TRUNC =? 0)
             then RegularFile_truncate fg 0
             else mret tt);;
            mret (0, set_fh fg info))
         (FileGuard_dtor fg)) s.
Proof.
  intros Hd. unfold operations.open. fold (write_access info).
  rewrite !COMMON_CATCH_BLOCK_eq.
  unfold is_readonly, FileTable_is_readonly.
  destruct (write_access info); cbn [andb] in Hd.
  - unfold mbind at 1. unfold M_bind, bind, gets. by rewrite Hd.
  - done.
Qed.

Lemma open_spec ctx path info s t o :
  settled s ->
  write_access info && readonly s = false ->
  resolve_all s (split path "/") = Return t ->
  files s !! t = Some o ->
  operations.open ctx path info s =
  match fb_payload o with
  | RegularFile data =>
      if Z.land (flags info) O_TRUNC =? 0 then ((0, set_fh t info), incref t s)
      else match faults s !! t with
           | Some f =>
               ((error_code (exception_of_fault f), info),
                logged ctx (exception_of_fault f) s)
           | None =>
               ((0, set_fh t info),
                touch (set_payload (RegularFile (resize data 0))) t (incref t s))
           end
  | _ => ((- EPERM, info), s)
  end.
Proof.
  intros Hs Hd Hr Ho. rewrite open_body by done.
  rewrite COMMON_CATCH_BLOCK_eq, (with_guard_on_throw ctx path _ s t) by done.
  pose proof (settled_settled_at s t Hs) as Hst.
  unfold on_throw. unfold mbind at 1. unfold M_bind, bind.
  rewrite (FileBase_type_eq t (incref t s) o) by done.
  destruct (fb_payload o) as [data| |] eqn:Hp; cbn [payload_type].
  - rewrite decide_False by (by intros []).
    destruct (Z.land (flags info) O_TRUNC =? 0); cbn [negb]; [done|].
    unfold RegularFile_truncate, stream, put_stream, update, deref. run_monad.
    cbn [faults files incref with_opened]. destruct (faults s !! t) as [f|].
    + unfold FileGuard_dtor, FileGuard_reset, FileTable_close, modify. cbn [snd].
      by rewrite close_incref.
    + by rewrite Ho, Hp.
  - rewrite decide_True by done.
    unfold FileGuard_reset, FileTable_close. run_monad.
    by rewrite close_incref.
  - rewrite decide_True by done.
    unfold FileGuard_reset, FileTable_close. run_monad.
    by rewrite close_incref.
Qed.

Lemma open_throw ctx path info s e :
  settled s ->
  write_access info && readonly s = false ->
  resolve_all s (split path "/") = Throw e ->
  operations.open ctx path info s = ((error_code e, info), logged ctx e s).
Proof.
  intros Hs Hd Hr. rewrite open_body by done. rewrite COMMON_CATCH_BLOCK_eq.
  unfold mbind at 1. unfold M_bind, bind. by rewrite open_all_spec, Hr by done.
Qed.

Lemma opendir_spec ctx path info s t o :
  settled s ->
  resolve_all s (split path "/") = Return t ->
  files s !! t = Some o ->
  operations.opendir ctx path info s =
  if decide (payload_type (fb_payload o) = DIRECTORY)
  then ((0, set_fh t info), incref t s)
  else ((- ENOTDIR, info), s).
Proof.
  intros Hs Hr Ho. unfold operations.opendir.
  rewrite COMMON_CATCH_BLOCK_eq, (with_guard_on_throw ctx path _ s t) by done.
  pose proof (settled_settled_at s t Hs) as Hst.
  unfold on_throw. unfold mbind at 1. unfold M_bind, bind.
  rewrite (FileBase_type_eq t (incref t s) o) by done.
  destruct (decide (payload_type (fb_payload o) = DIRECTORY)) as [->|Hn].
  - by rewrite decide_False by (by intros []).
  - rewrite decide_True by done.
    unfold FileGuard_reset, FileTable_close. run_monad.
    by rewrite close_incref.
Qed.

Lemma opendir_throw ctx path info s e :
  settled s ->
  resolve_all s (split path "/") = Throw e ->
  operations.opendir ctx path info s = ((error_code e, info), logged ctx e s).
Proof.
  intros Hs Hr. unfold operations.opendir. rewrite COMMON_CATCH_BLOCK_eq.
  unfold mbind at 1. unfold M_bind, bind. by rewrite open_all_spec, Hr by done.
Qed.

Lemma release_spec ctx info s fb :
  fh info = Some fb ->
  operations.release ctx info s = ((0, tt), close fb s).
Proof.
  intros Hfh. unfold operations.release. rewrite COMMON_CATCH_BLOCK_eq, Hfh.
  unfold FileBase_flush, FileGuard_reset, FileTable_close. by run_monad.
Qed.

Lemma truncate_spec ctx path size s t o :
  settled s ->
  resolve_all s (split path "/") = Return t ->
  files s !! t = Some o ->
  operations.truncate ctx path size s =
  match fb_payload o with
  | RegularFile data =>
      match faults s !! t with
      | Some f =>
          ((error_code (exception_of_fault f), tt), logged ctx (exception_of_fault f) s)
      | None =>
          ((0, tt), touch (set_payload (RegularFile (resize data (Z.to_nat size)))) t s)
      end
  | _ => ((- EINVAL, tt), s)
  end.
Proof.
  intros Hs Hr Ho. unfold operations.truncate.
  rewrite COMMON_CATCH_BLOCK_eq, (with_guard_finally ctx path _ s t) by done.
  pose proof (settled_settled_at s t Hs) as Hst.
  unfold finally. unfold mbind at 1. unfold M_bind, bind.
  rewrite (FileBase_type_eq t (incref t s) o) by done.
  unfold FileGuard_dtor, FileGuard_reset, FileTable_close, modify.
  destruct (fb_payload o) as [data| |] eqn:Hp; cbn [payload_type].
  - rewrite decide_False by (by intros []).
    unfold RegularFile_truncate, FileBase_flush, stream, put_stream, update, deref.
    run_monad. cbn [faults files incref with_opened].
    destruct (faults s !! t) as [f|]; cbn [snd].
    + by rewrite close_incref.
    + rewrite Ho, Hp. cbn [snd].
      change (with_files _ (incref t s))
        with (touch (set_payload (RegularFile (resize data (Z.to_nat size)))) t
                (incref t s)).
      by rewrite close_touch_incref.
  - rewrite decide_True by done. run_monad. cbn [snd]. by rewrite close_incref.
  - rewrite decide_True by done. run_monad. cbn [snd]. by rewrite close_incref.
Qed.

Lemma readlink_wrong_type ctx path buf size s t o :
  settled s -> size <> 0 ->
  resolve_all s (split path "/") = Return t ->
  files s !! t = Some o ->
  payload_type (fb_payload o) <> SYMLINK ->
  operations.readlink ctx path buf size s = ((- EINVAL, buf), s).
Proof.
  intros Hs Hsz Hr Ho Hn. unfold operations.readlink.
  rewrite (proj2 (Z.eqb_neq size 0) Hsz).
  rewrite COMMON_CATCH_BLOCK_eq, (with_guard_finally ctx path _ s t) by done.
  unfold finally. unfold mbind at 1. unfold M_bind, bind.
  rewrite (FileBase_type_eq t (incref t s) o) by done.
  rewrite decide_True by done.
  unfold FileGuard_dtor, FileGuard_reset, FileTable_close. run_monad. cbn [snd].
  by rewrite close_incref by (by apply settled_settled_at).
Qed.

Lemma readlink_throw ctx path buf size s e :
  settled s -> size <> 0 ->
  resolve_all s (split path "/") = Throw e ->
  operations.readlink ctx path buf size s = ((error_code e, buf), logged ctx e s).
Proof.
  intros Hs Hsz Hr. unfold operations.readlink.
  rewrite (proj2 (Z.eqb_neq size 0) Hsz). rewrite COMMON_CATCH_BLOCK_eq.
  unfold mbind at 1. unfold M_bind, bind. by rewrite open_all_spec, Hr by done.
Qed.

Lemma readlink_fault ctx path buf size s t o f :
  settled s -> size <> 0 ->
  resolve_all s (split path "/") = Return t ->
  files s !! t = Some o ->
  payload_type (fb_payload o) = SYMLINK ->
  faults s !! t = Some f ->
  operations.readlink ctx path buf size s
  = ((error_code (exception_of_fault f), buf), logged ctx (exception_of_fault f) s).
Proof.
  intros Hs Hsz Hr Ho Hp Hf. unfold operations.readlink.
  rewrite (proj2 (Z.eqb_neq size 0) Hsz).
  rewrite COMMON_CATCH_BLOCK_eq, (with_guard_finally ctx path _ s t) by done.
  unfold finally. unfold mbind at 1. unfold M_bind, bind.
  rewrite (FileBase_type_eq t (incref t s) o) by done.
  rewrite decide_False by (by rewrite Hp; intros []).
  unfold Symlink_get, stream. run_monad. cbn [faults incref with_opened].
  rewrite Hf. unfold FileGuard_dtor, FileGuard_reset, FileTable_close, modify.
  cbn [snd]. by rewrite close_incref by (by apply settled_settled_at).
Qed.

Lemma chown_spec ctx path uid gid s :
  settled s ->
  operations.chown ctx path uid gid s =
  match resolve_all s (split path "/") with
  | Throw e => ((error_code e, tt), logged ctx e s)
  | Return t => ((0, tt), touch (chown_header uid gid) t s)
  end.
Proof.
  intros Hs. unfold operations.chown. rewrite COMMON_CATCH_BLOCK_eq.
  destruct (resolve_all s (split path "/")) as [t|e] eqn:Hr.
  - rewrite (with_guard_finally ctx path _ s t) by done.
    unfold finally, FileBase_set_uid, FileBase_set_gid, FileBase_flush, update,
      FileGuard_dtor, FileGuard_reset, FileTable_close.
    run_monad. cbn [snd files incref with_opened with_files].
    rewrite alter_alter_eq, (alter_ext _ (chown_header uid gid) (files s) t) by done.
    f_equal.
    change (close t (touch (chown_header uid gid) t (incref t s))
            = touch (chown_header uid gid) t s).
    apply close_touch_incref; [done|by apply settled_settled_at].
  - unfold mbind at 1. unfold M_bind, bind. by rewrite open_all_spec, Hr by done.
Qed.

(** ** Handles *)

Lemma andb_true_both a b : a && b = true -> a = true /\ b = true.
Proof. by destruct a, b. Qed.

Lemma open_success ctx path info info1 s s1 :
  settled s ->
  Z.land (flags info) O_TRUNC = 0 ->
  operations.open ctx path info s = ((0, info1), s1) ->
  exists fb o data,
    resolve_all s (split path "/") = Return fb
    /\ files s !! fb = Some o /\ fb_payload o = RegularFile data
    /\ info1 = set_fh fb info /\ s1 = incref fb s.
Proof.
  intros Hs Htr Hop.
  destruct (write_access info && readonly s) eqn:Hd.
  { apply andb_true_both in Hd as [Hw Hro]. by rewrite open_denied in Hop. }
  destruct (resolve_all s (split path "/")) as [t|e] eqn:Hr.
  2:{ rewrite (open_throw ctx path info s e) in Hop by done.
      injection Hop as Hc _. by apply resolve_all_throw in Hr. }
  destruct (resolve_all_file _ _ _ Hr) as [o Ho].
  rewrite (open_spec ctx path info s t o) in Hop by done.
  rewrite Htr in Hop. cbn [Z.eqb] in Hop.
  destruct (fb_payload o) as [data| |] eqn:Hp; [|done..].
  injection Hop as <- <-. by exists t, o, data.
Qed.

Lemma opendir_success ctx path info info1 s s1 :
  settled s ->
  operations.opendir ctx path info s = ((0, info1), s1) ->
  exists fb o,
    resolve_all s (split path "/") = Return fb
    /\ files s !! fb = Some o /\ payload_type (fb_payload o) = DIRECTORY
    /\ info1 = set_fh fb info /\ s1 = incref fb s.
Proof.
  intros Hs Hop.
  destruct (resolve_all s (split path "/")) as [t|e] eqn:Hr.
  2:{ rewrite (opendir_throw ctx path info s e) in Hop by done.
      injection Hop as Hc _. by apply resolve_all_throw in Hr. }
  destruct (resolve_all_file _ _ _ Hr) as [o Ho].
  rewrite (opendir_spec ctx path info s t o) in Hop by done.
  destruct (decide _) as [Hd|Hd]; [|done].
  injection Hop as <- <-. by exists t, o.
Qed.

(** X14. After an open without O_TRUNC, or an opendir, that returned 0,
    the handle is the object the path resolves to, the files are unchanged
    and that object has one reference more; release (or releasedir) of the
    handle returns 0 and gives back the filesystem as it was before. *)
Theorem open_then_release (ctx : fuse_context) (s s1 : FileSystem)
    (path : string) (info info1 : fuse_file_info) :
  settled s ->
  (Z.land (flags info) O_TRUNC = 0
   /\ operations.open ctx path info s = ((0, info1), s1))
  \/ operations.opendir ctx path info s = ((0, info1), s1) ->
  exists fb,
    fh info1 = Some fb
    /\ resolve_all s (split path "/") = Return fb
    /\ files s1 = files s
    /\ opened s1 !! fb = Some (match opened s !! fb with
                               | Some n => Pos.succ n
                               | None => 1%positive
                               end)
    /\ operations.release ctx info1 s1 = ((0, tt), s)
    /\ operations.releasedir ctx info1 s1 = ((0, tt), s).
Proof.
  intros Hs Hop.
  assert (exists fb, resolve_all s (split path "/") = Return fb
                     /\ info1 = set_fh fb info /\ s1 = incref fb s)
    as (fb & Hr & -> & ->).
  { destruct Hop as [[Htr Hop]|Hop].
    - destruct (open_success _ _ _ _ _ _ Hs Htr Hop) as (fb & o & d & ? & _ & _ & ? & ?).
      by exists fb.
    - destruct (opendir_success _ _ _ _ _ _ Hs Hop) as (fb & o & ? & _ & _ & ? & ?).
      by exists fb. }
  exists fb. split; [done|]. split; [done|]. split; [done|]. split.
  { cbn. by rewrite lookup_insert_eq. }
  unfold operations.releasedir.
  rewrite (release_spec ctx (set_fh fb info) (incref fb s) fb) by done.
  by rewrite close_incref by (by apply settled_settled_at).
Qed.

Lemma open_then_release_witness :
  operations.release sample_context
    (snd (fst (operations.open sample_context "/f" no_handle sample)))
    (snd (operations.open sample_context "/f" no_handle sample))
  = ((0, tt), sample).
Proof.
  destruct (open_then_release sample_context sample
              (snd (operations.open sample_context "/f" no_handle sample)) "/f"
              no_handle
              (snd (fst (operations.open sample_context "/f" no_handle sample))))
    as (fb & _ & _ & _ & _ & H & _).
  - apply sample_mount_settled.
  - left. split; [reflexivity|]. vm_compute. reflexivity.
  - exact H.
Defined.

(** ** Creation followed by removal *)

Lemma resolve_base_last s cs d l :
  resolve_base s cs = Return (d, l) -> cs <> [] -> l = List.last cs EmptyString.
Proof.
  unfold resolve_base. intros Hr Hne.
  destruct (openable s (root_id s) DIRECTORY) as [r|]; [|done].
  destruct cs as [|c cs]; [done|].
  destruct (walk s r (removelast (c :: cs))); [|done].
  by injection Hr as _ <-.
Qed.

Lemma resolve_base_name s path d l :
  resolve_base s (split path "/") = Return (d, l) -> split path "/" <> [] ->
  is_empty l = false.
Proof.
  intros Hr Hne. rewrite (resolve_base_last _ _ _ _ Hr Hne).
  by apply split_last_nonempty.
Qed.

Lemma unlink_link_entry l id type od entries :
  fb_payload od = Directory entries -> entries !! l = None ->
  unlink_entry l (link_entry l id type od) = od.
Proof.
  intros Hp Hn. unfold link_entry. rewrite Hp. unfold unlink_entry, set_payload.
  cbn [fb_payload fb_uid fb_gid fb_mode fb_nlink].
  rewrite delete_insert_id by done. destruct od; cbn in *. by subst.
Qed.

Section Unlinked.
Context (ctx : fuse_context) (dir : id_type) (name : string) (id : id_type)
        (type : file_type) (f : FileBase -> FileBase) (s : FileSystem).
Context (od : FileBase) (entries : gmap string (id_type * file_type)).
Hypothesis Hid : files s !! id = None.
Hypothesis Hdir : files s !! dir = Some od.
Hypothesis Hod : fb_payload od = Directory entries.
Hypothesis Hname : entries !! name = None.

(** Removing the entry and the object again gives the files back. *)
Lemma unlinked_files :
  delete id (alter mark_unlinked id (alter (unlink_entry name) dir
     (files (linked ctx dir name id type f s)))) = files s.
Proof.
  assert (Hne : dir <> id) by congruence.
  apply map_eq. intros i. unfold linked. cbn [files with_files].
  destruct (decide (i = id)) as [->|Hi].
  { by rewrite lookup_delete_eq, Hid. }
  rewrite lookup_delete_ne, lookup_alter_ne by done.
  destruct (decide (i = dir)) as [->|Hd].
  - rewrite lookup_alter_eq, lookup_alter_ne, lookup_alter_eq by done.
    rewrite lookup_insert_ne, Hdir by done. cbn.
    by rewrite (unlink_link_entry name id type od entries).
  - by rewrite !lookup_alter_ne, lookup_insert_ne by done.
Qed.

Lemma removed_linked :
  opened s !! id = None ->
  removed dir name id (linked ctx dir name id type f s) = s.
Proof.
  intros Hop. unfold removed. change (opened (linked _ _ _ _ _ _ s)) with (opened s).
  rewrite Hop. unfold touch. cbn [files with_files].
  rewrite unlinked_files.
  unfold linked, with_files. by destruct s.
Qed.

Lemma removed_linked_open :
  opened s !! id = None ->
  let s1 := with_opened (<[id := 1%positive]> (opened s))
              (linked ctx dir name id type f s) in
  removed dir name id s1
  = touch mark_unlinked id (touch (unlink_entry name) dir s1)
  /\ close id (removed dir name id s1) = s.
Proof.
  intros Hop s1.
  assert (Hne : dir <> id) by congruence.
  assert (Hrm : removed dir name id s1
                = touch mark_unlinked id (touch (unlink_entry name) dir s1)).
  { unfold removed. change (opened s1) with (<[id := 1%positive]> (opened s)).
    by rewrite lookup_insert_eq. }
  split; [done|]. rewrite Hrm. unfold close.
  change (opened (touch _ _ (touch _ _ s1))) with (<[id := 1%positive]> (opened s)).
  rewrite lookup_insert_eq, decide_True by done.
  unfold touch at 1 2. cbn [files with_files].
  rewrite lookup_alter_eq, lookup_alter_ne by done.
  change (files s1) with (files (linked ctx dir name id type f s)).
  unfold linked at 1. cbn [files with_files].
  rewrite lookup_alter_eq, lookup_alter_ne, lookup_insert_eq by done.
  cbn [fmap option_fmap option_map mark_unlinked fb_nlink].
  rewrite decide_True by done.
  unfold touch. cbn [files with_files opened with_opened].
  change (files s1) with (files (linked ctx dir name id type f s)).
  rewrite unlinked_files.
  rewrite delete_insert_id by done.
  unfold s1, linked, with_files, with_opened. by destruct s.
Qed.

Lemma resolve_all_linked cs op :
  resolve_base s cs = Return (dir, name) ->
  is_empty name = false ->
  faults s !! dir = None ->
  payload_type (fb_payload (f (fresh_object ctx type))) = type ->
  resolve_all (with_opened op (linked ctx dir name id type f s)) cs = Return id.
Proof.
  intros Hr Hl Hfl Hty.
  set (s1 := with_opened op (linked ctx dir name id type f s)).
  assert (Hext : extends s s1).
  { apply extends_with_opened. by eapply extends_linked. }
  unfold resolve_all. rewrite (resolve_base_extends _ _ _ _ Hext Hr), Hl.
  rewrite (entry_of_entries s1 dir (<[name := (id, type)]> entries))
    by (by apply (entries_of_linked ctx dir name id type f s od entries)).
  rewrite lookup_insert_eq.
  unfold openable, FileTable_open_as, s1. cbn [files with_opened].
  rewrite (linked_lookup_id ctx dir name id type f s od Hid Hdir).
  by rewrite decide_True.
Qed.

End Unlinked.

Lemma mkdir_success ctx path mode id s s1 :
  settled s ->
  operations.mkdir ctx path mode id s = ((0, tt), s1) ->
  exists dir l od entries,
    readonly s = false
    /\ resolve_base s (split path "/") = Return (dir, l)
    /\ files s !! id = None
    /\ files s !! dir = Some od /\ fb_payload od = Directory entries
    /\ faults s !! dir = None /\ entries !! l = None
    /\ s1 = linked ctx dir l id DIRECTORY (stamp ctx (mkdir_mode mode)) s.
Proof.
  intros Hs. unfold operations.mkdir. rewrite COMMON_CATCH_BLOCK_eq.
  unfold is_readonly, FileTable_is_readonly.
  unfold mbind at 1. unfold M_bind, bind, gets.
  destruct (readonly s) eqn:Hro; [done|].
  unfold mbind at 1. unfold M_bind, bind. rewrite create_spec by done.
  destruct (resolve_base s (split path "/")) as [[dir l]|e] eqn:Hr.
  2: { intros [= Hc _]. by apply resolve_base_throw in Hr. }
  destruct (files s !! id) as [o|] eqn:Hid; [done|].
  destruct (entry_of s dir l) as [[e|]|e] eqn:He; [done| |].
  2: { intros [= Hc _]. by apply entry_of_throw in He. }
  destruct (entry_of_absent _ _ _ He) as (od & entries & Hod & Hp & Hfl & Hn).
  assert (Hne : dir <> id) by congruence.
  pose proof (settled_fresh _ _ Hs Hid) as Hop.
  unfold finally, FileGuard_dtor, FileGuard_reset, FileTable_close.
  unfold FileBase_type, FileBase_set_uid, FileBase_set_gid, FileBase_set_nlink,
    FileBase_set_mode, FileBase_flush, deref, update.
  unfold mbind, M_bind, bind, modify, mret, M_ret, ret.
  assert (Hl : files (created ctx dir l id DIRECTORY s) !! id
               = Some (fresh_object ctx DIRECTORY)).
  { unfold created; cbn. by rewrite lookup_alter_ne, lookup_insert_eq. }
  rewrite Hl. cbn [fresh_object fb_payload empty_payload payload_type].
  rewrite decide_False by (by intros []).
  cbn [files with_files with_opened created snd].
  rewrite !alter_alter_eq.
  intros [= <-]. exists dir, l, od, entries. repeat (split; [done|]).
  rewrite (close_last_reference id s); [|done|done|].
  - unfold linked, with_opened, with_files; cbn. by f_equal.
  - cbn. rewrite lookup_alter_eq, lookup_alter_ne, lookup_insert_eq by done.
    cbn. by intros o [= <-].
Qed.

Lemma unlink_op_spec ctx path s r s' :
  readonly s = false ->
  internal.remove ctx path s = (Return r, s') ->
  operations.unlink ctx path s = ((0, tt), s').
Proof.
  intros Hro Hrm. unfold operations.unlink. rewrite COMMON_CATCH_BLOCK_eq.
  unfold is_readonly, FileTable_is_readonly.
  unfold mbind at 1. unfold M_bind, bind, gets. rewrite Hro.
  unfold mbind, M_bind, bind. by rewrite Hrm.
Qed.

(** X15. For a path with at least one component: after a mkdir that
    returned 0, rmdir of the same path returns 0 and gives back the
    filesystem exactly as it was before the mkdir. *)
Theorem mkdir_then_rmdir (ctx : fuse_context) (s s1 : FileSystem)
    (path : string) (mode : Z) (id : id_type) :
  settled s ->
  split path "/" <> [] ->
  operations.mkdir ctx path mode id s = ((0, tt), s1) ->
  operations.rmdir ctx path s1 = ((0, tt), s).
Proof.
  intros Hs Hne Hmk.
  destruct (mkdir_success _ _ _ _ _ _ Hs Hmk)
    as (dir & l & od & entries & Hro & Hr & Hid & Hod & Hp & Hfl & Hn & ->).
  set (f := stamp ctx (mkdir_mode mode)).
  set (s1 := linked ctx dir l id DIRECTORY f s).
  assert (Hs1 : settled s1) by (by eapply settled_linked).
  assert (Hext : extends s s1) by (by eapply extends_linked).
  pose proof (resolve_base_name _ _ _ _ Hr Hne) as Hl.
  unfold operations.rmdir.
  apply (unlink_op_spec ctx path s1 tt); [done|].
  rewrite (remove_spec ctx path s1 dir l id DIRECTORY (f (fresh_object ctx DIRECTORY)));
    try done.
  - f_equal. apply (removed_linked ctx dir l id DIRECTORY f s od entries); try done.
    by apply settled_fresh.
  - by apply (resolve_base_extends s).
  - rewrite (entry_of_entries s1 dir (<[l := (id, DIRECTORY)]> entries))
      by (by apply (entries_of_linked ctx dir l id DIRECTORY f s od entries)).
    by rewrite lookup_insert_eq.
  - by apply (linked_lookup_id ctx dir l id DIRECTORY f s od).
  - unfold holds_entries, s1.
    by rewrite (linked_lookup_id ctx dir l id DIRECTORY f s od Hid Hod).
  - congruence.
Qed.

Lemma mkdir_then_rmdir_witness :
  operations.rmdir sample_context "/a/d"
    (snd (operations.mkdir sample_context "/a/d" 493 9%N sample))
  = ((0, tt), sample).
Proof.
  apply (mkdir_then_rmdir sample_context sample _ "/a/d" 493 9%N).
  - apply sample_mount_settled.
  - vm_compute. discriminate.
  - vm_compute. reflexivity.
Defined.

(** X16. For a path with at least one component: after a create that
    returned 0, unlink of the path returns 0 while the handle is open; the
    object then still exists with nlink 0, its (empty) contents and the one
    reference of the handle, and release of the handle purges it and gives
    back the filesystem exactly as it was before the create. *)
Theorem create_unlink_release (ctx : fuse_context) (s s1 : FileSystem)
    (path : string) (mode : Z) (info info1 : fuse_file_info) (id : id_type) :
  settled s ->
  split path "/" <> [] ->
  operations.create ctx path mode info id s = ((0, info1), s1) ->
  exists s2 o,
    operations.unlink ctx path s1 = ((0, tt), s2)
    /\ files s2 !! id = Some o /\ fb_nlink o = 0
    /\ fb_payload o = RegularFile []
    /\ opened s2 !! id = Some 1%positive
    /\ operations.release ctx info1 s2 = ((0, tt), s).
Proof.
  intros Hs Hne Hc.
  destruct (readonly s) eqn:Hro.
  { by rewrite create_op_readonly in Hc. }
  rewrite create_op_spec in Hc by done.
  destruct (resolve_base s (split path "/")) as [[dir l]|e] eqn:Hr.
  2: { injection Hc as Hc _. by apply resolve_base_throw in Hr. }
  destruct (files s !! id) as [o|] eqn:Hid; [done|].
  destruct (entry_of s dir l) as [[e|]|e] eqn:He; [done| |].
  2: { injection Hc as Hc _. by apply entry_of_throw in He. }
  injection Hc as <- <-.
  destruct (entry_of_absent _ _ _ He) as (od & entries & Hod & Hp & Hfl & Hn).
  set (f := stamp ctx (create_mode mode)) in *.
  set (s1 := with_opened _ (linked ctx dir l id REGULAR_FILE f s)) in *.
  assert (Hs1 : settled s1) by (by eapply settled_linked_live).
  assert (Hext : extends s s1).
  { apply extends_with_opened. by eapply extends_linked. }
  pose proof (resolve_base_name _ _ _ _ Hr Hne) as Hl.
  pose proof (settled_fresh _ _ Hs Hid) as Hop.
  assert (Hne' : dir <> id) by congruence.
  destruct (removed_linked_open ctx dir l id REGULAR_FILE f s od entries
              Hid Hod Hp Hn Hop) as [Hrm Hcl].
  fold s1 in Hrm, Hcl.
  exists (removed dir l id s1), (mark_unlinked (f (fresh_object ctx REGULAR_FILE))).
  split.
  { apply (unlink_op_spec ctx path s1 tt); [done|].
    apply (remove_spec ctx path s1 dir l id REGULAR_FILE
             (f (fresh_object ctx REGULAR_FILE))); try done.
    - by apply (resolve_base_extends s).
    - rewrite (entry_of_entries s1 dir (<[l := (id, REGULAR_FILE)]> entries))
        by (by apply (entries_of_linked ctx dir l id REGULAR_FILE f s od entries)).
      by rewrite lookup_insert_eq.
    - by apply (linked_lookup_id ctx dir l id REGULAR_FILE f s od).
    - unfold holds_entries, s1. cbn [files with_opened].
      by rewrite (linked_lookup_id ctx dir l id REGULAR_FILE f s od Hid Hod). }
  split.
  { rewrite Hrm. unfold touch. cbn [files with_files].
    rewrite lookup_alter_eq, lookup_alter_ne by done.
    change (files s1) with (files (linked ctx dir l id REGULAR_FILE f s)).
    by rewrite (linked_lookup_id ctx dir l id REGULAR_FILE f s od Hid Hod). }
  split; [done|]. split; [done|]. split.
  { rewrite Hrm. cbn. by rewrite lookup_insert_eq. }
  rewrite (release_spec ctx (set_fh id info) _ id) by done. by rewrite Hcl.
Qed.

Lemma create_unlink_release_witness :
  let c := operations.create sample_context "/x" 420 no_handle 7%N sample in
  let u := operations.unlink sample_context "/x" (snd c) in
  fst u = (0, tt)
  /\ operations.release sample_context (snd (fst c)) (snd u) = ((0, tt), sample).
Proof.
  cbv zeta.
  destruct (create_unlink_release sample_context sample
              (snd (operations.create sample_context "/x" 420 no_handle 7%N sample))
              "/x" 420 no_handle
              (snd (fst (operations.create sample_context "/x" 420 no_handle 7%N sample)))
              7%N)
    as (s2 & o & Hu & _ & _ & _ & _ & Hrel).
  - apply sample_mount_settled.
  - vm_compute. discriminate.
  - vm_compute. reflexivity.
  - rewrite Hu. cbn [fst snd]. split; [reflexivity|exact Hrel].
Defined.

(** ** Objects of the wrong kind *)

(** X17. When the path resolves to an object of another kind, the
    callbacks refuse and leave the filesystem unchanged (the guard is
    released): open returns -EPERM and truncate -EINVAL unless the object
    is a regular file, opendir returns -ENOTDIR unless it is a directory,
    readlink returns -EINVAL unless it is a symlink.  For open this is
    for flags that pass its read-only test (no write access asked on a
    read-only mount). *)
Theorem wrong_type_refused (ctx : fuse_context) (s : FileSystem) (path : string)
    (t : id_type) (o : FileBase) :
  settled s ->
  resolve_all s (split path "/") = Return t ->
  files s !! t = Some o ->
  (payload_type (fb_payload o) <> REGULAR_FILE ->
     (forall info, write_access info && readonly s = false ->
        operations.open ctx path info s = ((- EPERM, info), s))
     /\ (forall size, operations.truncate ctx path size s = ((- EINVAL, tt), s)))
  /\ (payload_type (fb_payload o) <> DIRECTORY ->
        forall info, operations.opendir ctx path info s = ((- ENOTDIR, info), s))
  /\ (payload_type (fb_payload o) <> SYMLINK ->
        forall buf size, operations.readlink ctx path buf size s = ((- EINVAL, buf), s)).
Proof.
  intros Hs Hr Ho. split; [|split].
  - intros Hn. split.
    + intros info Hd. rewrite (open_spec ctx path info s t o) by done.
      by destruct (fb_payload o).
    + intros size. rewrite (truncate_spec ctx path size s t o) by done.
      by destruct (fb_payload o).
  - intros Hn info. rewrite (opendir_spec ctx path info s t o) by done.
    by rewrite decide_False.
  - intros Hn buf size. destruct (Z.eq_dec size 0) as [->|Hsz].
    + by unfold operations.readlink.
    + by apply (readlink_wrong_type ctx path buf size s t o).
Qed.

Lemma wrong_type_refused_witness :
  operations.open sample_context "/a" no_handle sample = ((- EPERM, no_handle), sample)
  /\ operations.opendir sample_context "/f" no_handle sample
     = ((- ENOTDIR, no_handle), sample)
  /\ operations.readlink sample_context "/f" link_buffer 8 sample
     = ((- EINVAL, link_buffer), sample).
Proof.
  destruct (wrong_type_refused sample_context sample "/a" 2%N
              (sample_object (Z.lor S_IFDIR 493) (Directory sample_a_entries)))
    as (H1 & _ & _); [apply sample_mount_settled|reflexivity|reflexivity|].
  destruct (wrong_type_refused sample_context sample "/f" 3%N
              (sample_object (Z.lor S_IFREG 420)
                 (RegularFile (list_ascii_of_string "abc"))))
    as (_ & H2 & H3); [apply sample_mount_settled|reflexivity|reflexivity|].
  split; [|split].
  - apply H1; [by cbn|reflexivity].
  - by apply H2.
  - by apply H3.
Defined.

(** ** Read-only mounts *)

(** X18. On a read-only mount unlink, rmdir, mkdir and symlink return
    -EROFS for all arguments and leave the filesystem unchanged. *)
Theorem readonly_refuses_namespace_changes (ctx : fuse_context) (s : FileSystem) :
  readonly s = true ->
  (forall path, operations.unlink ctx path s = ((- EROFS, tt), s))
  /\ (forall path, operations.rmdir ctx path s = ((- EROFS, tt), s))
  /\ (forall path mode id, operations.mkdir ctx path mode id s = ((- EROFS, tt), s))
  /\ (forall to from id, operations.symlink ctx to from id s = ((- EROFS, tt), s)).
Proof.
  intros Hro.
  assert (Hu : forall path, operations.unlink ctx path s = ((- EROFS, tt), s)).
  { intros path. unfold operations.unlink. rewrite COMMON_CATCH_BLOCK_eq.
    unfold is_readonly, FileTable_is_readonly.
    unfold mbind at 1. unfold M_bind, bind, gets. by rewrite Hro. }
  split; [done|]. split; [done|]. split.
  - intros path mode id. unfold operations.mkdir. rewrite COMMON_CATCH_BLOCK_eq.
    unfold is_readonly, FileTable_is_readonly.
    unfold mbind at 1. unfold M_bind, bind, gets. by rewrite Hro.
  - intros to from id. unfold operations.symlink. rewrite COMMON_CATCH_BLOCK_eq.
    unfold is_readonly, FileTable_is_readonly.
    unfold mbind at 1. unfold M_bind, bind, gets. by rewrite Hro.
Qed.

Lemma readonly_refuses_namespace_changes_witness :
  operations.unlink sample_context "/f" sample_readonly = ((- EROFS, tt), sample_readonly)
  /\ operations.mkdir sample_context "/d" 493 9%N sample_readonly
     = ((- EROFS, tt), sample_readonly).
Proof.
  destruct (readonly_refuses_namespace_changes sample_context sample_readonly)
    as (H1 & _ & H3 & _); [reflexivity|].
  split; [apply H1|apply H3].
Defined.

(** ** What getattr reports after creation and chown *)

Lemma land_type_bits mode type_bits :
  Z.land type_bits S_IFMT = type_bits ->
  Z.land (Z.lor (Z.land mode (uint32_not S_IFMT)) type_bits) S_IFMT = type_bits
  /\ Z.land (Z.lor (Z.land mode (uint32_not S_IFMT)) type_bits) 4095
     = Z.land mode 4095.
Proof.
  intros Ht. split.
  - rewrite Z.land_lor_distr_l, <- Z.land_assoc, Ht.
    change (Z.land (uint32_not S_IFMT) S_IFMT) with 0.
    by rewrite Z.land_0_r.
  - rewrite Z.land_lor_distr_l, <- !Z.land_assoc.
    change (Z.land (uint32_not S_IFMT) 4095) with 4095.
    rewrite <- Ht, <- Z.land_assoc.
    change (Z.land S_IFMT 4095) with 0.
    by rewrite Z.land_0_r, Z.lor_0_r.
Qed.

(** X20. For a path with at least one component: after a create that
    returned 0, getattr of the path returns 0 and reports the type bits
    S_IFREG whatever type bits [mode] had, the low 12 bits of [mode],
    nlink 1 and the uid and gid of the calling context. *)
Theorem create_then_stat (ctx : fuse_context) (s s1 : FileSystem)
    (path : string) (mode : Z) (info info1 : fuse_file_info) (id : id_type)
    (st : stat) :
  settled s ->
  split path "/" <> [] ->
  operations.create ctx path mode info id s = ((0, info1), s1) ->
  exists st1,
    operations.getattr ctx path st s1 = ((0, st1), s1)
    /\ Z.land (st_mode st1) S_IFMT = S_IFREG
    /\ Z.land (st_mode st1) 4095 = Z.land mode 4095
    /\ st_nlink st1 = 1
    /\ st_uid st1 = ctx_uid ctx /\ st_gid st1 = ctx_gid ctx.
Proof.
  intros Hs Hne Hc.
  destruct (readonly s) eqn:Hro.
  { by rewrite create_op_readonly in Hc. }
  rewrite create_op_spec in Hc by done.
  destruct (resolve_base s (split path "/")) as [[dir l]|e] eqn:Hr.
  2: { injection Hc as Hc _. by apply resolve_base_throw in Hr. }
  destruct (files s !! id) as [o|] eqn:Hid; [done|].
  destruct (entry_of s dir l) as [[e|]|e] eqn:He; [done| |].
  2: { injection Hc as Hc _. by apply entry_of_throw in He. }
  injection Hc as <- <-.
  destruct (entry_of_absent _ _ _ He) as (od & entries & Hod & Hp & Hfl & Hn).
  set (f := stamp ctx (create_mode mode)) in *.
  set (s1 := with_opened _ (linked ctx dir l id REGULAR_FILE f s)) in *.
  assert (Hs1 : settled s1) by (by eapply settled_linked_live).
  pose proof (resolve_base_name _ _ _ _ Hr Hne) as Hl.
  eexists. rewrite getattr_spec by done.
  unfold s1 at 1.
  rewrite (resolve_all_linked ctx dir l id REGULAR_FILE f s od entries) by done.
  change (files s1) with (files (linked ctx dir l id REGULAR_FILE f s)).
  rewrite (linked_lookup_id ctx dir l id REGULAR_FILE f s od Hid Hod).
  split; [reflexivity|]. cbn [stat_of st_mode st_nlink st_uid st_gid f stamp
                              fb_mode fb_nlink fb_uid fb_gid].
  unfold create_mode.
  destruct (land_type_bits mode S_IFREG eq_refl) as [-> ->]. done.
Qed.

Lemma create_then_stat_witness :
  exists st1,
    operations.getattr sample_context "/x" no_stat (snd first_create)
    = ((0, st1), snd first_create)
    /\ Z.land (st_mode st1) S_IFMT = S_IFREG
    /\ st_nlink st1 = 1.
Proof.
  destruct (create_then_stat sample_context sample (snd first_create) "/x" 420
              no_handle (snd (fst first_create)) 7%N no_stat)
    as (st1 & H1 & H2 & _ & H3 & _).
  - apply sample_mount_settled.
  - vm_compute. discriminate.
  - vm_compute. reflexivity.
  - by exists st1.
Defined.

(** X21. For a path with at least one component: after a mkdir that
    returned 0, getattr of the path returns 0 and reports the type bits
    S_IFDIR, the low 12 bits of [mode], nlink 1 and the uid and gid of the
    calling context; the new directory is empty and no reference to it is
    left open. *)
Theorem mkdir_then_stat (ctx : fuse_context) (s s1 : FileSystem)
    (path : string) (mode : Z) (id : id_type) (st : stat) :
  settled s ->
  split path "/" <> [] ->
  operations.mkdir ctx path mode id s = ((0, tt), s1) ->
  exists st1 o,
    operations.getattr ctx path st s1 = ((0, st1), s1)
    /\ Z.land (st_mode st1) S_IFMT = S_IFDIR
    /\ Z.land (st_mode st1) 4095 = Z.land mode 4095
    /\ st_nlink st1 = 1
    /\ st_uid st1 = ctx_uid ctx /\ st_gid st1 = ctx_gid ctx
    /\ opened s1 = opened s
    /\ files s1 !! id = Some o /\ fb_payload o = Directory ∅.
Proof.
  intros Hs Hne Hmk.
  destruct (mkdir_success _ _ _ _ _ _ Hs Hmk)
    as (dir & l & od & entries & Hro & Hr & Hid & Hod & Hp & Hfl & Hn & ->).
  set (f := stamp ctx (mkdir_mode mode)).
  set (s1 := linked ctx dir l id DIRECTORY f s).
  assert (Hs1 : settled s1) by (by eapply settled_linked).
  pose proof (resolve_base_name _ _ _ _ Hr Hne) as Hl.
  assert (Hres : resolve_all s1 (split path "/") = Return id).
  { by apply (resolve_all_linked ctx dir l id DIRECTORY f s od entries Hid Hod Hp Hn
                (split path "/") (opened s)). }
  pose proof (linked_lookup_id ctx dir l id DIRECTORY f s od Hid Hod) as Hlk.
  fold s1 in Hlk.
  eexists _, _. rewrite getattr_spec, Hres, Hlk by done.
  split; [reflexivity|]. cbn [stat_of st_mode st_nlink st_uid st_gid f stamp
                              fb_mode fb_nlink fb_uid fb_gid].
  unfold mkdir_mode.
  destruct (land_type_bits mode S_IFDIR eq_refl) as [-> ->].
  repeat (split; [done|]). done.
Qed.

Lemma mkdir_then_stat_witness :
  exists st1,
    operations.getattr sample_context "/a/d" no_stat
      (snd (operations.mkdir sample_context "/a/d" 448 9%N sample))
    = ((0, st1), snd (operations.mkdir sample_context "/a/d" 448 9%N sample))
    /\ Z.land (st_mode st1) S_IFMT = S_IFDIR
    /\ st_nlink st1 = 1.
Proof.
  destruct (mkdir_then_stat sample_context sample
              (snd (operations.mkdir sample_context "/a/d" 448 9%N sample))
              "/a/d" 448 9%N no_stat)
    as (st1 & o & H1 & H2 & _ & H3 & _).
  - apply sample_mount_settled.
  - vm_compute. discriminate.
  - vm_compute. reflexivity.
  - by exists st1.
Defined.

Lemma chown_then_stat_aux path uid gid s t :
  settled s ->
  resolve_all s (split path "/") = Return t ->
  resolve_all (touch (chown_header uid gid) t s) (split path "/") = Return t.
Proof.
  intros Hs Hr. apply (resolve_all_extends s); [|done].
  by apply extends_touch.
Qed.

(** X22. After a chown that returned 0, getattr of the same path returns
    0 and reports the new uid and gid, with mode and nlink as they were;
    chown leaves no reference open. *)
Theorem chown_then_stat (ctx : fuse_context) (s s1 : FileSystem)
    (path : string) (uid gid : Z) (st : stat) :
  settled s ->
  operations.chown ctx path uid gid s = ((0, tt), s1) ->
  exists t o st1,
    resolve_all s (split path "/") = Return t
    /\ files s !! t = Some o
    /\ operations.getattr ctx path st s1 = ((0, st1), s1)
    /\ st_uid st1 = uid /\ st_gid st1 = gid
    /\ st_mode st1 = fb_mode o /\ st_nlink st1 = fb_nlink o
    /\ opened s1 = opened s.
Proof.
  intros Hs Hc. rewrite chown_spec in Hc by done.
  destruct (resolve_all s (split path "/")) as [t|e] eqn:Hr.
  2:{ injection Hc as Hc _. by apply resolve_all_throw in Hr. }
  injection Hc as <-.
  destruct (resolve_all_file _ _ _ Hr) as [o Ho].
  exists t, o. eexists. split; [done|]. split; [done|].
  rewrite getattr_spec by (apply settled_touch; [by intros ?|done]).
  rewrite chown_then_stat_aux by done.
  cbn [touch files with_files]. rewrite lookup_alter_eq, Ho. cbn.
  by repeat split.
Qed.

Lemma chown_then_stat_witness :
  exists st1,
    operations.getattr sample_context "/f" no_stat
      (snd (operations.chown sample_context "/f" 0 5 sample))
    = ((0, st1), snd (operations.chown sample_context "/f" 0 5 sample))
    /\ st_uid st1 = 0 /\ st_gid st1 = 5.
Proof.
  destruct (chown_then_stat sample_context sample
              (snd (operations.chown sample_context "/f" 0 5 sample)) "/f" 0 5 no_stat)
    as (t & o & st1 & _ & _ & H1 & H2 & H3 & _).
  - apply sample_mount_settled.
  - vm_compute. reflexivity.
  - by exists st1.
Defined.

(** ** Calls on a handle *)

(** X23. On a null handle read, flush, ftruncate, release, releasedir and
    readdir return -EINVAL.  On a handle to an object that is not a regular
    file read and flush return -EPERM and ftruncate -EINVAL; on one that is
    not a directory readdir returns -ENOTDIR.  In all these cases the
    filesystem and the caller's buffer are unchanged. *)
Theorem bad_handle_refused (ctx : fuse_context) (s : FileSystem)
    (info : fuse_file_info) :
  (fh info = None ->
     (forall buffer len off,
        operations.read ctx buffer len off info s = ((- EINVAL, buffer), s))
     /\ operations.flush ctx info s = ((- EINVAL, tt), s)
     /\ (forall size, operations.ftruncate ctx size info s = ((- EINVAL, tt), s))
     /\ operations.release ctx info s = ((- EINVAL, tt), s)
     /\ operations.releasedir ctx info s = ((- EINVAL, tt), s)
     /\ (forall B (buffer : B) filler,
           operations.readdir ctx buffer filler info s = ((- EINVAL, buffer), s)))
  /\ (forall fb o,
        fh info = Some fb -> files s !! fb = Some o ->
        (payload_type (fb_payload o) <> REGULAR_FILE ->
           (forall buffer len off,
              operations.read ctx buffer len off info s = ((- EPERM, buffer), s))
           /\ operations.flush ctx info s = ((- EPERM, tt), s)
           /\ (forall size, operations.ftruncate ctx size info s = ((- EINVAL, tt), s)))
        /\ (payload_type (fb_payload o) <> DIRECTORY ->
              forall B (buffer : B) filler,
                operations.readdir ctx buffer filler info s
                = ((- ENOTDIR, buffer), s))).
Proof.
  split.
  - intros Hfh.
    unfold operations.read, operations.flush, operations.ftruncate,
      operations.releasedir, operations.release, operations.readdir.
    rewrite Hfh. repeat split; intros; by rewrite COMMON_CATCH_BLOCK_eq.
  - intros fb o Hfh Ho.
    unfold operations.read, operations.flush, operations.ftruncate,
      operations.readdir.
    rewrite Hfh. split; intros Hn; repeat split; intros;
      rewrite COMMON_CATCH_BLOCK_eq; unfold mbind at 1; unfold M_bind, bind;
      rewrite (FileBase_type_eq fb s o) by done;
      by rewrite decide_True by done.
Qed.

Lemma bad_handle_refused_witness :
  operations.read sample_context link_buffer 8 0 dir_handle sample
  = ((- EPERM, link_buffer), sample)
  /\ operations.readdir sample_context [] record_entry file_handle sample
     = ((- ENOTDIR, []), sample)
  /\ operations.flush sample_context no_handle sample = ((- EINVAL, tt), sample).
Proof.
  destruct (bad_handle_refused sample_context sample dir_handle) as [_ H1].
  destruct (bad_handle_refused sample_context sample file_handle) as [_ H2].
  destruct (bad_handle_refused sample_context sample no_handle) as [H3 _].
  split; [|split].
  - apply (H1 1%N (sample_object (Z.lor S_IFDIR 493) (Directory sample_root_entries)));
      [reflexivity|reflexivity|by cbn].
  - apply (H2 3%N (sample_object (Z.lor S_IFREG 420)
                     (RegularFile (list_ascii_of_string "abc"))));
      [reflexivity|reflexivity|by cbn].
  - by apply H3.
Defined.

Lemma read_back data off b :
  take (length b) (drop off (write_at data off b)) = b.
Proof.
  destruct b as [|x b]; [done|].
  rewrite write_at_nonempty by done.
  set (P := take off (data ++ replicate (off - length data) NUL)).
  assert (HP : length P = off).
  { unfold P. rewrite length_take, length_app, length_replicate. lia. }
  rewrite drop_app_length' by done.
  by rewrite take_app_length.
Qed.

Lemma to_int_small z : - 2 ^ 31 <= z < 2 ^ 31 -> to_int z = z.
Proof. intros H. unfold to_int. rewrite Z.mod_small by lia. lia. Qed.

(** X24. On a handle to a readable regular file, a write of [len] bytes
    ([0 <= len < 2^31], the buffer holds them) at [off] returns [len], and
    a read of [len] bytes at [off] then returns [len] and puts exactly the
    written bytes at the start of its buffer, the rest of the buffer
    unchanged. *)
Theorem write_then_read (ctx : fuse_context) (s : FileSystem)
    (info : fuse_file_info) (fb : id_type) (o : FileBase)
    (data buffer buf2 : list ascii) (len off : Z) :
  fh info = Some fb ->
  files s !! fb = Some o -> fb_payload o = RegularFile data ->
  faults s !! fb = None ->
  0 <= off -> 0 <= len < 2 ^ 31 -> (Z.to_nat len <= length buffer)%nat ->
  exists s1,
    operations.write ctx buffer len off info s = ((len, tt), s1)
    /\ operations.read ctx buf2 len off info s1
       = ((len, take (Z.to_nat len) buffer ++ drop (Z.to_nat len) buf2), s1)
    /\ opened s1 = opened s.
Proof.
  intros Hfh Ho Hp Hf Hoff Hlen Hbuf.
  set (b := take (Z.to_nat len) buffer).
  assert (Hb : length b = Z.to_nat len) by (unfold b; by rewrite length_take_le).
  exists (touch (set_payload (RegularFile (write_at data (Z.to_nat off) b))) fb s).
  split; [|split; [|done]].
  - unfold operations.write. rewrite COMMON_CATCH_BLOCK_eq, Hfh.
    unfold mbind at 1. unfold M_bind, bind.
    rewrite (FileBase_type_eq fb s o), Hp by done. cbn [payload_type].
    rewrite decide_False by (by intros []).
    unfold RegularFile_write, stream, put_stream, update, deref. run_monad.
    rewrite Hf, Ho, Hp. by rewrite to_int_small by lia.
  - unfold operations.read. rewrite COMMON_CATCH_BLOCK_eq, Hfh.
    unfold mbind at 1. unfold M_bind, bind.
    erewrite FileBase_type_eq
      by (cbn [touch files with_files]; by rewrite lookup_alter_eq, Ho).
    cbn [set_payload fb_payload payload_type].
    rewrite decide_False by (by intros []).
    unfold RegularFile_read, stream, deref. run_monad.
    cbn [touch files faults with_files]. rewrite Hf, lookup_alter_eq, Ho.
    cbn [fmap option_fmap option_map set_payload fb_payload].
    rewrite <- Hb, read_back, Hb.
    by rewrite Z2Nat.id, to_int_small by lia.
Qed.

Lemma write_then_read_witness :
  exists s1,
    operations.write sample_context (list_ascii_of_string "XY") 2 5 file_handle sample
    = ((2, tt), s1)
    /\ operations.read sample_context link_buffer 2 5 file_handle s1
       = ((2, (list_ascii_of_string "XY" ++ drop 2 link_buffer)%list), s1).
Proof.
  destruct (write_then_read sample_context sample file_handle 3%N
              (sample_object (Z.lor S_IFREG 420) (RegularFile (list_ascii_of_string "abc")))
              (list_ascii_of_string "abc") (list_ascii_of_string "XY") link_buffer 2 5)
    as (s1 & H1 & H2 & _);
    [reflexivity | reflexivity | reflexivity | reflexivity | lia | lia
    | cbn [length list_ascii_of_string]; lia |].
  by exists s1.
Defined.

Lemma iterate_entries_all {B} (g : B -> string -> id_type -> file_type -> B) l :
  forall b,
  iterate_entries (fun b n i t => (true, g b n i t)) l b
  = foldl (fun b e => g b e.1 e.2.1 e.2.2) b l.
Proof.
  induction l as [|[n [i t]] l IH]; intros b; cbn; [done|]. by rewrite IH.
Qed.

Lemma foldl_snoc_map {A C} (h : A -> C) l : forall b,
  foldl (fun b e => b ++ [h e]) b l = b ++ (h <$> l).
Proof.
  induction l as [|e l IH]; intros b; cbn; [by rewrite app_nil_r|].
  by rewrite IH, <- app_assoc.
Qed.

Lemma iterate_entries_stop {B} (g : B -> string -> id_type -> file_type -> B) l b :
  iterate_entries (fun b n i t => (false, g b n i t)) l b
  = match l with
    | [] => b
    | e :: _ => g b e.1 e.2.1 e.2.2
    end.
Proof. by destruct l as [|[n [i t]] l]. Qed.

Lemma c_str_no_nul name :
  is_c_string name -> c_str (list_ascii_of_string name) = name.
Proof.
  unfold is_c_string. induction name as [|c name IH]; cbn; [done|]. intros Hn.
  destruct (Ascii.eqb c NUL) eqn:E.
  - apply Ascii.eqb_eq in E. tauto.
  - f_equal. apply IH. tauto.
Qed.

(** X25. On a handle to a readable directory, readdir with a filler that
    accepts every entry returns 0, leaves the filesystem unchanged and
    hands over every entry exactly once, with the type bits of its kind as
    st_mode; with a filler that answers nonzero it stops after the first
    entry and still returns 0. *)
Theorem readdir_lists_entries (ctx : fuse_context) (s : FileSystem)
    (info : fuse_file_info) (fb : id_type) (o : FileBase)
    (entries : gmap string (id_type * file_type)) :
  fh info = Some fb ->
  files s !! fb = Some o -> fb_payload o = Directory entries ->
  faults s !! fb = None ->
  map_Forall (fun name _ => is_c_string name) entries ->
  exists l l',
    operations.readdir ctx [] record_entry info s = ((0, l), s)
    /\ NoDup l.*1
    /\ (forall name mode,
          (name, mode) ∈ l
          <-> exists id type,
                entries !! name = Some (id, type) /\ mode = mode_for_type type)
    /\ operations.readdir ctx [] refuse_entry info s = ((0, l'), s)
    /\ l' = take 1 l.
Proof.
  intros Hfh Ho Hp Hf Hnames.
  set (h := fun e : string * (id_type * file_type) => (e.1, mode_for_type e.2.2)).
  set (h' := fun e : string * (id_type * file_type) =>
               (c_str (list_ascii_of_string e.1), mode_for_type e.2.2)).
  assert (Hh : h' <$> map_to_list entries = h <$> map_to_list entries).
  { apply list_fmap_ext. intros i [n e] Hi. unfold h, h'. cbn [fst snd]. f_equal.
    apply c_str_no_nul, (Hnames n e).
    apply elem_of_map_to_list. by eapply list_elem_of_lookup_2. }
  exists (h <$> map_to_list entries), (take 1 (h <$> map_to_list entries)).
  assert (Hrun : forall filler : list (string * Z) -> string -> stat
                                -> Z * list (string * Z),
    operations.readdir ctx [] filler info s
    = ((0, iterate_entries
             (fun b (name : string) (_ : id_type) (type : file_type) =>
                let st := {| st_mode := mode_for_type type; st_nlink := 0;
                             st_uid := 0; st_gid := 0 |} in
                let '(rc, b') := filler b (c_str (list_ascii_of_string name)) st in
                (rc =? 0, b'))
             (map_to_list entries) []), s)).
  { intros filler. unfold operations.readdir. rewrite COMMON_CATCH_BLOCK_eq, Hfh.
    unfold mbind at 1. unfold M_bind, bind.
    rewrite (FileBase_type_eq fb s o), Hp by done. cbn [payload_type].
    rewrite decide_False by (by intros []).
    unfold Directory_iterate_over_entries, stream, deref. run_monad.
    by rewrite Hf, Ho, Hp. }
  split; [|split; [|split; [|split; [|done]]]].
  - rewrite Hrun. unfold record_entry. cbn [Z.eqb].
    rewrite (iterate_entries_all
               (fun b n _ t => b ++ [(c_str (list_ascii_of_string n), mode_for_type t)])).
    by rewrite (foldl_snoc_map h'), Hh.
  - rewrite <- list_fmap_compose.
    apply (NoDup_fst_map_to_list entries).
  - intros name mode. rewrite list_elem_of_fmap. split.
    + intros ([n [i t]] & [= -> ->] & Hin).
      apply elem_of_map_to_list in Hin. by exists i, t.
    + intros (i & t & Hl & ->). exists (name, (i, t)). split; [done|].
      by apply elem_of_map_to_list.
  - rewrite Hrun. unfold refuse_entry. cbn [Z.eqb].
    rewrite (iterate_entries_stop
               (fun b n _ t => b ++ [(c_str (list_ascii_of_string n), mode_for_type t)])).
    rewrite <- Hh. by destruct (map_to_list entries).
Qed.

Lemma readdir_lists_entries_witness :
  exists l,
    operations.readdir sample_context [] record_entry dir_handle sample = ((0, l), sample)
    /\ ("f"%string, S_IFREG) ∈ l /\ ("a"%string, S_IFDIR) ∈ l.
Proof.
  destruct (readdir_lists_entries sample_context sample dir_handle 1%N
              (sample_object (Z.lor S_IFDIR 493) (Directory sample_root_entries))
              sample_root_entries)
    as (l & l' & H1 & _ & H2 & _); try reflexivity.
  { apply (bool_decide_unpack _). vm_compute. exact I. }
  exists l. split; [exact H1|]. split; apply H2.
  - exists 3%N, REGULAR_FILE. split; reflexivity.
  - exists 2%N, DIRECTORY. split; reflexivity.
Defined.

(** X26. For [0 < size <= length buf], readlink never changes the length
    of the buffer nor any byte from index [size] on; when it returns 0 the
    byte at [size - 1] is NUL, when it fails the buffer is unchanged; files
    and references are as before in every case. *)
Theorem readlink_stays_in_bounds (ctx : fuse_context) (s : FileSystem)
    (path : string) (buf : list ascii) (size : Z) :
  settled s ->
  0 < size -> (Z.to_nat size <= length buf)%nat ->
  let r := operations.readlink ctx path buf size s in
  length (snd (fst r)) = length buf
  /\ drop (Z.to_nat size) (snd (fst r)) = drop (Z.to_nat size) buf
  /\ (fst (fst r) = 0 -> snd (fst r) !! (Z.to_nat size - 1)%nat = Some NUL)
  /\ (fst (fst r) <> 0 -> snd (fst r) = buf)
  /\ files (snd r) = files s /\ opened (snd r) = opened s.
Proof.
  intros Hs Hsz Hbuf r.
  assert (Hne : size <> 0) by lia.
  assert (Herr : forall rc s', r = ((rc, buf), s') -> rc <> 0 ->
                 files s' = files s -> opened s' = opened s ->
    length (snd (fst r)) = length buf
    /\ drop (Z.to_nat size) (snd (fst r)) = drop (Z.to_nat size) buf
    /\ (fst (fst r) = 0 -> snd (fst r) !! (Z.to_nat size - 1)%nat = Some NUL)
    /\ (fst (fst r) <> 0 -> snd (fst r) = buf)
    /\ files (snd r) = files s /\ opened (snd r) = opened s).
  { intros rc s' -> Hrc Hfi Hop. cbn [fst snd]. by repeat split. }
  destruct (resolve_all s (split path "/")) as [t|e] eqn:Hr.
  2:{ apply (Herr (error_code e) (logged ctx e s)).
      - by apply readlink_throw.
      - by apply resolve_all_throw in Hr.
      - apply logged_files.
      - apply logged_opened. }
  destruct (resolve_all_file _ _ _ Hr) as [o Ho].
  destruct (fb_payload o) as [data|entries|target] eqn:Hp.
  1,2: apply (Herr (- EINVAL) s); [|done|done|done];
       apply (readlink_wrong_type ctx path buf size s t o); try done;
       by rewrite Hp.
  destruct (faults s !! t) as [f|] eqn:Hf.
  { apply (Herr (error_code (exception_of_fault f)) (logged ctx (exception_of_fault f) s)).
    - apply (readlink_fault ctx path buf size s t o f); try done. by rewrite Hp.
    - apply error_code_fault.
    - apply logged_files.
    - apply logged_opened. }
  unfold r. rewrite (readlink_symlink ctx path buf size s t o target) by done.
  cbn [fst snd].
  set (n := Nat.min (length (list_ascii_of_string target)) (Z.to_nat size - 1)).
  replace (Z.to_nat (Z.min (Z.of_nat (String.length target)) (size - 1))) with n
    by (unfold n; rewrite length_list_ascii_of_string; lia).
  rewrite readlink_buffer by lia. fold n.
  assert (Hn : (n <= Z.to_nat size - 1)%nat) by (unfold n; lia).
  assert (Ht : length (take n (list_ascii_of_string target)) = n).
  { rewrite length_take. unfold n. lia. }
  repeat split; try done.
  - rewrite !length_app, Ht, length_replicate, length_drop. lia.
  - rewrite drop_app_ge by lia. rewrite Ht.
    rewrite drop_app_ge by (rewrite length_replicate; lia).
    rewrite length_replicate.
    replace (Z.to_nat size - n - (Z.to_nat size - n))%nat with 0%nat by lia. done.
  - intros _. rewrite lookup_app_r by lia. rewrite Ht.
    rewrite lookup_app_l by (rewrite length_replicate; lia).
    apply lookup_replicate_2. lia.
Qed.

Lemma readlink_stays_in_bounds_witness :
  let r := operations.readlink sample_context "/s" link_buffer 4 after_symlink in
  length (snd (fst r)) = length link_buffer
  /\ drop 4 (snd (fst r)) = drop 4 link_buffer.
Proof.
  destruct (readlink_stays_in_bounds sample_context after_symlink "/s" link_buffer 4)
    as (H1 & H2 & _).
  - apply (serve_settled sample_context (call_symlink "target" "/s" 9%N) sample).
    apply sample_mount_settled.
  - lia.
  - cbn. lia.
  - split; [exact H1|exact H2].
Defined.

(** ** Removing what is not there *)

Lemma keeps_nlink_unlink_entry name : keeps_nlink (unlink_entry name).
Proof. intros o. unfold unlink_entry. by destruct (fb_payload o). Qed.

(** X27. On a writable mount, unlink of a name that its parent does not
    hold returns -ENOENT and leaves the filesystem unchanged; unlink of an
    entry whose object has no host files returns -ENOENT as well, but has
    removed the entry from the parent. *)
Theorem unlink_missing (ctx : fuse_context) (s : FileSystem) (path : string)
    (dir : id_type) (name : string) :
  settled s ->
  readonly s = false ->
  resolve_base s (split path "/") = Return (dir, name) ->
  is_empty name = false ->
  (entry_of s dir name = Return None ->
     operations.unlink ctx path s = ((- ENOENT, tt), s))
  /\ (forall id type,
        entry_of s dir name = Return (Some (id, type)) ->
        files s !! id = None ->
        operations.unlink ctx path s
        = ((- ENOENT, tt), touch (unlink_entry name) dir s)
        /\ entry_of (touch (unlink_entry name) dir s) dir name = Return None).
Proof.
  intros Hs Hro Hr Hl.
  pose proof (settled_settled_at s dir Hs) as Hsd.
  split.
  - intros He.
    rewrite (unlink_op_throw ctx path s (OSException ENOENT) s); [done|done|].
    unfold internal.remove. unfold mbind at 1. unfold M_bind, bind.
    rewrite open_base_dir_spec, Hr by done.
    unfold finally, FileGuard_dtor, FileGuard_reset, FileTable_close. rewrite Hl.
    unfold mbind at 1. unfold M_bind, bind.
    rewrite Directory_remove_entry_eq.
    rewrite (entry_of_frame (incref dir s) s), He by done.
    unfold throw, modify. cbn [snd]. by rewrite close_incref.
  - intros id type He Hid.
    assert (Hne : dir <> id).
    { destruct (resolve_base_file _ _ _ _ Hr) as [od Hod]. congruence. }
    split.
    + rewrite (unlink_op_throw ctx path s (OSException ENOENT)
                 (touch (unlink_entry name) dir s)); [done|done|].
      unfold internal.remove. unfold mbind at 1. unfold M_bind, bind.
      rewrite open_base_dir_spec, Hr by done.
      unfold finally, FileGuard_dtor, FileGuard_reset, FileTable_close. rewrite Hl.
      unfold mbind at 1. unfold M_bind, bind.
      rewrite Directory_remove_entry_eq.
      rewrite (entry_of_frame (incref dir s) s), He by done.
      assert (Hhe : holds_entries (incref dir s) id = false).
      { unfold holds_entries. cbn [files incref with_opened]. by rewrite Hid. }
      rewrite Hhe.
      unfold FileBase_flush, table_open_as.
      unfold mbind at 1. unfold M_bind, bind, mret, M_ret, ret.
      unfold mbind at 1. unfold M_bind, bind.
      rewrite FileTable_open_as_eq.
      assert (Hop : openable (touch (unlink_entry name) dir (incref dir s)) id type
                    = Throw (OSException ENOENT)).
      { unfold openable, FileTable_open_as, touch. cbn [files with_files incref with_opened].
        by rewrite lookup_alter_ne, Hid by done. }
      rewrite Hop. unfold modify. cbn [snd]. f_equal.
      apply close_touch_incref; [apply keeps_nlink_unlink_entry|done].
    + pose proof (entry_of_cases s dir name) as Hc. rewrite He in Hc.
      destruct Hc as (entries & Hen & Hlk).
      destruct (entries_of_files _ _ _ Hen) as (od & Hod & Hp & Hfl).
      rewrite (entry_of_entries _ dir (delete name entries)).
      * by rewrite lookup_delete_eq.
      * unfold entries_of, touch. cbn [faults files with_files].
        rewrite Hfl, lookup_alter_eq, Hod. cbn. unfold unlink_entry. by rewrite Hp.
Qed.

Lemma unlink_missing_witness :
  operations.unlink sample_context "/a/nope" sample = ((- ENOENT, tt), sample).
Proof.
  destruct (unlink_missing sample_context sample "/a/nope" 2%N "nope") as [H _];
    [apply sample_mount_settled | reflexivity | reflexivity | reflexivity |].
  apply H. reflexivity.
Defined.

(** ** A symlink and its removal *)

Lemma symlink_readonly ctx to from id s :
  readonly s = true ->
  operations.symlink ctx to from id s = ((- EROFS, tt), s).
Proof.
  intros Hro. unfold operations.symlink. rewrite COMMON_CATCH_BLOCK_eq.
  unfold is_readonly, FileTable_is_readonly.
  unfold mbind at 1. unfold M_bind, bind, gets. by rewrite Hro.
Qed.

(** X28. For a path with at least one component: after a symlink that
    returned 0, unlink of the link returns 0 and gives back the filesystem
    exactly as it was before the symlink. *)
Theorem symlink_then_unlink (ctx : fuse_context) (s s1 : FileSystem)
    (to from : string) (id : id_type) :
  settled s ->
  split from "/" <> [] ->
  operations.symlink ctx to from id s = ((0, tt), s1) ->
  operations.unlink ctx from s1 = ((0, tt), s).
Proof.
  intros Hs Hne Hsym.
  assert (Hro : readonly s = false).
  { destruct (readonly s) eqn:Hro; [|done].
    by rewrite symlink_readonly in Hsym. }
  destruct (symlink_success _ _ _ _ _ _ Hs Hsym)
    as (dir & l & od & entries & Hr & Hid & Hod & Hp & Hfl & Hn & Hfi & ->).
  set (f := symlink_header ctx to).
  set (s1 := linked ctx dir l id SYMLINK f s).
  assert (Hs1 : settled s1) by (by eapply settled_linked).
  assert (Hext : extends s s1) by (by eapply extends_linked).
  pose proof (resolve_base_name _ _ _ _ Hr Hne) as Hl.
  apply (unlink_op_spec ctx from s1 tt); [done|].
  rewrite (remove_spec ctx from s1 dir l id SYMLINK (f (fresh_object ctx SYMLINK)));
    try done.
  - f_equal. apply (removed_linked ctx dir l id SYMLINK f s od entries); try done.
    by apply settled_fresh.
  - by apply (resolve_base_extends s).
  - rewrite (entry_of_entries s1 dir (<[l := (id, SYMLINK)]> entries))
      by (by apply (entries_of_linked ctx dir l id SYMLINK f s od entries)).
    by rewrite lookup_insert_eq.
  - by apply (linked_lookup_id ctx dir l id SYMLINK f s od).
  - unfold holds_entries, s1.
    by rewrite (linked_lookup_id ctx dir l id SYMLINK f s od Hid Hod).
  - congruence.
Qed.

Lemma symlink_then_unlink_witness :
  operations.unlink sample_context "/s" after_symlink = ((0, tt), sample).
Proof.
  apply (symlink_then_unlink sample_context sample after_symlink "target" "/s" 9%N).
  - apply sample_mount_settled.
  - vm_compute. discriminate.
  - vm_compute. reflexivity.
Defined.
